(** * PayWall402: payment verification and access-grant core

    A shallow embedding of the backend's payment core, with the properties
    the design document states about it:

    - [Solana]          [backend/utils/solana.js]  (transaction verification)
    - [Jwt]             [backend/utils/jwt.js]     (access credentials)
    - [Validation]      [backend/middleware/validation.js]
    - [Store]           the SQL tables of [backend/db/schema.sql]
    - [DatabaseManager] the pooled database manager ([createPayment])
    - [PaymentRoute]    [backend/routes/payment.js]  (POST /verify)
    - [X402]            [backend/middleware/x402.js] (the payment gate)

    JavaScript numbers that carry token amounts are binary64 floats
    ([PrimFloat]); second and millisecond counts are integers ([Z]). *)

From Stdlib Require Import Floats ZArith Lia Bool Ascii.
From stdpp Require Import base option list strings pretty gmap.

Set Default Proof Using "Type".
Set Warnings "-inexact-float,-register-all".

(** ** Order facts on binary64 values

    The comparison operators of the source ([>], [!==]) are the IEEE ones.
    Their specification [SFcompare] is a lexicographic comparison on the
    [key] below. *)
Module F64.

Local Open Scope float_scope.

Definition is_number (x : float) : bool := negb (is_nan x).

(** Position of a non-NaN value on the extended line, as a lexicographic key. *)
Definition key (x : spec_float) : option (Z * Z * Z) :=
  match x with
  | S754_nan => None
  | S754_zero _ => Some (0, 0, 0)%Z
  | S754_infinity true => Some (-2, 0, 0)%Z
  | S754_infinity false => Some (2, 0, 0)%Z
  | S754_finite true m e => Some (-1, - e, - Z.pos m)%Z
  | S754_finite false m e => Some (1, e, Z.pos m)%Z
  end.

Definition lex3 (a b : Z * Z * Z) : comparison :=
  let '(a1, a2, a3) := a in
  let '(b1, b2, b3) := b in
  match (a1 ?= b1)%Z with
  | Eq => match (a2 ?= b2)%Z with
          | Eq => (a3 ?= b3)%Z
          | c => c
          end
  | c => c
  end.


(** Neither NaN nor an infinity. *)
Definition finite (x : float) : bool := (neg_infinity <? x) && (x <? infinity).

(** A specification value that is a zero or a finite number. *)
Definition finiteSF (x : spec_float) : bool :=
  match x with
  | S754_zero _ | S754_finite _ _ _ => true
  | _ => false
  end.

End F64.

(** ** [backend/utils/solana.js]: verification of a USDC transfer *)
Module Solana.

Local Open Scope float_scope.

(** USDC Mainnet Mint Address *)
Definition USDC_MINT_MAINNET : string :=
  "EPjFWdd5AufqSSqeM2qN1xzybapC8G4wEGGkZwyTDt1v".

(** *** The RPC's transaction record, as far as the verifier reads it *)

(** [meta.err]: [null] on success; on failure an error object or a variant
    name (never an empty string), so every value of this type is truthy. *)
Record TransactionError := { err_repr : string }.

(** One entry of [preTokenBalances] / [postTokenBalances];
    [uiTokenAmount.uiAmount] is a number or [null]. *)
Record TokenBalance := {
  tb_accountIndex : Z;
  tb_mint : string;
  tb_owner : option string;
  tb_uiAmount : option float
}.

Record Meta := {
  err : option TransactionError;
  preTokenBalances : option (list TokenBalance);
  postTokenBalances : option (list TokenBalance)
}.

(** [tx.transaction.message]. The fetch asks for
    [maxSupportedTransactionVersion: 0], so the message is a legacy message,
    which carries [accountKeys], or a version-0 message, which carries
    [staticAccountKeys] and has no [accountKeys]. A key is given by its
    base58 text ([key.toString()] and [key.toBase58()] agree). *)
Inductive Message :=
  | LegacyMessage (keys : list string)
  | MessageV0 (staticAccountKeys : list string).

(** [message.accountKeys]; [None] is [undefined]. *)
Definition accountKeys (m : Message) : option (list string) :=
  match m with
  | LegacyMessage keys => Some keys
  | MessageV0 _ => None
  end.

Record Transaction := { message : Message }.

Record TransactionResponse := {
  meta : option Meta;
  transaction : option Transaction;
  blockTime : option Z;
  slot : Z
}.

(** What [connection.getTransaction] does: it throws, or answers [null] or a
    record. *)
Inductive RpcReply :=
  | RpcThrow (msg : string)
  | RpcValue (tx : option TransactionResponse).

(** The connection singleton: the ledger it talks to and the signatures it
    was asked for so far (both at commitment 'confirmed'). *)
Record Connection := {
  ledger : string -> RpcReply;
  requests : list string
}.

Definition getTransaction (c : Connection) (signature : string)
  : RpcReply * Connection :=
  (ledger c signature,
   {| ledger := ledger c; requests := requests c ++ [signature] |}).

(** *** Result objects *)

(** An element of [usdcTransfers]. *)
Record Transfer := {
  accountIndex : Z;
  owner : option string;
  change : float;
  mint : string
}.

Inductive Details :=
  | DetailsError (error : TransactionError)
  | DetailsRecipient (expectedRecipient : string)
      (foundTransfers : list (option string * float))
  | DetailsAmount (expected received difference : float)
  | DetailsVerified (signature : string) (recipient : option string)
      (amount : float) (mint : string) (blockTime : option Z) (slot : Z).

Record VerificationResult := {
  verified : bool;
  error : option string;
  details : option Details
}.

Definition rejected (msg : string) (d : option Details) : VerificationResult :=
  {| verified := false; error := Some msg; details := d |}.

(** *** The verifier *)

(** [parseFloat] applied to a [uiAmount]: [null] gives NaN, a number is
    printed and read back (which only loses the sign of zero). *)
Definition parseFloat (v : option float) : float :=
  match v with
  | None => nan
  | Some x => if x =? 0 then 0 else x
  end.

(** Body of the loop over [postTokenBalances]: the transfer pushed for
    [post], if any. *)
Definition usdcTransfer (preTokenBalances : list TokenBalance) (post : TokenBalance)
  : option Transfer :=
  let pre := List.find (fun p => Z.eqb (tb_accountIndex p) (tb_accountIndex post))
               preTokenBalances in
  if String.eqb (tb_mint post) USDC_MINT_MAINNET then
    let preAmount := match pre with
                     | Some p => parseFloat (tb_uiAmount p)
                     | None => 0
                     end in
    let postAmount := parseFloat (tb_uiAmount post) in
    let change := postAmount - preAmount in
    if negb (change =? 0) then
      Some {| accountIndex := tb_accountIndex post; owner := tb_owner post;
              change := change; mint := tb_mint post |}
    else None
  else None.

Definition usdcTransfers (preTokenBalances postTokenBalances : list TokenBalance)
  : list Transfer :=
  omap (usdcTransfer preTokenBalances) postTokenBalances.

(** [t.owner === expectedRecipient] *)
Definition ownerIs (expectedRecipient : string) (t : Transfer) : bool :=
  match owner t with
  | Some o => String.eqb o expectedRecipient
  | None => false
  end.

Definition positive (t : Transfer) : bool := 0 <? change t.

(** The TypeError of [accountKeys.some] when [accountKeys] is undefined. *)
Definition someOfUndefined : string :=
  "Cannot read properties of undefined (reading 'some')".

(** Lines 81-102: the value of [recipientTransfer] when line 104 tests it,
    or the message of the error thrown on the way. The account keys are
    read only when no transfer matches by owner and [tx.transaction] is
    there. *)
Definition findRecipientTransfer (transfers : list Transfer)
    (tx : TransactionResponse) (expectedRecipient : string)
  : option Transfer + string :=
  match List.find (fun t => ownerIs expectedRecipient t && positive t) transfers with
  | Some t => inl (Some t)
  | None =>
      match transaction tx with
      | Some txn =>
          match accountKeys (message txn) with
          | Some keys =>
              inl (if existsb (fun key => String.eqb key expectedRecipient) keys
                   then List.find positive transfers
                   else None)
          | None => inr someOfUndefined
          end
      | None => inl None
      end
  end.

(** [recipientInKeys], when line 91 computes it (false when it does not). *)
Definition recipientInKeys (tx : TransactionResponse) (expectedRecipient : string)
  : bool :=
  match transaction tx ≫= (fun txn => accountKeys (message txn)) with
  | Some keys => existsb (fun key => String.eqb key expectedRecipient) keys
  | None => false
  end.

(** The value of [recipientTransfer] when line 104 tests it (none when the
    line is not reached). *)
Definition recipientTransfer (transfers : list Transfer) (tx : TransactionResponse)
    (expectedRecipient : string) : option Transfer :=
  match findRecipientTransfer transfers tx expectedRecipient with
  | inl found => found
  | inr _ => None
  end.

(** The test of line 120: [amountDiff > tolerance && amountDiff > 0.01]. *)
Definition amountMismatch (amountReceived expectedAmount : float) : bool :=
  let tolerance := expectedAmount * 0.001 in
  let amountDiff := abs (amountReceived - expectedAmount) in
  (tolerance <? amountDiff) && (0.01 <? amountDiff).

(** Lines 115-143, once a recipient transfer is found. *)
Definition checkAmount (signature : string) (tx : TransactionResponse)
    (t : Transfer) (expectedAmount : float) : VerificationResult :=
  let amountReceived := change t in
  let amountDiff := abs (amountReceived - expectedAmount) in
  if amountMismatch amountReceived expectedAmount then
    rejected "Transfer amount does not match expected amount"
      (Some (DetailsAmount expectedAmount amountReceived amountDiff))
  else
    {| verified := true; error := None;
       details := Some (DetailsVerified signature (owner t) amountReceived
                          USDC_MINT_MAINNET (blockTime tx) (slot tx)) |}.

(** Lines 37-143: everything after the fetch returned a record; an error
    thrown on the way is caught at line 145. *)
Definition verifyRecord (signature : string) (tx : TransactionResponse)
    (expectedRecipient : string) (expectedAmount : float) : VerificationResult :=
  match meta tx ≫= err with
  | Some e => rejected "Transaction failed on blockchain" (Some (DetailsError e))
  | None =>
      let pre := default [] (meta tx ≫= preTokenBalances) in
      let post := default [] (meta tx ≫= postTokenBalances) in
      let transfers := usdcTransfers pre post in
      if Nat.eqb (length transfers) 0 then
        rejected "No USDC transfers found in transaction" None
      else
        match findRecipientTransfer transfers tx expectedRecipient with
        | inr msg => rejected ("Verification failed: " ++ msg) None
        | inl None =>
            rejected "Expected recipient not found in transaction"
              (Some (DetailsRecipient expectedRecipient
                       (map (fun t => (owner t, change t)) transfers)))
        | inl (Some t) => checkAmount signature tx t expectedAmount
        end
  end.

Definition verifySolanaTransaction (connection : Connection)
    (signature expectedRecipient : string) (expectedAmount : float)
  : VerificationResult * Connection :=
  let '(reply, connection) := getTransaction connection signature in
  match reply with
  | RpcThrow msg => (rejected ("Verification failed: " ++ msg) None, connection)
  | RpcValue None => (rejected "Transaction not found on blockchain" None, connection)
  | RpcValue (Some tx) =>
      (verifyRecord signature tx expectedRecipient expectedAmount, connection)
  end.

(** The design document's names for the rejections. *)
Definition TransactionFailed (r : VerificationResult) : Prop :=
  verified r = false /\ error r = Some "Transaction failed on blockchain".
Definition RecipientMismatch (r : VerificationResult) : Prop :=
  verified r = false /\ error r = Some "Expected recipient not found in transaction".
Definition AmountMismatch (expected actual : float) (r : VerificationResult) : Prop :=
  verified r = false /\
  error r = Some "Transfer amount does not match expected amount" /\
  exists d, details r = Some (DetailsAmount expected actual d).

(** The design document's tolerance band, [max(price * 0.1%, floor)], with the
    floor of the source. *)
Definition fmax (x y : float) : float := if x <? y then y else x.
Definition toleranceBand (priceAmount : float) : float :=
  fmax (priceAmount * 0.001) 0.01.
Definition withinBand (amount priceAmount : float) : bool :=
  abs (amount - priceAmount) <=? toleranceBand priceAmount.

(** The design document's candidates: a delta owned by the recipient with a
    positive change, and a delta with a positive change. *)
Definition creditedTo (recipient : string) (t : Transfer) : Prop :=
  owner t = Some recipient /\ (0 <? change t) = true.
Definition credit (t : Transfer) : Prop := (0 <? change t) = true.

(** [x] is the first element of [l] that satisfies [P]. *)
Definition firstWhere {A} (P : A -> Prop) (l : list A) (x : A) : Prop :=
  exists before after,
    l = (before ++ x :: after)%list /\ P x /\ Forall (fun y => ~ P y) before.

(** The transfers the verifier extracts from a record. *)
Definition transfersOf (tx : TransactionResponse) : list Transfer :=
  usdcTransfers (default [] (meta tx ≫= preTokenBalances))
                (default [] (meta tx ≫= postTokenBalances)).

(** The state in which the verifier looks for the recipient: the record was
    fetched, it did not fail, and it holds at least one USDC transfer. *)
Definition reachesRecipientCheck (c : Connection) (signature : string)
    (tx : TransactionResponse) : Prop :=
  ledger c signature = RpcValue (Some tx) /\
  meta tx ≫= err = None /\
  transfersOf tx <> [].

End Solana.

(** ** Sample ledger data *)
Module SolanaSamples.
Import Solana.
Local Open Scope float_scope.

(** A transfer of [amount] USDC from "Payer" to "Creator": the creator's
    token account is created by the transaction (no pre-balance). *)
Definition sampleMeta (e : option TransactionError) (amount : float) : Meta :=
  {| err := e;
     preTokenBalances := Some
       [ {| tb_accountIndex := 1; tb_mint := USDC_MINT_MAINNET;
            tb_owner := Some "Payer"; tb_uiAmount := Some 250 |} ];
     postTokenBalances := Some
       [ {| tb_accountIndex := 1; tb_mint := USDC_MINT_MAINNET;
            tb_owner := Some "Payer"; tb_uiAmount := Some (250 - amount) |};
         {| tb_accountIndex := 2; tb_mint := USDC_MINT_MAINNET;
            tb_owner := Some "Creator"; tb_uiAmount := Some amount |} ] |}.

Definition sampleTx (e : option TransactionError) (amount : float) (keys : list string)
  : TransactionResponse :=
  {| meta := Some (sampleMeta e amount);
     transaction := Some {| message := LegacyMessage keys |};
     blockTime := Some 1700000000%Z;
     slot := 42%Z |}.

(** The same transfer in a version-0 transaction. *)
Definition sampleTxV0 (e : option TransactionError) (amount : float)
    (keys : list string) : TransactionResponse :=
  {| meta := Some (sampleMeta e amount);
     transaction := Some {| message := MessageV0 keys |};
     blockTime := Some 1700000000%Z;
     slot := 42%Z |}.

Definition sampleConnection (tx : TransactionResponse) : Connection :=
  {| ledger := fun _ => RpcValue (Some tx); requests := [] |}.

End SolanaSamples.

(** ** JavaScript values and the runtime's primitives *)
Module Js.

(** [process.env], as far as the payment core reads it. *)
Record Env := {
  NODE_ENV : option string;
  JWT_SECRET : option string;
  FRONTEND_URL : option string
}.

(** A value that [JSON.parse] can return. Numbers are the integer-valued ones
    (second counts); objects are finite maps from keys to values. *)
Inductive Json :=
  | JNull
  | JBool (b : bool)
  | JNum (n : Z)
  | JStr (s : string)
  | JArr (l : list Json)
  | JObj (o : gmap string Json).

(** [v.k] for a non-null [v]; [None] is [undefined]. The keys read by the
    payment core are no properties of strings, numbers, booleans or arrays. *)
Definition prop (v : Json) (k : string) : option Json :=
  match v with
  | JObj o => o !! k
  | _ => None
  end.

(** ToBoolean; [None] is [undefined]. *)
Definition truthy (v : option Json) : bool :=
  match v with
  | None | Some JNull => false
  | Some (JBool b) => b
  | Some (JNum n) => negb (n =? 0)%Z
  | Some (JStr s) => negb (String.eqb s EmptyString)
  | Some (JArr _) | Some (JObj _) => true
  end.

(** [v === s] for a string [s]. *)
Definition strictEqString (v : option Json) (s : string) : bool :=
  match v with
  | Some (JStr s') => String.eqb s' s
  | _ => false
  end.

(** [a || b] on optional strings: the empty string is falsy. *)
Definition orString (a : option string) (b : string) : string :=
  match a with
  | Some s => if String.eqb s EmptyString then b else s
  | None => b
  end.

(** The primitives of the runtime the token code calls. *)
Class Runtime := {
  (** [crypto.createHmac('sha256', key).update(data).digest('base64')] *)
  hmacSha256Base64 : string -> string -> string;
  (** [Buffer.from(str).toString('base64')] *)
  bufferToBase64 : string -> string;
  (** [Buffer.from(b64, 'base64').toString('utf8')] *)
  bufferFromBase64 : string -> string;
  JSON_stringify : Json -> string;
  (** [None] when [JSON.parse] throws a SyntaxError *)
  JSON_parse : string -> option Json;
  (** [v < n] for a string, array or object [v] (through ToPrimitive and
      StringToNumber) *)
  lessThanCoerced : Json -> Z -> bool
}.

(** [v < n] for a number [n]. *)
Definition lessThan `{Runtime} (v : Json) (n : Z) : bool :=
  match v with
  | JNum m => (m <? n)%Z
  | JBool b => ((if b then 1 else 0) <? n)%Z
  | JNull => (0 <? n)%Z
  | _ => lessThanCoerced v n
  end.

(** [s.replace(/a/g, b)] for single characters. *)
Fixpoint replaceChar (a b : Ascii.ascii) (s : string) : string :=
  match s with
  | EmptyString => EmptyString
  | String c s' => String (if Ascii.eqb c a then b else c) (replaceChar a b s')
  end.

(** [s.replace(/a/g, '')] *)
Fixpoint removeChar (a : Ascii.ascii) (s : string) : string :=
  match s with
  | EmptyString => EmptyString
  | String c s' => if Ascii.eqb c a then removeChar a s' else String c (removeChar a s')
  end.

(** [s.split(sep)] for a one-character separator. *)
Fixpoint split (sep : Ascii.ascii) (s : string) : list string :=
  match s with
  | EmptyString => [EmptyString]
  | String c s' =>
      if Ascii.eqb c sep then EmptyString :: split sep s'
      else match split sep s' with
           | hd :: tl => String c hd :: tl
           | [] => [String c EmptyString]
           end
  end.

(** [s.startsWith(p)] *)
Definition startsWith (s p : string) : bool := String.prefix p s.

(** Every character of [s] satisfies [p]. *)
Fixpoint allChars (p : Ascii.ascii -> bool) (s : string) : bool :=
  match s with
  | EmptyString => true
  | String c s' => p c && allChars p s'
  end.

(** [s] does not contain [c]. *)
Definition noChar (c : Ascii.ascii) (s : string) : bool :=
  allChars (fun x => negb (Ascii.eqb x c)) s.

Definition isAlphaNum (c : Ascii.ascii) : bool :=
  let n := Ascii.nat_of_ascii c in
  ((48 <=? n) && (n <=? 57) || (65 <=? n) && (n <=? 90)
   || (97 <=? n) && (n <=? 122))%nat.

(** *** The shape of base64 text

    What [Buffer]'s 'base64' encoding produces: characters of the standard
    alphabet, then at most two ['='], a multiple of four in all. *)
Definition isBase64Char (c : Ascii.ascii) : bool :=
  isAlphaNum c || Ascii.eqb c "+" || Ascii.eqb c "/".

Fixpoint base64Body (s : string) : bool :=
  match s with
  | EmptyString => true
  | String c s' =>
      if isBase64Char c then base64Body s'
      else String.eqb s "=" || String.eqb s "=="
  end.

Definition wellFormedBase64 (s : string) : bool :=
  base64Body s && Nat.eqb (String.length s mod 4) 0.

(** The alphabet of base64url text. *)
Definition isBase64UrlChar (c : Ascii.ascii) : bool :=
  isAlphaNum c || Ascii.eqb c "-" || Ascii.eqb c "_".


(** The three replacements of [base64UrlEncode], on text. *)
Definition encodeChars (t : string) : string :=
  removeChar "=" (replaceChar "/" "_" (replaceChar "+" "-" t)).

(** The two replacements of [base64UrlDecode]. *)
Definition decodeChars (u : string) : string :=
  replaceChar "_" "/" (replaceChar "-" "+" u).

End Js.

(** ** [backend/utils/jwt.js]: the access token *)
Module Jwt.
Import Js.

Section WithRuntime.
Context `{Runtime}.
Variable env : Env.

Definition SECRET : string :=
  orString (JWT_SECRET env) "change-this-secret-in-production".

Definition base64UrlEncode (str : string) : string :=
  removeChar "=" (replaceChar "/" "_" (replaceChar "+" "-" (bufferToBase64 str)))%char.

(** [while (base64.length % 4) base64 += '='], unrolled by [rounds]. *)
Fixpoint padLoop (rounds : nat) (base64 : string) : string :=
  match rounds with
  | O => base64
  | S rounds' =>
      if Nat.eqb (String.length base64 mod 4) 0 then base64
      else padLoop rounds' (base64 ++ "=")
  end.

(** The loop stops within three rounds. *)
Definition base64UrlDecode (str : string) : string :=
  let base64 := (replaceChar "_" "/" (replaceChar "-" "+" str))%char in
  bufferFromBase64 (padLoop 3 base64).

Definition createSignature (data : string) : string :=
  base64UrlEncode (hmacSha256Base64 SECRET data).

Definition header : Json :=
  JObj (<["alg" := JStr "HS256"]> (<["typ" := JStr "JWT"]> ∅)).

(** [{...payload, iat: now, exp: now + expiresIn}] *)
Definition claimsOf (payload : gmap string Json) (expiresIn now : Z)
  : gmap string Json :=
  <["exp" := JNum (now + expiresIn)]> (<["iat" := JNum now]> payload).

(** Lines 32-39: encode header and claims, sign, join. *)
Definition encodeAndSign (claims : Json) : string :=
  let encodedHeader := base64UrlEncode (JSON_stringify header) in
  let encodedPayload := base64UrlEncode (JSON_stringify claims) in
  let signature := createSignature (encodedHeader ++ "." ++ encodedPayload) in
  encodedHeader ++ "." ++ encodedPayload ++ "." ++ signature.

(** [now] is [Math.floor(Date.now() / 1000)]. *)
Definition generateAccessToken (payload : gmap string Json) (expiresIn : Z) (now : Z)
  : string :=
  encodeAndSign (JObj (claimsOf payload expiresIn now)).

(** The runtime behaves on [claims] as documented: [JSON.parse] inverts
    [JSON.stringify], base64 decoding inverts encoding, and the base64 texts
    made while signing have the base64 shape. *)
Definition runtimeSoundOn (claims : Json) : Prop :=
  let text := JSON_stringify claims in
  let encodedHeader := base64UrlEncode (JSON_stringify header) in
  let encodedPayload := base64UrlEncode text in
  JSON_parse text = Some claims /\
  bufferFromBase64 (bufferToBase64 text) = text /\
  wellFormedBase64 (bufferToBase64 text) = true /\
  wellFormedBase64 (bufferToBase64 (JSON_stringify header)) = true /\
  wellFormedBase64
    (bufferToBase64
       (hmacSha256Base64 SECRET (encodedHeader ++ "." ++ encodedPayload))) = true.

(** What [verifyAccessToken] writes with [console.error]. *)
Inductive ConsoleError :=
  | InvalidTokenSignature          (* 'Invalid token signature' *)
  | TokenExpired                   (* 'Token expired' *)
  | TokenVerificationError.        (* 'Token verification error:' ... *)

(** [payload.exp && payload.exp < now] *)
Definition expired (payload : Json) (now : Z) : bool :=
  truthy (prop payload "exp") &&
  match prop payload "exp" with
  | Some e => lessThan e now
  | None => false
  end.

(** The decoded payload, or [None] for [null]; with the line logged, if any. *)
Definition verifyAccessToken (token : string) (now : Z)
  : option Json * option ConsoleError :=
  if String.eqb token EmptyString then (None, None)
  else
    match split "."%char token with
    | [encodedHeader; encodedPayload; signature] =>
        let expectedSignature :=
          createSignature (encodedHeader ++ "." ++ encodedPayload) in
        if negb (String.eqb signature expectedSignature) then
          (None, Some InvalidTokenSignature)
        else
          match JSON_parse (base64UrlDecode encodedPayload) with
          | None => (None, Some TokenVerificationError)         (* SyntaxError *)
          | Some JNull => (None, Some TokenVerificationError)   (* TypeError *)
          | Some payload =>
              if expired payload now then (None, Some TokenExpired)
              else (Some payload, None)
          end
    | _ => (None, None)
    end.

End WithRuntime.
End Jwt.

(** ** [backend/middleware/validation.js] *)
Module Validation.
Import Js.

(** A response written with [res.status(...).json(...)]. *)
Inductive Body :=
  | BError (error : string) (message : option string)
  | BVerified (message accessToken downloadUrl : string)
      (blockchain : option Solana.Details)
  | BNotVerified (error : option string) (details : option Solana.Details)
  | BPaymentRequired (amount : float) (recipient contentId : string)
  | BPaymentSession (sessionId paymentUrl : string) (amount : float)
      (recipient : string)
  | BManualPayment (amount : float) (recipient contentId : string).

Record Response := { status : nat; body : Body }.

(** The body of [POST /api/payment/verify]. *)
Record VerifyRequest := {
  contentId : option string;
  transactionSignature : option string;
  payerWallet : option string
}.

Definition isHex (c : Ascii.ascii) : bool :=
  let n := Ascii.nat_of_ascii c in
  ((48 <=? n) && (n <=? 57) || (97 <=? n) && (n <=? 102)
   || (65 <=? n) && (n <=? 70))%nat.

(** [n] hexadecimal digits at the head of [s]; what follows them. *)
Fixpoint hexRun (n : nat) (s : string) : option string :=
  match n with
  | O => Some s
  | S n' =>
      match s with
      | String c s' => if isHex c then hexRun n' s' else None
      | EmptyString => None
      end
  end.

Definition dash (s : option string) : option string :=
  match s with
  | Some (String "-" s') => Some s'
  | _ => None
  end.

(** [/^[0-9a-f]{8}-[0-9a-f]{4}-[0-9a-f]{4}-[0-9a-f]{4}-[0-9a-f]{12}$/i] *)
Definition isValidUUID (uuid : string) : bool :=
  match dash (hexRun 8 uuid) ≫= hexRun 4 with
  | Some s1 =>
      match dash (Some s1) ≫= hexRun 4 with
      | Some s2 =>
          match dash (Some s2) ≫= hexRun 4 with
          | Some s3 =>
              match dash (Some s3) ≫= hexRun 12 with
              | Some EmptyString => true
              | _ => false
              end
          | None => false
          end
      | None => false
      end
  | None => false
  end.

(** The middleware [validateContentId], on [req.params.id]. *)
Definition validateContentId (id : option string) : option Response :=
  match id with
  | Some i =>
      if negb (String.eqb i EmptyString) && isValidUUID i then None
      else Some {| status := 400;
                   body := BError "Invalid content ID"
                             (Some "Content ID must be a valid UUID") |}
  | None => Some {| status := 400;
                    body := BError "Invalid content ID"
                              (Some "Content ID must be a valid UUID") |}
  end.

(** [[1-9A-HJ-NP-Za-km-z]] *)
Definition isBase58 (c : Ascii.ascii) : bool :=
  let n := Ascii.nat_of_ascii c in
  ((49 <=? n) && (n <=? 57)
   || (65 <=? n) && (n <=? 72) || (74 <=? n) && (n <=? 78)
   || (80 <=? n) && (n <=? 90)
   || (97 <=? n) && (n <=? 107) || (109 <=? n) && (n <=? 122))%nat.

(** [/^[1-9A-HJ-NP-Za-km-z]{87,88}$|^sim_/] *)
Definition signatureRegex (s : string) : bool :=
  allChars isBase58 s
    && ((String.length s =? 87) || (String.length s =? 88))%nat
  || startsWith s "sim_".

Definition badRequest (error message : string) : Response :=
  {| status := 400; body := BError error (Some message) |}.

Definition nonEmpty (v : option string) : option string :=
  match v with
  | Some s => if String.eqb s EmptyString then None else Some s
  | None => None
  end.

(** The middleware: [Some] response when it answers itself, [None] when it
    calls [next()]. [isValidSolanaAddress] is whether [new PublicKey(address)]
    succeeds. *)
Definition validatePaymentRequest (isValidSolanaAddress : string -> bool)
    (req : VerifyRequest) : option Response :=
  match nonEmpty (contentId req) with
  | None => Some (badRequest "Invalid content ID" "Content ID must be a valid UUID")
  | Some cid =>
      if negb (isValidUUID cid) then
        Some (badRequest "Invalid content ID" "Content ID must be a valid UUID")
      else
        match nonEmpty (transactionSignature req) with
        | None => Some (badRequest "Invalid transaction signature"
                          "Transaction signature is required")
        | Some sig =>
            if negb (signatureRegex sig) then
              Some (badRequest "Invalid transaction signature format"
                      "Transaction signature must be a valid Solana signature")
            else
              match nonEmpty (payerWallet req) with
              | Some w =>
                  if negb (isValidSolanaAddress w) then
                    Some (badRequest "Invalid payer wallet"
                            "Payer wallet must be a valid Solana address")
                  else None
              | None => None
              end
        end
  end.

End Validation.

(** ** The tables of [backend/db/schema.sql] and the statements run on them *)
Module Store.

(** [payment_logs.id]: given by the caller, or the column default
    [uuid_generate_v4()], here numbered by insertion. *)
Inductive RowId :=
  | GivenId (id : string)
  | GeneratedId (n : nat).

(** A row of [content], by the columns the payment core reads or writes.
    [price_usdc] is the number [parseFloat] makes of the DECIMAL column;
    [expires_at] is in milliseconds. *)
Record ContentRow := {
  price_usdc : float;
  creator_wallet : string;
  expires_at : option Z;
  views : Z;
  payments : Z
}.

Record PaymentLog := {
  id : RowId;
  content_id : string;
  payer_wallet : string;
  amount_usdc : float;
  transaction_signature : string;
  payment_status : string;
  paid_at : Z
}.

(** [content] by primary key; [payment_logs] in insertion order. The schema
    puts no uniqueness constraint on [transaction_signature]. *)
Record Db := {
  content : gmap string ContentRow;
  payment_logs : list PaymentLog
}.

Inductive Statement :=
  (** 'SELECT ... FROM content WHERE id = $1' *)
  | SelectContent (id : string)
  (** 'INSERT INTO payment_logs (content_id, payer_wallet, amount_usdc,
      transaction_signature, payment_status) VALUES ($1, $2, $3, $4, $5)' *)
  | InsertPaymentLog (content_id payer_wallet : string) (amount : float)
      (signature status : string)
  (** 'UPDATE content SET payments = payments + 1 WHERE id = $1' *)
  | UpdatePayments (id : string)
  (** prepared statement 'getPaymentBySignature' *)
  | GetPaymentBySignature (signature : string)
  (** prepared statement 'createPayment' (RETURNING the row) *)
  | CreatePayment (id content_id payer_wallet : string) (amount : float)
      (signature status : string)
  (** prepared statement 'updatePaymentCount' (RETURNING payments) *)
  | UpdatePaymentCount (id : string).

Inductive Rows :=
  | ContentRows (rows : list ContentRow)
  | PaymentRows (rows : list PaymentLog)
  | CountRows (rows : list Z).

(** INTEGER is 32 bits wide; PostgreSQL raises on overflow. *)
Definition INT_MAX : Z := 2147483647.

Definition validStatus (s : string) : bool :=
  String.eqb s "pending" || String.eqb s "completed" || String.eqb s "failed".

(** *** The column types of [schema.sql] *)

(** A text parameter: the server refuses a NUL character. *)
Definition noNul (s : string) : bool := Js.noChar "000" s.

(** The number of characters of a text in UTF-8: its bytes that are no
    continuation bytes. *)
Fixpoint characters (s : string) : nat :=
  match s with
  | EmptyString => O
  | String c s' =>
      let n := Ascii.nat_of_ascii c in
      ((if (128 <=? n) && (n <? 192) then 0 else 1) + characters s')%nat
  end.

(** VARCHAR(n): a text of more than [n] characters is refused. (When the
    characters past the [n]th are all spaces the server cuts them off
    instead; the strings of a request are trimmed before they reach a
    route, and that case is taken as refused here.) *)
Definition fitsVarchar (n : nat) (s : string) : bool :=
  noNul s && (characters s <=? n)%nat.

(** DECIMAL(10, 2): the number is sent as its shortest decimal text and
    rounded to two decimals; it is refused when it is infinite, or when the
    rounding reaches 10^8, which is from 99999999.995 on. NaN is a value of
    the type. *)
Definition fitsDecimal (x : float) : bool :=
  PrimFloat.is_nan x || PrimFloat.ltb (PrimFloat.abs x) 99999999.995%float.

(** UUID: sixteen bytes of two hexadecimal digits each, of either case; a
    hyphen may follow a byte of odd index other than the last, and braces
    may surround the whole. [uuidBytes] reads [left] bytes from index [i]
    on and returns their digits in lower case and what follows them. *)
Definition lowerHex (c : Ascii.ascii) : Ascii.ascii :=
  let n := Ascii.nat_of_ascii c in
  if (65 <=? n)%nat && (n <=? 70)%nat then Ascii.ascii_of_nat (n + 32) else c.

Fixpoint uuidBytes (left i : nat) (src : string) : option (string * string) :=
  match left with
  | O => Some (EmptyString, src)
  | S left' =>
      match src with
      | String a (String b rest) =>
          if Validation.isHex a && Validation.isHex b then
            let rest' :=
              match rest with
              | String "-" r => if Nat.odd i && (i <? 15)%nat then r else rest
              | _ => rest
              end in
            '(digits, tail) ← uuidBytes left' (S i) rest';
            Some (String (lowerHex a) (String (lowerHex b) digits), tail)
          else None
      | _ => None
      end
  end.

(** The text the server prints for a UUID: its 32 digits in groups of 8, 4,
    4, 4 and 12. *)
Definition uuidOut (digits : string) : string :=
  (String.substring 0 8 digits ++ "-" ++ String.substring 8 4 digits ++ "-"
   ++ String.substring 12 4 digits ++ "-" ++ String.substring 16 4 digits
   ++ "-" ++ String.substring 20 12 digits)%string.

(** A text parameter read as a UUID, in the server's print; [None] when the
    server refuses it. *)
Definition uuidIn (source : string) : option string :=
  let '(braces, src) :=
    match source with
    | String "{" r => (true, r)
    | _ => (false, source)
    end in
  '(digits, tail) ← uuidBytes 16 0 src;
  if String.eqb tail (if braces then "}" else EmptyString)
  then Some (uuidOut digits) else None.

(** The primary key a row gets: a given id as the server reads it. *)
Definition uuidOf (rid : RowId) : option RowId :=
  match rid with
  | GivenId source => GivenId <$> uuidIn source
  | GeneratedId n => Some (GeneratedId n)
  end.

Definition RowId_eqb (a b : RowId) : bool :=
  match a, b with
  | GivenId x, GivenId y => String.eqb x y
  | GeneratedId n, GeneratedId m => Nat.eqb n m
  | _, _ => false
  end.

(** Whether [rid] is already a primary key; a generated id is fresh. *)
Definition duplicateKey (rid : RowId) (db : Db) : bool :=
  match rid with
  | GivenId _ => existsb (fun r => RowId_eqb (id r) rid) (payment_logs db)
  | GeneratedId _ => false
  end.

(** The parameters fit the columns [payer_wallet VARCHAR(100)],
    [amount_usdc DECIMAL(10, 2)] and [transaction_signature VARCHAR(255)]. *)
Definition fitsColumns (payer : string) (amount : float) (signature : string)
  : bool :=
  fitsVarchar 100 payer && fitsDecimal amount && fitsVarchar 255 signature.

(** INSERT INTO payment_logs: fails on parameters that do not fit their
    columns, an id that is no UUID, a duplicate primary key, a content id
    that references no row, or a status outside the CHECK. [amount_usdc] is
    the number that was sent. *)
Definition insertPayment (rid : RowId) (cid payer : string) (amount : float)
    (signature status : string) (now : Z) (db : Db) : option (PaymentLog * Db) :=
  if negb (fitsColumns payer amount signature) then None
  else
    match uuidOf rid with
    | None => None
    | Some key =>
        let row := {| id := key; content_id := cid; payer_wallet := payer;
                      amount_usdc := amount; transaction_signature := signature;
                      payment_status := status; paid_at := now |} in
        if duplicateKey key db then None
        else if negb (bool_decide (is_Some (content db !! cid))) then None
        else if negb (validStatus status) then None
        else Some (row, {| content := content db;
                           payment_logs := payment_logs db ++ [row] |})
    end.

(** UPDATE content SET payments = payments + 1 WHERE id = $1: the new count,
    if a row matched. *)
Definition incrementPayments (cid : string) (db : Db) : option (list Z * Db) :=
  match content db !! cid with
  | None => Some ([], db)
  | Some row =>
      if (payments row + 1 >? INT_MAX)%Z then None
      else
        let row' := {| price_usdc := price_usdc row;
                       creator_wallet := creator_wallet row;
                       expires_at := expires_at row;
                       views := views row;
                       payments := payments row + 1 |} in
        Some ([(payments row + 1)%Z],
              {| content := <[cid := row']> (content db);
                 payment_logs := payment_logs db |})
  end.

(** [row.expires_at && new Date(row.expires_at) < new Date()] *)
Definition contentExpired (row : ContentRow) (now : Z) : bool :=
  match expires_at row with
  | Some t => (t <? now)%Z
  | None => false
  end.

(** One statement on a database at time [now]; [None] when it raises. *)
Definition exec (now : Z) (stmt : Statement) (db : Db) : option (Rows * Db) :=
  match stmt with
  | SelectContent cid =>
      Some (ContentRows (option_list (content db !! cid)), db)
  | InsertPaymentLog cid payer amount signature status =>
      '(row, db') ← insertPayment (GeneratedId (length (payment_logs db)))
                      cid payer amount signature status now db;
      Some (PaymentRows [], db')
  | UpdatePayments cid =>
      '(_, db') ← incrementPayments cid db;
      Some (CountRows [], db')
  | GetPaymentBySignature signature =>
      Some (PaymentRows
              (filter (fun r => transaction_signature r = signature)
                 (payment_logs db)), db)
  | CreatePayment rid cid payer amount signature status =>
      '(row, db') ← insertPayment (GivenId rid) cid payer amount signature
                      status now db;
      Some (PaymentRows [row], db')
  | UpdatePaymentCount cid =>
      '(counts, db') ← incrementPayments cid db;
      Some (CountRows counts, db')
  end.

End Store.

(** ** Effects: the database server, the drivers' failures, the ledger, the
    clock and the cache, threaded through the asynchronous code *)
Module Effects.
Import Store.

(** A reply of the x402 facilitator to [POST /verify]: the request throws, or
    answers with [data]. *)
Inductive FacilitatorReply :=
  | FacThrow
  | FacData (verified : bool) (signature : string) (payerWallet : option string)
      (amount : float).

Record World := {
  (** the committed state of the database *)
  committed : Db;
  (** the open transaction of the checked-out client: its view of the data *)
  session : option Db;
  (** for each coming call of the database driver, whether it fails *)
  faults : list bool;
  (** the Solana connection singleton *)
  connection : Solana.Connection;
  (** the x402 facilitator, by payment proof *)
  facilitator : string -> FacilitatorReply;
  (** the facilitator's payment sessions, by content id: session id and
      payment URL, or none when the request fails *)
  paymentSession : string -> option (string * string);
  (** [Date.now()], in milliseconds *)
  clock : Z;
  (** the keys held by the cache *)
  cached : gset string
}.

Inductive Outcome (A : Type) :=
  | Ok (a : A)
  | Throw (message : string).
Arguments Ok {A} a.
Arguments Throw {A} message.

Definition M (A : Type) : Type := World -> Outcome A * World.

#[export] Instance M_ret : MRet M := fun A a w => (Ok a, w).
#[export] Instance M_bind : MBind M := fun A B k m w =>
  match m w with
  | (Ok a, w') => k a w'
  | (Throw e, w') => (Throw e, w')
  end.

Definition throw {A} (message : string) : M A := fun w => (Throw message, w).

(** [try { m } catch (e) { h e }] *)
Definition tryCatch {A} (m : M A) (h : string -> M A) : M A := fun w =>
  match m w with
  | (Ok a, w') => (Ok a, w')
  | (Throw e, w') => h e w'
  end.

Definition setDb (w : World) (c : Db) (s : option Db) (f : list bool) : World :=
  {| committed := c; session := s; faults := f; connection := connection w;
     facilitator := facilitator w; paymentSession := paymentSession w;
     clock := clock w; cached := cached w |}.

(** The next call of the driver: does it fail? *)
Definition driverCall : M unit := fun w =>
  match faults w with
  | true :: f => (Throw "driver error", setDb w (committed w) (session w) f)
  | false :: f => (Ok (), setDb w (committed w) (session w) f)
  | [] => (Ok (), w)
  end.

(** [pool.connect()] *)
Definition poolConnect : M unit := driverCall.

(** Who runs a statement: the pool (each statement commits on its own) or the
    client checked out by [transaction]. *)
Inductive QueryClient := Pool | Client.

(** The server's part of [queryClient.query(text, params)]: inside the
    client's open transaction the statement acts on the transaction's view,
    otherwise on the committed state. *)
Definition runStatement (c : QueryClient) (stmt : Statement) : M Rows := fun w =>
  match c, session w with
  | Client, Some view =>
      match exec (clock w) stmt view with
      | Some (rows, view') =>
          (Ok rows, setDb w (committed w) (Some view') (faults w))
      | None => (Throw "statement failed", w)
      end
  | _, _ =>
      match exec (clock w) stmt (committed w) with
      | Some (rows, db') => (Ok rows, setDb w db' (session w) (faults w))
      | None => (Throw "statement failed", w)
      end
  end.

(** [queryClient.query(text, params)] *)
Definition clientQuery (c : QueryClient) (stmt : Statement) : M Rows :=
  driverCall;; runStatement c stmt.

Definition openSession : M unit := fun w =>
  (Ok (), setDb w (committed w) (Some (committed w)) (faults w)).

Definition commitSession : M unit := fun w =>
  match session w with
  | Some view => (Ok (), setDb w view None (faults w))
  | None => (Ok (), w)
  end.

Definition dropSession : M unit := fun w =>
  (Ok (), setDb w (committed w) None (faults w)).

(** [client.query('BEGIN')], ['COMMIT'] and ['ROLLBACK'] *)
Definition clientBegin : M unit := driverCall;; openSession.
Definition clientCommit : M unit := driverCall;; commitSession.
Definition clientRollback : M unit := driverCall;; dropSession.

(** [Date.now()] *)
Definition dateNow : M Z := fun w => (Ok (clock w), w).

(** [cache.del(key)]: never throws. *)
Definition cacheDel (key : string) : M unit := fun w =>
  (Ok (),
   {| committed := committed w; session := session w; faults := faults w;
      connection := connection w; facilitator := facilitator w;
      paymentSession := paymentSession w;
      clock := clock w; cached := cached w ∖ {[ key ]} |}).

(** A call of [verifySolanaTransaction] on the connection singleton. *)
Definition onLedger (f : Solana.Connection -> Solana.VerificationResult * Solana.Connection)
  : M Solana.VerificationResult := fun w =>
  let '(r, c) := f (connection w) in
  (Ok r,
   {| committed := committed w; session := session w; faults := faults w;
      connection := c; facilitator := facilitator w;
      paymentSession := paymentSession w;
      clock := clock w; cached := cached w |}).

(** [axios.post(FACILITATOR_URL + '/verify', {proof, ...})] *)
Definition askFacilitator (proof : string) : M FacilitatorReply := fun w =>
  (Ok (facilitator w proof), w).

(** [axios.post(FACILITATOR_URL + '/create-payment', paymentRequest)] *)
Definition createSession (contentId : string) : M (option (string * string)) :=
  fun w => (Ok (paymentSession w contentId), w).

(** The same server with another schedule of driver failures. *)
Definition withFaults (w : World) (f : list bool) : World :=
  setDb w (committed w) (session w) f.

(** What the statements of a client depend on: the committed data, the open
    transaction's view, and the time. *)
Definition dbView (w : World) : Db * option Db * Z :=
  (committed w, session w, clock w).

(** [query] of [backend/db/index.js]: connect, run, release. *)
Definition query (stmt : Statement) : M Rows :=
  poolConnect;; clientQuery Pool stmt.

End Effects.

(** ** The pooled database manager ([DatabaseManager]) *)
Module DatabaseManager.
Import Store Effects.

(** The argument of [createPayment]. *)
Record PaymentData := {
  id : string;
  contentId : string;
  payerWallet : string;
  amountUsdc : float;
  transactionSignature : string;
  paymentStatus : string
}.

(** The retry loop of [query]: [attempts] more tries, the last error
    rethrown when none is left. (Logging and the back-off delay leave no
    trace in the state.) *)
Fixpoint queryAttempts (attempts : nat) (queryClient : QueryClient)
    (stmt : Statement) (lastError : string) : M Rows :=
  match attempts with
  | O => throw lastError
  | S attempts' =>
      tryCatch (clientQuery queryClient stmt)
               (fun error => queryAttempts attempts' queryClient stmt error)
  end.

(** [query(text, params, { client })] with the default [retries = 2] and no
    caching; [queryClient = client || this.pool]. *)
Definition query (stmt : Statement) (client : option QueryClient) : M Rows :=
  queryAttempts 3 (default Pool client) stmt EmptyString.

(** [executePrepared(name, params)] for a statement that was prepared. *)
Definition executePrepared (stmt : Statement) : M Rows := query stmt None.

(** [transaction(callback)] *)
Definition transaction {A} (callback : QueryClient -> M A) : M A :=
  poolConnect;;
  tryCatch
    (clientBegin;;
     result ← callback Client;
     clientCommit;;
     mret result)
    (fun error => clientRollback;; throw error).

Definition firstPayment (rows : Rows) : option PaymentLog :=
  match rows with
  | PaymentRows (row :: _) => Some row
  | _ => None
  end.

(** [createPayment(paymentData)]: "Create payment with duplicate check". *)
Definition createPayment (paymentData : PaymentData) : M (option PaymentLog) :=
  existing ← executePrepared (GetPaymentBySignature (transactionSignature paymentData));
  match firstPayment existing with
  | Some row => mret (Some row)
  | None =>
      transaction (fun client =>
        payment ← query (CreatePayment (id paymentData) (contentId paymentData)
                           (payerWallet paymentData) (amountUsdc paymentData)
                           (transactionSignature paymentData)
                           (paymentStatus paymentData))
                        (Some client);
        query (UpdatePaymentCount (contentId paymentData)) (Some client);;
        cacheDel ("content:" ++ contentId paymentData);;
        cacheDel ("content:stats:" ++ contentId paymentData);;
        mret (firstPayment payment))
  end.


(** The rows of [db] that carry the signature of [paymentData]. *)
Definition sameSignature (paymentData : PaymentData) (db : Db) : list PaymentLog :=
  filter (fun r => transaction_signature r = transactionSignature paymentData)
    (payment_logs db).

(** [db'] is [db] after the insert of [row] for [paymentData] at time [t] and
    the counter update, both. *)
Definition recorded (paymentData : PaymentData) (t : Z) (db : Db)
    (row : PaymentLog) (db' : Db) : Prop :=
  exists db1 counts,
    insertPayment (GivenId (id paymentData)) (contentId paymentData)
      (payerWallet paymentData) (amountUsdc paymentData)
      (transactionSignature paymentData) (paymentStatus paymentData) t db
    = Some (row, db1) /\
    incrementPayments (contentId paymentData) db1 = Some (counts, db').

End DatabaseManager.

(** ** [backend/routes/payment.js]: POST /api/payment/verify *)
Module PaymentRoute.
Import Js Validation Store Effects.

Section WithRuntime.
Context `{Runtime}.
Variable env : Env.
Variable isValidSolanaAddress : string -> bool.

(** The payload of the access token. *)
Definition tokenPayload (contentId transactionSignature : string)
    (payerWallet : option string) : gmap string Json :=
  <["contentId" := JStr contentId]>
  (<["signature" := JStr transactionSignature]>
  (<["payerWallet" := JStr (orString payerWallet "unknown")]>
  (<["type" := JStr "payment"]> ∅))).

(** A template literal prints an unset variable as "undefined". *)
Definition downloadUrl (contentId accessToken : string) : string :=
  default "undefined" (FRONTEND_URL env) ++ "/" ++ contentId
    ++ "?payment=" ++ accessToken.

(** Lines 141-167 and 199-226: log the payment, count it, mint the token. *)
Definition recordAndGrant (contentId transactionSignature : string)
    (payerWallet : option string) (expectedAmount : float)
    (message : string) (blockchain : option Solana.Details) : M Response :=
  query (InsertPaymentLog contentId (orString payerWallet "unknown")
           expectedAmount transactionSignature "completed");;
  query (UpdatePayments contentId);;
  now ← dateNow;
  let accessToken :=
    Jwt.generateAccessToken env
      (tokenPayload contentId transactionSignature payerWallet)
      (7 * 24 * 60 * 60) (now / 1000) in
  mret {| status := 200;
          body := BVerified message accessToken
                    (downloadUrl contentId accessToken) blockchain |}.

(** The handler of the route, after the middleware. *)
Definition verifyHandler (req : VerifyRequest) : M Response :=
  tryCatch
    (match nonEmpty (contentId req), nonEmpty (transactionSignature req) with
     | Some contentId, Some transactionSignature =>
         contentResult ← query (SelectContent contentId);
         match contentResult with
         | ContentRows (row :: _) =>
             let expectedAmount := price_usdc row in
             let creatorWallet := creator_wallet row in
             let isSimulatedTx := startsWith transactionSignature "sim_" in
             if isSimulatedTx then
               (* Development mode: accept simulated transactions *)
               recordAndGrant contentId transactionSignature (payerWallet req)
                 expectedAmount
                 "Payment verified successfully (development mode)" None
             else
               (* Production mode: verify real Solana transaction on mainnet *)
               verificationResult ←
                 onLedger (fun connection =>
                   Solana.verifySolanaTransaction connection
                     transactionSignature creatorWallet expectedAmount);
               if negb (Solana.verified verificationResult) then
                 mret {| status := 402;
                         body := BNotVerified (Solana.error verificationResult)
                                   (Solana.details verificationResult) |}
               else
                 recordAndGrant contentId transactionSignature (payerWallet req)
                   expectedAmount
                   "Payment verified successfully on Solana mainnet"
                   (Solana.details verificationResult)
         | _ =>
             mret {| status := 404; body := BError "Content not found" None |}
         end
     | _, _ =>
         mret {| status := 400;
                 body := BError "Content ID and transaction signature are required"
                           None |}
     end)
    (fun error =>
       mret {| status := 500;
               body := BError "Failed to verify payment" (Some error) |}).

(** The handler of POST /api/payment/initiate, after the middleware:
    [contentId] is [req.body.contentId || req.params.id]. *)
Definition initiateHandler (contentId : string) : M Response :=
  tryCatch
    (result ← query (SelectContent contentId);
     match result with
     | ContentRows (content :: _) =>
         now ← dateNow;
         if contentExpired content now then
           mret {| status := 410; body := BError "Content has expired" None |}
         else
           session ← createSession contentId;
           match session with
           | Some (sessionId, paymentUrl) =>
               mret {| status := 200;
                       body := BPaymentSession sessionId paymentUrl
                                 (price_usdc content) (creator_wallet content) |}
           | None =>
               mret {| status := 200;
                       body := BManualPayment (price_usdc content)
                                 (creator_wallet content) contentId |}
           end
     | _ =>
         mret {| status := 404; body := BError "Content not found" None |}
     end)
    (fun error =>
       mret {| status := 500;
               body := BError "Failed to initiate payment" (Some error) |}).

(** [router.post('/initiate', validateContentId, handler)], with
    [req.params.id] and [req.body.contentId]. *)
Definition initiate (paramsId bodyContentId : option string) : M Response :=
  match validateContentId paramsId with
  | Some response => mret response
  | None => initiateHandler (orString bodyContentId (default EmptyString paramsId))
  end.

(** [router.post('/verify', validatePaymentRequest, handler)] *)
Definition verify (req : VerifyRequest) : M Response :=
  match validatePaymentRequest isValidSolanaAddress req with
  | Some response => mret response
  | None => verifyHandler req
  end.

(** A request that passed the middleware, on a server whose driver does not
    fail: [cid] and [sig] are its content id and its signature. *)
Definition accepted (req : VerifyRequest) (cid sig : string) (w : World) : Prop :=
  validatePaymentRequest isValidSolanaAddress req = None /\
  nonEmpty (Validation.contentId req) = Some cid /\
  nonEmpty (transactionSignature req) = Some sig /\
  faults w = [].

End WithRuntime.

(** The row [recordAndGrant] inserts. *)
Definition loggedPayment (contentId signature : string) (payerWallet : option string)
    (amount : float) (w : World) : PaymentLog :=
  {| id := GeneratedId (length (payment_logs (committed w)));
     content_id := contentId;
     payer_wallet := orString payerWallet "unknown";
     amount_usdc := amount;
     transaction_signature := signature;
     payment_status := "completed";
     paid_at := clock w |}.

Definition counted (row : ContentRow) : ContentRow :=
  {| price_usdc := price_usdc row; creator_wallet := creator_wallet row;
     expires_at := expires_at row; views := views row;
     payments := payments row + 1 |}.

End PaymentRoute.

(** ** [backend/middleware/x402.js]: the payment gate *)
Module X402.
Import Js Validation Store Effects.

Section WithRuntime.
Context `{Runtime}.
Variable env : Env.

(** [logPayment]: failures are logged and swallowed. *)
Definition logPayment (contentId : string) (signature : string)
    (payerWallet : option string) (amount : float) : M unit :=
  tryCatch
    (query (InsertPaymentLog contentId (orString payerWallet "unknown") amount
              signature "completed");;
     query (UpdatePayments contentId);;
     mret ())
    (fun _ => mret ()).

(** [verifyX402Payment]: the legacy check through the facilitator. *)
Definition verifyX402Payment (paymentProof contentId : string)
    (expectedAmount : float) : M bool :=
  reply ← askFacilitator paymentProof;
  match reply with
  | FacData true signature payerWallet amount =>
      logPayment contentId signature payerWallet amount;;
      mret true
  | _ => mret false
  end.

(** The test of line 113 on what [verifyAccessToken] returned:
    [tokenPayload && tokenPayload.contentId === contentId
     && tokenPayload.type === 'payment']. *)
Definition tokenGrants (tokenPayload : option Json) (contentId : string) : bool :=
  match tokenPayload with
  | Some payload =>
      truthy (Some payload)
      && strictEqString (prop payload "contentId") contentId
      && strictEqString (prop payload "type") "payment"
  | None => false
  end.

(** How the gate lets a request through or answers it. *)
Inductive GateResult :=
  | Next (payment : option Json)
  | Respond (response : Response).

Definition paymentRequired (contentId : string) (row : ContentRow) : GateResult :=
  Respond {| status := 402;
             body := BPaymentRequired (price_usdc row) (creator_wallet row)
                       contentId |}.

(** [paymentProof] is [req.headers['x-payment-proof'] || req.query.payment]. *)
Definition x402PaymentGate (contentId : string) (paymentProof : option string)
  : M GateResult :=
  tryCatch
    (result ← query (SelectContent contentId);
     match result with
     | ContentRows (content :: _) =>
         now ← dateNow;
         if contentExpired content now then
           mret (Respond {| status := 410;
                            body := BError "Content has expired" None |})
         else
           match nonEmpty paymentProof with
           | Some proof =>
               let tokenPayload := (Jwt.verifyAccessToken env proof (now / 1000)).1 in
               if tokenGrants tokenPayload contentId then
                 mret (Next tokenPayload)
               else
                 isValid ← verifyX402Payment proof contentId (price_usdc content);
                 if isValid : bool then mret (Next None)
                 else mret (paymentRequired contentId content)
           | None => mret (paymentRequired contentId content)
           end
     | _ =>
         mret (Respond {| status := 404; body := BError "Content not found" None |})
     end)
    (fun _ =>
       mret (Respond {| status := 500;
                        body := BError "Payment processing error" None |})).

End WithRuntime.
(** The design document's expiry test: [now > claims.expiresAt]. *)
Definition expiryPassed (claims : Json) (now : Z) : bool :=
  match prop claims "exp" with
  | Some (JNum e) => (e <? now)%Z
  | _ => false
  end.

End X402.

(** ** A model of the runtime's primitives

    Enough of Node's [Buffer], [JSON] and keyed digest to run the token code
    on concrete inputs. Base64 is the standard one; [JSON] covers strings
    (the double quote and the backslash escaped), integers, booleans, [null],
    arrays and objects, without white space; [keyedDigest] stands in for HMAC-SHA256 (a
    32-bit FNV-1a checksum of key and data): no statement below depends on
    which digest it is. *)
Module NodeRuntime.
Import Js.

Definition alphabet : list Ascii.ascii :=
  String.list_ascii_of_string
    "ABCDEFGHIJKLMNOPQRSTUVWXYZabcdefghijklmnopqrstuvwxyz0123456789+/".

Definition sextet (n : N) : Ascii.ascii :=
  nth (N.to_nat n) alphabet "="%char.

Fixpoint encode (bytes : list N) : list Ascii.ascii :=
  match bytes with
  | [] => []
  | [a] =>
      [sextet (a / 4); sextet ((a mod 4) * 16); "="; "="]%char%N
  | [a; b] =>
      [sextet (a / 4); sextet ((a mod 4) * 16 + b / 16);
       sextet ((b mod 16) * 4); "="%char]%N
  | a :: b :: c :: rest =>
      [sextet (a / 4); sextet ((a mod 4) * 16 + b / 16);
       sextet ((b mod 16) * 4 + c / 64); sextet (c mod 64)]%N ++ encode rest
  end.

Fixpoint indexOf (c : Ascii.ascii) (l : list Ascii.ascii) (i : N) : option N :=
  match l with
  | [] => None
  | x :: l' => if Ascii.eqb x c then Some i else indexOf c l' (i + 1)%N
  end.

(** The sextets of a base64 text; padding and foreign characters are skipped. *)
Definition sextets (s : list Ascii.ascii) : list N :=
  omap (fun c => indexOf c alphabet 0) s.

Fixpoint decode (s : list N) : list N :=
  match s with
  | a :: b :: c :: d :: rest =>
      [a * 4 + b / 16; (b mod 16) * 16 + c / 4; (c mod 4) * 64 + d]%N ++ decode rest
  | [a; b; c] => [a * 4 + b / 16; (b mod 16) * 16 + c / 4]%N
  | [a; b] => [a * 4 + b / 16]%N
  | _ => []
  end.

Definition bytesOf (s : string) : list N :=
  map N_of_ascii (String.list_ascii_of_string s).
Definition stringOf (bytes : list N) : string :=
  String.string_of_list_ascii (map ascii_of_N bytes).

Definition toBase64 (s : string) : string :=
  String.string_of_list_ascii (encode (bytesOf s)).
Definition fromBase64 (s : string) : string :=
  stringOf (decode (sextets (String.list_ascii_of_string s))).

(** *** JSON text *)

Local Open Scope string_scope.

Definition dquote : Ascii.ascii := ascii_of_nat 34.
Definition backslash : Ascii.ascii := ascii_of_nat 92.

Definition quote (s : string) : string :=
  let escape c :=
    if Ascii.eqb c dquote || Ascii.eqb c backslash
    then [backslash; c] else [c] in
  String dquote (String.string_of_list_ascii (mbind escape (String.list_ascii_of_string s))
                 ++ String dquote EmptyString).

Definition joinWith (sep : string) (l : list string) : string :=
  match l with
  | [] => EmptyString
  | x :: l' => foldl (fun acc y : string => acc ++ sep ++ y) x l'
  end.

Fixpoint stringifyTo (depth : nat) (j : Json) : string :=
  match depth with
  | O => "null"
  | S depth' =>
      match j with
      | JNull => "null"
      | JBool b => if b then "true" else "false"
      | JNum n => pretty n
      | JStr s => quote s
      | JArr l => "[" ++ joinWith "," (map (stringifyTo depth') l) ++ "]"
      | JObj o =>
          "{" ++ joinWith ","
                   (map (fun kv => quote kv.1 ++ ":" ++ stringifyTo depth' kv.2)
                      (map_to_list o)) ++ "}"
      end
  end.

Definition stringify (j : Json) : string := stringifyTo 16 j.

Definition isDigit (c : Ascii.ascii) : bool :=
  let n := nat_of_ascii c in ((48 <=? n) && (n <=? 57))%nat.

(** The characters of a string literal after its opening quote. *)
Fixpoint readString (s : list Ascii.ascii) (acc : list Ascii.ascii)
  : option (string * list Ascii.ascii) :=
  match s with
  | [] => None
  | c :: s' =>
      if Ascii.eqb c dquote then Some (String.string_of_list_ascii (reverse acc), s')
      else if Ascii.eqb c backslash then
        match s' with
        | e :: s'' => readString s'' (e :: acc)
        | [] => None
        end
      else readString s' (c :: acc)
  end.

Fixpoint readDigits (s : list Ascii.ascii) (acc : Z) : Z * list Ascii.ascii :=
  match s with
  | c :: s' =>
      if isDigit c then readDigits s' (acc * 10 + Z.of_nat (nat_of_ascii c) - 48)%Z
      else (acc, s)
  | [] => (acc, s)
  end.

Definition readWord (w : string) (s : list Ascii.ascii) : option (list Ascii.ascii) :=
  let l := String.list_ascii_of_string w in
  if bool_decide (take (length l) s = l) then Some (drop (length l) s) else None.

Fixpoint readValue (fuel : nat) (s : list Ascii.ascii)
  : option (Json * list Ascii.ascii) :=
  match fuel with
  | O => None
  | S fuel' =>
      let readItems :=
        fix items (n : nat) (s : list Ascii.ascii) (acc : list Json) :=
          match n with
          | O => None
          | S n' =>
              '(v, s1) ← readValue fuel' s;
              match s1 with
              | c :: s2 =>
                  if Ascii.eqb c ","%char then items n' s2 (v :: acc)
                  else if Ascii.eqb c "]"%char then Some (JArr (reverse (v :: acc)), s2)
                  else None
              | [] => None
              end
          end in
      let readMembers :=
        fix members (n : nat) (s : list Ascii.ascii) (acc : gmap string Json) :=
          match n with
          | O => None
          | S n' =>
              match s with
              | q :: s0 =>
                  if Ascii.eqb q dquote then
                    '(k, s1) ← readString s0 [];
                    match s1 with
                    | colon :: s2 =>
                        if Ascii.eqb colon ":"%char then
                          '(v, s3) ← readValue fuel' s2;
                          match s3 with
                          | c :: s4 =>
                              if Ascii.eqb c ","%char
                              then members n' s4 (<[k := v]> acc)
                              else if Ascii.eqb c "}"%char
                              then Some (JObj (<[k := v]> acc), s4)
                              else None
                          | [] => None
                          end
                        else None
                    | [] => None
                    end
                  else None
              | [] => None
              end
          end in
      match s with
      | [] => None
      | c :: s' =>
          if Ascii.eqb c dquote then
            '(str, rest) ← readString s' []; Some (JStr str, rest)
          else if Ascii.eqb c "["%char then
            match s' with
            | c' :: s'' =>
                if Ascii.eqb c' "]"%char then Some (JArr [], s'')
                else readItems (length s') s' []
            | [] => None
            end
          else if Ascii.eqb c "{"%char then
            match s' with
            | c' :: s'' =>
                if Ascii.eqb c' "}"%char then Some (JObj ∅, s'')
                else readMembers (length s') s' ∅
            | [] => None
            end
          else if Ascii.eqb c "-"%char then
            match s' with
            | d :: _ =>
                if isDigit d then
                  let '(n, rest) := readDigits s' 0 in Some (JNum (- n), rest)
                else None
            | [] => None
            end
          else if isDigit c then
            let '(n, rest) := readDigits s 0 in Some (JNum n, rest)
          else
            match readWord "true" s, readWord "false" s, readWord "null" s with
            | Some rest, _, _ => Some (JBool true, rest)
            | _, Some rest, _ => Some (JBool false, rest)
            | _, _, Some rest => Some (JNull, rest)
            | _, _, _ => None
            end
      end
  end.

Definition parse (text : string) : option Json :=
  match readValue (S (String.length text)) (String.list_ascii_of_string text) with
  | Some (v, []) => Some v
  | _ => None
  end.

(** *** The keyed digest *)

Definition fnv1a (bytes : list N) : N :=
  foldl (fun h b => (N.lxor h b * 16777619) mod 4294967296)%N 2166136261%N bytes.

Definition keyedDigest (key data : string) : string :=
  let h := fnv1a (bytesOf key ++ [0%N] ++ bytesOf data)%list in
  toBase64 (stringOf [h / 16777216; (h / 65536) mod 256; (h / 256) mod 256;
                      h mod 256]%N).

Definition runtime : Runtime := {|
  hmacSha256Base64 := keyedDigest;
  bufferToBase64 := toBase64;
  bufferFromBase64 := fromBase64;
  JSON_stringify := stringify;
  JSON_parse := parse;
  lessThanCoerced := fun _ _ => false
|}.

End NodeRuntime.

(** ** Sample data for the request handlers *)
Module Samples.
Import Js Validation Store Effects.
Local Open Scope float_scope.

Definition contentId : string := "3f2b8c1e-5d4a-4e6f-9a7b-0c1d2e3f4a5b".

(** A listing priced at 1.00 USDC, with or without an expiry. *)
Definition listing (expires : option Z) : ContentRow :=
  {| price_usdc := 1; creator_wallet := "Creator"; expires_at := expires;
     views := 0; payments := 0 |}.

(** A server holding one listing and no payment, whose ledger knows no
    transaction, at a time in November 2023. *)
Definition world (row : ContentRow) (driverFaults : list bool) : World :=
  {| committed := {| content := {[ contentId := row ]}; payment_logs := [] |};
     session := None;
     faults := driverFaults;
     connection := {| Solana.ledger := fun _ => Solana.RpcValue None;
                      Solana.requests := [] |};
     facilitator := fun _ => FacThrow;
     paymentSession := fun _ => None;
     clock := 1700000000000;
     cached := ∅ |}.

(** A well-formed transaction signature, and a server whose ledger holds
    under it a successful transfer of 1.00 USDC to the listing's creator. *)
Definition paidSignature : string :=
  "5VERv8NMvzbJMEkV8xnrLkEaWRtSz9CosKDYjCJjBRnbJLgp8uirBgmQpjKhoR4tjF3ZpRzrFmBV6UjKdiSZkQUW".

Definition paidWorld (row : ContentRow) (driverFaults : list bool) : World :=
  {| committed := {| content := {[ contentId := row ]}; payment_logs := [] |};
     session := None;
     faults := driverFaults;
     connection :=
       {| Solana.ledger := fun signature =>
            if String.eqb signature paidSignature
            then Solana.RpcValue
                   (Some (SolanaSamples.sampleTx None 1 ["Payer"; "Creator"]))
            else Solana.RpcValue None;
          Solana.requests := [] |};
     facilitator := fun _ => FacThrow;
     paymentSession := fun _ => None;
     clock := 1700000000000;
     cached := ∅ |}.

Definition request (signature : string) : VerifyRequest :=
  {| Validation.contentId := Some contentId;
     transactionSignature := Some signature;
     payerWallet := None |}.

(** The ids of two rows of [payment_logs]. *)
Definition paymentId : string := "7d0a5a3e-2f64-4c1b-9a55-0e6f1b2c3d41".
Definition otherPaymentId : string := "7d0a5a3e-2f64-4c1b-9a55-0e6f1b2c3d42".

(** A wallet check that lets every address pass. *)
Definition anyAddress (address : string) : bool := true.

(** The argument [createPayment] gets for a payment of the sample listing. *)
Definition paymentData (rowId signature : string) : DatabaseManager.PaymentData :=
  {| DatabaseManager.id := rowId;
     DatabaseManager.contentId := contentId;
     DatabaseManager.payerWallet := "Payer";
     DatabaseManager.amountUsdc := 1;
     DatabaseManager.transactionSignature := signature;
     DatabaseManager.paymentStatus := "completed" |}.

(** An environment flagged as production. *)
Definition production : Env :=
  {| NODE_ENV := Some "production"; JWT_SECRET := Some "s3cret";
     FRONTEND_URL := Some "https://paywall402.xyz" |}.

(** What a test would read off a handler's result: the status answered, the
    rows of [payment_logs], the listing's payment count, and the signatures
    asked of the ledger. *)
Definition observe (r : Outcome Response * World)
  : option nat * list PaymentLog * option Z * list string :=
  (match r.1 with Ok response => Some (status response) | Throw _ => None end,
   payment_logs (committed r.2),
   payments <$> content (committed r.2) !! contentId,
   Solana.requests (connection r.2)).


(** The payload of the token granted for the sample listing. *)
Definition samplePayload : gmap string Json :=
  PaymentRoute.tokenPayload contentId "sim_demo" None.

(** Claims signed with the server's secret that carry no [exp]. *)
Definition claimsWithoutExp : gmap string Json :=
  <["iat" := JNum 1700000000]> samplePayload.

(** Claims signed with the server's secret whose [exp] is the epoch. *)
Definition claimsExpiredAtEpoch : gmap string Json :=
  <["exp" := JNum 0]> samplePayload.

End Samples.

(** ** Vocabulary for reading verdicts, tokens and handler runs *)

(** Balances the transaction verifier passes over. *)
Module Verdicts.
Import Solana.


End Verdicts.

(** The shape of the texts the validators and the token code deal in. *)
Module Shapes.
Import Js Validation.

(** The characters of a token: the base64url alphabet and the separator. *)
Definition isTokenChar (c : Ascii.ascii) : bool :=
  isBase64UrlChar c || Ascii.eqb c ".".

(** A group of [n] hexadecimal digits. *)
Definition hexGroup (n : nat) (h : string) : Prop :=
  String.length h = n /\ allChars isHex h = true.

End Shapes.

(** What the request handlers leave behind. *)
Module Handlers.
Import Js Validation Store Effects PaymentRoute.
Local Open Scope string_scope.

(** What a handler's database calls never touch. *)
Definition surroundings (w : World) :=
  (session w, connection w, facilitator w, paymentSession w, clock w, cached w).

(** The ledger's verdict on [signature] for a listing, asked in world [w]. *)
Definition ledgerVerdict (signature : string) (listing : ContentRow) (w : World)
  : Solana.VerificationResult * Solana.Connection :=
  Solana.verifySolanaTransaction (connection w) signature
    (creator_wallet listing) (price_usdc listing).

(** The database after a payment for [listing] was logged and counted in
    world [w]. *)
Definition recordedIn (contentId signature : string) (payerWallet : option string)
    (amount : float) (listing : ContentRow) (w : World) : Db :=
  {| content := <[contentId := counted listing]> (content (committed w));
     payment_logs := payment_logs (committed w)
                     ++ [loggedPayment contentId signature payerWallet amount w] |}.

(** The facilitator vouches for [proof]. *)
Definition vouched (w : World) (proof : string) : Prop :=
  exists signature payerWallet amount,
    facilitator w proof = FacData true signature payerWallet amount.

(** The response of a handler that answered (status 0 stands for a handler
    that threw). *)
Definition answer (r : Outcome Response * World) : Response :=
  match r.1 with
  | Ok response => response
  | Throw _ => {| status := 0; body := BError EmptyString None |}
  end.

Section WithRuntime.
Context `{Runtime}.
Variable env : Env.

(** The token [recordAndGrant] mints in world [w], and its claims. *)
Definition grantedToken (contentId signature : string) (payerWallet : option string)
    (w : World) : string :=
  Jwt.generateAccessToken env (tokenPayload contentId signature payerWallet)
    604800 (clock w / 1000).

Definition grantedClaims (contentId signature : string) (payerWallet : option string)
    (w : World) : gmap string Json :=
  Jwt.claimsOf (tokenPayload contentId signature payerWallet) 604800 (clock w / 1000).

(** How the [try] block of the verification handler ends for a request with
    content id [cid] and signature [sig]: it throws; the listing is unknown;
    the ledger refuses the payment; or the payment is recorded and a token
    granted. *)
Inductive HandlerEnd (req : VerifyRequest) (cid sig : string) (w : World)
  : Outcome Response -> World -> Prop :=
  | EndThrow e w1 :
      HandlerEnd req cid sig w (Throw e) w1
  | EndNotFound w1 :
      content (committed w) !! cid = None ->
      committed w1 = committed w -> connection w1 = connection w ->
      HandlerEnd req cid sig w
        (Ok {| status := 404; body := BError "Content not found" None |}) w1
  | EndRefused listing w1 :
      content (committed w) !! cid = Some listing ->
      startsWith sig "sim_" = false ->
      Solana.verified (ledgerVerdict sig listing w).1 = false ->
      committed w1 = committed w ->
      connection w1 = (ledgerVerdict sig listing w).2 ->
      HandlerEnd req cid sig w
        (Ok {| status := 402;
               body := BNotVerified (Solana.error (ledgerVerdict sig listing w).1)
                         (Solana.details (ledgerVerdict sig listing w).1) |}) w1
  | EndGranted listing message blockchain w1 :
      content (committed w) !! cid = Some listing ->
      (startsWith sig "sim_" = true /\ connection w1 = connection w \/
       startsWith sig "sim_" = false /\
       Solana.verified (ledgerVerdict sig listing w).1 = true /\
       connection w1 = (ledgerVerdict sig listing w).2) ->
      committed w1
      = recordedIn cid sig (payerWallet req) (price_usdc listing) listing w ->
      HandlerEnd req cid sig w
        (Ok {| status := 200;
               body := BVerified message
                         (grantedToken cid sig (payerWallet req) w)
                         (downloadUrl env cid
                            (grantedToken cid sig (payerWallet req) w))
                         blockchain |}) w1.

End WithRuntime.
End Handlers.

(** Callbacks for [transaction]. *)
Module Batches.
Import Store Effects DatabaseManager.



End Batches.

(** More sample data. *)
Module MoreSamples.
Import Js Validation Store Effects Samples.
Local Open Scope float_scope.



(** The sample server with a facilitator that vouches for every proof, as a
    payment of 1.00 USDC by "Payer" under the signature "sig-F". *)
Definition vouchingWorld (driverFaults : list bool) : World :=
  {| committed := committed (world (listing None) []);
     session := None;
     faults := driverFaults;
     connection := connection (world (listing None) []);
     facilitator := fun _ => FacData true "sig-F" (Some "Payer") 1;
     paymentSession := fun _ => None;
     clock := 1700000000000;
     cached := ∅ |}.


End MoreSamples.

(** ** Rate limiters

    The attempt limiter of [backend/middleware/validation.js] and the
    [EnhancedRateLimiter] of [backend/middleware/security.js]. Both keep, per
    identifier, the times (in milliseconds) of the attempts they accepted
    lately, and prune that list as they go. *)
Module RateLimits.

(** [validationAttempts] and [this.requests] are [Map]s from identifiers to
    arrays of timestamps: [gmap string (list Z)]. *)

(** [attempts.filter(t => now - t < windowMs)] *)
Definition recent (windowMs now : Z) (attempts : list Z) : list Z :=
  filter (fun t => (now - t < windowMs)%Z) attempts.

(** [checkValidationRateLimit(identifier)], with [now] the reading of
    [Date.now()]. *)
Definition checkValidationRateLimit (identifier : string) (now : Z)
    (validationAttempts : gmap string (list Z)) : bool * gmap string (list Z) :=
  let attempts := default [] (validationAttempts !! identifier) in
  let recentAttempts := recent 60000 now attempts in
  if (10 <? length recentAttempts)%nat then (false, validationAttempts)
  else (true, <[identifier := recentAttempts ++ [now]]> validationAttempts).

(** *** [EnhancedRateLimiter] *)

(** The options of the constructor; a missing field is [undefined]. *)
Record Options := {
  opt_windowMs : option Z;
  opt_maxRequests : option Z
}.

Record EnhancedRateLimiter := {
  windowMs : Z;
  maxRequests : Z;
  requests : gmap string (list Z)
}.

(** [v || d] for a number [v]: [undefined] and 0 are falsy. *)
Definition orNumber (v : option Z) (d : Z) : Z :=
  match v with
  | Some n => if (n =? 0)%Z then d else n
  | None => d
  end.

Definition construct (options : Options) : EnhancedRateLimiter :=
  {| windowMs := orNumber (opt_windowMs options) (15 * 60 * 1000);
     maxRequests := orNumber (opt_maxRequests options) 100;
     requests := ∅ |}.

(** [cleanup()], with [now] its own reading of the clock: every entry is
    pruned, and deleted when nothing is left of it. *)
Definition cleanup (now : Z) (limiter : EnhancedRateLimiter) : EnhancedRateLimiter :=
  {| windowMs := windowMs limiter;
     maxRequests := maxRequests limiter;
     requests :=
       omap (fun timestamps =>
               let valid := recent (windowMs limiter) now timestamps in
               if (length valid =? 0)%nat then None else Some valid)
            (requests limiter) |}.

(** [isAllowed(identifier)], with [now] the reading of [Date.now()];
    [cleanupAt] is [Some] reading of the clock when [Math.random() < 0.01]
    and [cleanup] runs, and [None] otherwise. *)
Definition isAllowed (identifier : string) (now : Z) (cleanupAt : option Z)
    (limiter : EnhancedRateLimiter) : bool * EnhancedRateLimiter :=
  let userRequests := default [] (requests limiter !! identifier) in
  let validRequests := recent (windowMs limiter) now userRequests in
  if (maxRequests limiter <=? Z.of_nat (length validRequests))%Z then
    (false, limiter)
  else
    let limiter' :=
      {| windowMs := windowMs limiter;
         maxRequests := maxRequests limiter;
         requests := <[identifier := validRequests ++ [now]]> (requests limiter) |} in
    (true, match cleanupAt with
           | Some later => cleanup later limiter'
           | None => limiter'
           end).

(** *** Runs *)

(** The decisions of the validation limiter on a series of attempts, each
    with its identifier and its time. *)
Fixpoint checkAll (calls : list (string * Z)) (validationAttempts : gmap string (list Z))
  : list bool :=
  match calls with
  | [] => []
  | (identifier, now) :: rest =>
      let '(ok, validationAttempts') :=
        checkValidationRateLimit identifier now validationAttempts in
      ok :: checkAll rest validationAttempts'
  end.

(** The decisions of an [EnhancedRateLimiter] on a series of requests, each
    with its identifier, its time and the time of the clean-up it draws. *)
Fixpoint allowAll (calls : list (string * Z * option Z))
    (limiter : EnhancedRateLimiter) : list bool :=
  match calls with
  | [] => []
  | (identifier, now, cleanupAt) :: rest =>
      let '(ok, limiter') := isAllowed identifier now cleanupAt limiter in
      ok :: allowAll rest limiter'
  end.

(** *** The reference: count the accepted attempts of the last window

    A limiter that forgets nothing: it keeps every accepted attempt, and
    accepts an attempt when [allowed] holds of the number of accepted
    attempts of the same identifier less than [window] before it. *)
Definition timesOf (identifier : string) (history : list (string * Z)) : list Z :=
  omap (fun attempt : string * Z =>
          if bool_decide (attempt.1 = identifier) then Some attempt.2 else None)
       history.

Fixpoint counting (window : Z) (allowed : nat -> bool) (calls : list (string * Z))
    (history : list (string * Z)) : list bool :=
  match calls with
  | [] => []
  | (identifier, now) :: rest =>
      let ok := allowed (length (recent window now (timesOf identifier history))) in
      ok :: counting window allowed rest
              (if ok then history ++ [(identifier, now)] else history)
  end.

(** The clock never runs backwards: the readings of a run, in the order they
    are taken, from [start] on. *)
Fixpoint clockReadings (calls : list (string * Z * option Z)) : list Z :=
  match calls with
  | [] => []
  | (_, now, cleanupAt) :: rest =>
      now :: match cleanupAt with
             | Some later => later :: clockReadings rest
             | None => clockReadings rest
             end
  end.

Fixpoint nondecreasing (start : Z) (readings : list Z) : Prop :=
  match readings with
  | [] => True
  | t :: rest => (start <= t)%Z /\ nondecreasing t rest
  end.

(** The pruned lists [stored] and the full [history] hold the same attempts
    of every window that ends at [now] or later. *)
Definition agrees (window now : Z) (history : list (string * Z))
    (stored : gmap string (list Z)) : Prop :=
  forall (identifier : string) (later : Z),
    (now <= later)%Z ->
    recent window later (default [] (stored !! identifier))
    = recent window later (timesOf identifier history).

End RateLimits.

(** ** [backend/middleware/security.js]: escaping and path sanitisation

    Texts are the UTF-8 bytes of the JavaScript strings: the functions below
    look only for ASCII characters and copy everything else, so they act on
    the bytes as they act on the code units. *)
Module Security.
Import Js.
Local Open Scope string_scope.

Definition dquote : Ascii.ascii := ascii_of_nat 34.
Definition backslash : Ascii.ascii := ascii_of_nat 92.

(** *** [escapeHTML] *)

(** [escapeMap]; [None] for a character that the regular expression of
    [escapeHTML] does not match (it matches the ampersand, the angle
    brackets, the two quotes, the backquote, the equals sign and the
    slash). *)
Definition escapeMap (c : Ascii.ascii) : option string :=
  if Ascii.eqb c "&" then Some "&amp;"
  else if Ascii.eqb c "<" then Some "&lt;"
  else if Ascii.eqb c ">" then Some "&gt;"
  else if Ascii.eqb c dquote then Some "&quot;"
  else if Ascii.eqb c "'" then Some "&#39;"
  else if Ascii.eqb c "/" then Some "&#x2F;"
  else if Ascii.eqb c "`" then Some "&#x60;"
  else if Ascii.eqb c "=" then Some "&#x3D;"
  else None.

(** [str.replace(regex, char => escapeMap[char])] *)
Fixpoint escapeText (str : string) : string :=
  match str with
  | EmptyString => EmptyString
  | String c rest =>
      match escapeMap c with
      | Some entity => entity ++ escapeText rest
      | None => String c (escapeText rest)
      end
  end.

(** [escapeHTML(str)]: a value that is no string is returned as it is. *)
Definition escapeHTML (str : Json) : Json :=
  match str with
  | JStr s => JStr (escapeText s)
  | other => other
  end.

(** The characters [escapeHTML] is there to remove. *)
Definition isMarkup (c : Ascii.ascii) : bool :=
  Ascii.eqb c "<" || Ascii.eqb c ">" || Ascii.eqb c dquote || Ascii.eqb c "'"
  || Ascii.eqb c "/" || Ascii.eqb c "`" || Ascii.eqb c "=".

(** *** [sanitizePath] *)

Definition isSeparator (c : Ascii.ascii) : bool :=
  Ascii.eqb c "/" || Ascii.eqb c backslash.

(** [.replace(/\.\./g, '')]: the pairs of dots are found from the left and
    do not overlap. *)
Fixpoint removeDotDot (s : string) : string :=
  match s with
  | EmptyString => EmptyString
  | String c rest =>
      match rest with
      | String d rest' =>
          if Ascii.eqb c "." && Ascii.eqb d "." then removeDotDot rest'
          else String c (removeDotDot rest)
      | EmptyString => String c EmptyString
      end
  end.

(** [.replace(/[\/\\]+/g, '/')]: every run of separators becomes one slash;
    [inRun] tells that the character before was a separator. *)
Fixpoint collapseFrom (inRun : bool) (s : string) : string :=
  match s with
  | EmptyString => EmptyString
  | String c rest =>
      if isSeparator c then
        if inRun then collapseFrom true rest
        else String "/" (collapseFrom true rest)
      else String c (collapseFrom false rest)
  end.

Definition collapseSeparators (s : string) : string := collapseFrom false s.

(** [.replace(/^[\/\\]/, '')] *)
Definition stripLeadingSeparator (s : string) : string :=
  match s with
  | String c rest => if isSeparator c then rest else s
  | EmptyString => EmptyString
  end.

(** [s.substring(s.lastIndexOf('.'))]: from the last dot on, and all of [s]
    when it holds no dot ([lastIndexOf] gives -1, which [substring] takes
    for 0). *)
Fixpoint fromLastDot (s : string) : string :=
  match s with
  | EmptyString => EmptyString
  | String c rest =>
      if noChar "." rest then s else fromLastDot rest
  end.

(** [toLowerCase()] on the letters of ASCII. The only other characters whose
    lower case is an ASCII letter are the Kelvin sign (k) and the dotted
    capital I (i with a combining dot): no allowed extension and no
    suspicious one holds a k, and the second never gives a plain i. *)
Definition lowerChar (c : Ascii.ascii) : Ascii.ascii :=
  let n := Ascii.nat_of_ascii c in
  if ((65 <=? n) && (n <=? 90))%nat then Ascii.ascii_of_nat (n + 32) else c.

Fixpoint toLowerCase (s : string) : string :=
  match s with
  | EmptyString => EmptyString
  | String c rest => String (lowerChar c) (toLowerCase rest)
  end.

Definition allowedExtensions : list string :=
  [".pdf"; ".png"; ".jpg"; ".jpeg"; ".gif"; ".zip";
   ".txt"; ".doc"; ".docx"; ".mp4"; ".mp3"].

(** [allowedExtensions.includes(ext)] *)
Definition includes (l : list string) (x : string) : bool :=
  existsb (String.eqb x) l.

(** The three replacements. *)
Definition sanitized (filepath : string) : string :=
  stripLeadingSeparator (collapseSeparators (removeDotDot filepath)).

(** [sanitizePath(filepath)]: the sanitised path, or [None] when it throws
    'File type not allowed'. *)
Definition sanitizePath (filepath : string) : option string :=
  let ext := toLowerCase (fromLastDot (sanitized filepath)) in
  if negb (includes allowedExtensions ext) then None
  else Some (sanitized filepath).

(** No two dots in a row. *)
Fixpoint noDotDot (s : string) : bool :=
  match s with
  | EmptyString => true
  | String c rest =>
      match rest with
      | String d _ => negb (Ascii.eqb c "." && Ascii.eqb d ".") && noDotDot rest
      | EmptyString => true
      end
  end.

(** No two separators in a row. *)
Fixpoint noDoubleSeparator (s : string) : bool :=
  match s with
  | EmptyString => true
  | String c rest =>
      match rest with
      | String d _ => negb (isSeparator c && isSeparator d) && noDoubleSeparator rest
      | EmptyString => true
      end
  end.

(** [s] does not start with a character of [p]. *)
Definition startsFree (p : Ascii.ascii -> bool) (s : string) : bool :=
  match s with
  | String c _ => negb (p c)
  | EmptyString => true
  end.

(** [s] ends with [suffix], the case of ASCII letters apart. *)
Definition endsWithIgnoringCase (s suffix : string) : Prop :=
  exists stem tail, s = stem ++ tail /\ toLowerCase tail = suffix.

(** *** [secureCompare] *)

(** [crypto.timingSafeEqual(a, b)] on the bytes of two texts: it throws a
    RangeError ([None]) when the lengths differ, and otherwise tells whether
    the bytes are equal. *)
Definition timingSafeEqual (a b : string) : option bool :=
  if Nat.eqb (String.length a) (String.length b) then Some (String.eqb a b)
  else None.

(** A value [secureCompare] is given: a string, by its UTF-16 code units
    (each from 0 to 65535), or a value of another type. *)
Inductive Value :=
  | StringValue (units : list Z)
  | OtherValue.

Definition isHighSurrogate (u : Z) : bool := (55296 <=? u)%Z && (u <=? 56319)%Z.
Definition isLowSurrogate (u : Z) : bool := (56320 <=? u)%Z && (u <=? 57343)%Z.

(** U+FFFD in UTF-8, which stands for a surrogate without its partner. *)
Definition replacement : list Z := [239; 191; 189]%Z.

(** The code point of a surrogate pair. *)
Definition codePoint (high low : Z) : Z :=
  (65536 + (high - 55296) * 1024 + (low - 56320))%Z.

(** [Buffer.from(str)]: the bytes of the string in UTF-8. *)
Fixpoint bufferFrom (units : list Z) : list Z :=
  match units with
  | [] => []
  | u :: rest =>
      if (u <? 128)%Z then u :: bufferFrom rest
      else if (u <? 2048)%Z then
        [192 + u / 64; 128 + u mod 64]%Z ++ bufferFrom rest
      else if isHighSurrogate u then
        match rest with
        | low :: rest' =>
            if isLowSurrogate low then
              let c := codePoint u low in
              [240 + c / 262144; 128 + (c / 4096) mod 64;
               128 + (c / 64) mod 64; 128 + c mod 64]%Z ++ bufferFrom rest'
            else replacement ++ bufferFrom rest
        | [] => replacement
        end
      else if isLowSurrogate u then replacement ++ bufferFrom rest
      else
        [224 + u / 4096; 128 + (u / 64) mod 64; 128 + u mod 64]%Z
          ++ bufferFrom rest
  end.

(** [crypto.timingSafeEqual(a, b)] on two buffers: it throws a RangeError
    ([None]) when the lengths differ, and otherwise tells whether the bytes
    are equal. *)
Definition timingSafeEqualBuffers (a b : list Z) : option bool :=
  if Nat.eqb (length a) (length b) then Some (bool_decide (a = b)) else None.

(** [secureCompare(a, b)]; [None] when it throws. *)
Definition secureCompare (a b : Value) : option bool :=
  match a, b with
  | StringValue sa, StringValue sb =>
      let bufferA := bufferFrom sa in
      let bufferB := bufferFrom sb in
      if negb (Nat.eqb (length bufferA) (length bufferB)) then Some false
      else timingSafeEqualBuffers bufferA bufferB
  | _, _ => Some false
  end.

(** A string without a surrogate that lacks its partner. *)
Fixpoint wellFormed (units : list Z) : bool :=
  match units with
  | [] => true
  | u :: rest =>
      (0 <=? u)%Z && (u <? 65536)%Z &&
      if isHighSurrogate u then
        match rest with
        | low :: rest' => isLowSurrogate low && wellFormed rest'
        | [] => false
        end
      else negb (isLowSurrogate u) && wellFormed rest
  end.

(** The head of a well-formed string and its bytes: a unit of one, two or
    three bytes, or a surrogate pair of four; what follows it. *)
Inductive Head : list Z -> list Z -> list Z -> Prop :=
  | HeadAscii u rest :
      (0 <= u < 128)%Z -> Head (u :: rest) [u] rest
  | HeadTwo u rest :
      (128 <= u < 2048)%Z ->
      Head (u :: rest) [192 + u / 64; 128 + u mod 64]%Z rest
  | HeadThree u rest :
      (2048 <= u < 65536)%Z -> ~ (55296 <= u <= 57343)%Z ->
      Head (u :: rest)
        [224 + u / 4096; 128 + (u / 64) mod 64; 128 + u mod 64]%Z rest
  | HeadPair high low rest :
      (55296 <= high <= 56319)%Z -> (56320 <= low <= 57343)%Z ->
      Head (high :: low :: rest)
        [240 + codePoint high low / 262144;
         128 + (codePoint high low / 4096) mod 64;
         128 + (codePoint high low / 64) mod 64;
         128 + codePoint high low mod 64]%Z rest.

End Security.

(** ** [backend/middleware/security.js]: the CSRF tokens *)
Module Csrf.
Import Js Validation.
Local Open Scope string_scope.

Section WithHmac.
(** [crypto.createHmac('sha256', key).update(data).digest('hex')] *)
Variable hmacSha256Hex : string -> string -> string.

(** An entry of [this.tokens]: the digest of the token and the time, in
    milliseconds, at which it expires. *)
Record Stored := { token : string; expires : Z }.

Record CSRFProtection := {
  secret : string;
  tokens : gmap string Stored
}.

(** [new CSRFProtection(secret)]; [random] is the text that
    [crypto.randomBytes(32).toString('hex')] draws. *)
Definition construct (secretOption : option string) (random : string)
  : CSRFProtection :=
  {| secret := orString secretOption random; tokens := ∅ |}.

(** [cleanupExpired()], with [now] its reading of the clock. *)
Definition cleanupExpired (now : Z) (p : CSRFProtection) : CSRFProtection :=
  {| secret := secret p;
     tokens := filter (fun entry => ~ (expires entry.2 < now)%Z) (tokens p) |}.

(** [generateToken(sessionId)]: [random] is the token drawn, [now] the
    reading of the clock for the expiry and [cleanupNow] the later reading
    of [cleanupExpired]. *)
Definition generateToken (sessionId random : string) (now cleanupNow : Z)
    (p : CSRFProtection) : string * CSRFProtection :=
  let hash := hmacSha256Hex (secret p) random in
  let stored := {| token := hash; expires := now + 3600000 |} in
  (random,
   cleanupExpired cleanupNow
     {| secret := secret p; tokens := <[sessionId := stored]> (tokens p) |}).

(** [validateToken(sessionId, token)]; [None] when it throws: [update]
    refuses a value that is no string, and [timingSafeEqual] two texts of
    different lengths. *)
Definition validateToken (sessionId : string) (tokenValue : Json) (now : Z)
    (p : CSRFProtection) : option bool :=
  match tokens p !! sessionId with
  | None => Some false
  | Some stored =>
      if (expires stored <? now)%Z then Some false
      else
        match tokenValue with
        | JStr t =>
            Security.timingSafeEqual (token stored) (hmacSha256Hex (secret p) t)
        | _ => None
        end
  end.

(** Tokens generated one after the other, each with its session, the token
    drawn, the time of the call and the time of its clean-up: the store
    they leave. *)
Definition generateAll (calls : list (string * string * Z * Z))
    (p : CSRFProtection) : CSRFProtection :=
  fold_left (fun p call =>
               (generateToken call.1.1.1 call.1.1.2 call.1.2 call.2 p).2)
            calls p.

(** What a middleware does with a request. *)
Inductive Verdict :=
  | Next
  | Respond (response : Response)
  | Throws.

(** [csrfMiddleware]: [sessionId] is [req.session?.id || req.ip], and
    [tokenValue] is [req.headers['x-csrf-token'] || req.body?.csrfToken]. *)
Definition csrfMiddleware (method sessionId : string) (tokenValue : option Json)
    (now : Z) (p : CSRFProtection) : Verdict :=
  let forbidden :=
    Respond {| status := 403;
               body := BError "Invalid CSRF token"
                         (Some "Security validation failed") |} in
  if String.eqb method "GET" then Next
  else if negb (truthy tokenValue) then forbidden
  else
    match tokenValue with
    | Some v =>
        match validateToken sessionId v now p with
        | Some true => Next
        | Some false => forbidden
        | None => Throws
        end
    | None => forbidden
    end.

End WithHmac.
End Csrf.

(** ** The circuit breaker of the error-handling utilities *)
Module Breaker.

Inductive State := CLOSED | OPEN | HALF_OPEN.

(** The options of the constructor; a missing field is [undefined]. *)
Record Options := {
  opt_failureThreshold : option Z;
  opt_resetTimeout : option Z;
  opt_monitoringPeriod : option Z
}.

Record CircuitBreaker := {
  failureThreshold : Z;
  resetTimeout : Z;
  monitoringPeriod : Z;
  state : State;
  failures : Z;
  nextAttempt : Z;
  successCount : Z;
  lastFailureTime : option Z
}.

(** [new CircuitBreaker(options)] at time [now]. *)
Definition construct (options : Options) (now : Z) : CircuitBreaker :=
  {| failureThreshold := RateLimits.orNumber (opt_failureThreshold options) 5;
     resetTimeout := RateLimits.orNumber (opt_resetTimeout options) 60000;
     monitoringPeriod := RateLimits.orNumber (opt_monitoringPeriod options) 10000;
     state := CLOSED;
     failures := 0;
     nextAttempt := now;
     successCount := 0;
     lastFailureTime := None |}.

Definition withState (b : CircuitBreaker) (s : State) : CircuitBreaker :=
  {| failureThreshold := failureThreshold b; resetTimeout := resetTimeout b;
     monitoringPeriod := monitoringPeriod b; state := s;
     failures := failures b; nextAttempt := nextAttempt b;
     successCount := successCount b; lastFailureTime := lastFailureTime b |}.

Definition onSuccess (b : CircuitBreaker) : CircuitBreaker :=
  let closing :=
    match state b with
    | HALF_OPEN => (2 <=? successCount b + 1)%Z
    | _ => false
    end in
  {| failureThreshold := failureThreshold b; resetTimeout := resetTimeout b;
     monitoringPeriod := monitoringPeriod b;
     state := if closing then CLOSED else state b;
     failures := 0;
     nextAttempt := nextAttempt b;
     successCount := match state b with
                     | HALF_OPEN => if closing then 0 else successCount b + 1
                     | _ => successCount b
                     end;
     lastFailureTime := lastFailureTime b |}.

(** [onFailure()], with [now] and [later] its two readings of the clock. *)
Definition onFailure (now later : Z) (b : CircuitBreaker) : CircuitBreaker :=
  let opening := (failureThreshold b <=? failures b + 1)%Z in
  {| failureThreshold := failureThreshold b; resetTimeout := resetTimeout b;
     monitoringPeriod := monitoringPeriod b;
     state := if opening then OPEN else state b;
     failures := failures b + 1;
     nextAttempt := if opening then later + resetTimeout b else nextAttempt b;
     successCount := if opening then 0 else successCount b;
     lastFailureTime := Some now |}.

(** How a call ends: with the result of [fn], with the error [fn] threw,
    or with 'Circuit breaker is OPEN', [fn] not having been called. *)
Inductive CallEnd (A : Type) :=
  | Returned (result : A)
  | Failed (error : string)
  | Rejected.
Arguments Returned {A} result.
Arguments Failed {A} error.
Arguments Rejected {A}.

(** [call(fn)]: [now] is the reading of the clock at the start, [fn] the
    outcome of the function when it is called (its result or the error it
    throws), and [failedAt], [openedAt] the readings of [onFailure]. *)
Definition call {A} (now : Z) (fn : A + string) (failedAt openedAt : Z)
    (b : CircuitBreaker) : CallEnd A * CircuitBreaker :=
  let admitted :=
    match state b with
    | OPEN => if (now <? nextAttempt b)%Z then None
              else Some (withState b HALF_OPEN)
    | _ => Some b
    end in
  match admitted with
  | None => (Rejected, b)
  | Some b' =>
      match fn with
      | inl result => (Returned result, onSuccess b')
      | inr error => (Failed error, onFailure failedAt openedAt b')
      end
  end.

(** A run of calls of a function that always throws, each with its three
    readings of the clock; the calls that reached the function are
    counted. *)
Fixpoint failingCalls (times : list (Z * Z * Z)) (b : CircuitBreaker)
  : nat * CircuitBreaker :=
  match times with
  | [] => (0, b)
  | (now, failedAt, openedAt) :: rest =>
      let '(outcome, b') :=
        call (A := unit) now (inr "down") failedAt openedAt b in
      let '(reached, b'') := failingCalls rest b' in
      (match outcome with Rejected => reached | _ => S reached end, b'')
  end.

(** The number of failures in a row that opens the breaker: the threshold,
    and one when the threshold is smaller. *)
Definition tolerated (b : CircuitBreaker) : nat :=
  Z.to_nat (Z.max 1 (failureThreshold b)).

(** Every reading of the run lies in the interval from [t0] to [t1],
    [t1] excluded. *)
Definition within (t0 t1 : Z) (times : list (Z * Z * Z)) : Prop :=
  Forall (fun t : Z * Z * Z =>
            (t0 <= t.1.1 < t1 /\ t0 <= t.1.2 < t1 /\ t0 <= t.2 < t1)%Z) times.

End Breaker.

(** ** The router of [backend/routes/payment.js]

    Express binds [req.params] from the pattern of the route that matched:
    one entry for each named segment of the pattern, and no other. *)
Module Router.
Import Js Validation Store Effects.
Local Open Scope string_scope.

(** A segment of a route pattern: a literal, or a parameter [:name]. *)
Inductive Segment :=
  | Lit (text : string)
  | Param (name : string).

(** The parameters a path binds when it matches the pattern. A path is the
    list of its segments, none of them empty; a literal matches whatever the
    case (routing is not case sensitive unless asked to be). *)
Fixpoint matchPath (pattern : list Segment) (path : list string)
  : option (gmap string string) :=
  match pattern, path with
  | [], [] => Some ∅
  | Lit text :: pattern', segment :: path' =>
      if String.eqb (Security.toLowerCase text) (Security.toLowerCase segment)
      then matchPath pattern' path'
      else None
  | Param name :: pattern', segment :: path' =>
      params ← matchPath pattern' path';
      Some (<[name := segment]> params)
  | _, _ => None
  end.

(** [router.post('/initiate', validateContentId, handler)]: what a POST to
    [path] with [req.body.contentId] runs, when the pattern matches. *)
Definition postInitiate (path : list string) (bodyContentId : option string)
  : option (M Response) :=
  params ← matchPath [Lit "initiate"] path;
  Some (PaymentRoute.initiate (params !! "id") bodyContentId).

(** [router.get('/status/:contentId', validateContentId, handler)], for any
    [handler] of the parameters and the query string. *)
Definition getStatus {Q} (handler : gmap string string -> Q -> M Response)
    (path : list string) (query : Q) : option (M Response) :=
  params ← matchPath [Lit "status"; Param "contentId"] path;
  Some (match validateContentId (params !! "id") with
        | Some response => mret response
        | None => handler params query
        end).

(** The names a pattern binds. *)
Definition names (pattern : list Segment) : list string :=
  omap (fun s => match s with Param name => Some name | Lit _ => None end) pattern.

End Router.

(** ** The cache manager, kept in memory

    [CacheManager] of the caching utilities, as it runs when Redis is off
    ([useRedis] is false): the entries live in [inMemoryCache], each with
    the time, in milliseconds, at which it expires. *)
Module Cache.
Import Js.
Local Open Scope string_scope.

Section WithValue.
(** What the cache holds. A value is not [null]: [get] answers [null],
    here [None], for a key it does not hold. *)
Variable V : Type.

Record Entry := { value : V; expires : Z }.

Record CacheManager := {
  ttl : Z;
  prefix : string;
  inMemoryCache : gmap string Entry
}.

(** [new CacheManager(options)] *)
Definition construct (optionsTtl : option Z) (optionsPrefix : option string)
  : CacheManager :=
  {| ttl := RateLimits.orNumber optionsTtl 3600;
     prefix := orString optionsPrefix "paywall402:";
     inMemoryCache := ∅ |}.

Definition withEntries (c : CacheManager) (entries : gmap string Entry)
  : CacheManager :=
  {| ttl := ttl c; prefix := prefix c; inMemoryCache := entries |}.

(** [get(key)], with [now] the reading of the clock: an entry that has
    expired is deleted. *)
Definition get (key : string) (now : Z) (c : CacheManager)
  : option V * CacheManager :=
  let fullKey := prefix c ++ key in
  match inMemoryCache c !! fullKey with
  | Some cached =>
      if (now <? expires cached)%Z then (Some (value cached), c)
      else (None, withEntries c (delete fullKey (inMemoryCache c)))
  | None => (None, c)
  end.

(** [cleanupMemoryCache()] *)
Definition cleanupMemoryCache (now : Z) (c : CacheManager) : CacheManager :=
  withEntries c
    (filter (fun entry => ~ (expires entry.2 <= now)%Z) (inMemoryCache c)).

(** [set(key, value, ttl)]: [ttlSeconds] is the argument [ttl] ([null] by
    default), [now] the reading of the clock, and [cleanupAt] the reading of
    [cleanupMemoryCache] when [Math.random() < 0.01] and it runs. *)
Definition set (key : string) (v : V) (ttlSeconds : option Z) (now : Z)
    (cleanupAt : option Z) (c : CacheManager) : CacheManager :=
  let fullKey := prefix c ++ key in
  let finalTTL := RateLimits.orNumber ttlSeconds (ttl c) in
  let c' :=
    withEntries c
      (<[fullKey := {| value := v; expires := now + finalTTL * 1000 |}]>
         (inMemoryCache c)) in
  match cleanupAt with
  | Some later => cleanupMemoryCache later c'
  | None => c'
  end.

(** [del(key)] *)
Definition del (key : string) (c : CacheManager) : CacheManager :=
  withEntries c (delete (prefix c ++ key) (inMemoryCache c)).

(** [pattern.replace('*', '')]: the first star is taken out. *)
Fixpoint removeFirstStar (pattern : string) : string :=
  match pattern with
  | EmptyString => EmptyString
  | String ch rest =>
      if Ascii.eqb ch "*" then rest else String ch (removeFirstStar rest)
  end.

(** [clear(pattern)] *)
Definition clear (pattern : string) (c : CacheManager) : CacheManager :=
  let fullPattern := prefix c ++ removeFirstStar pattern in
  withEntries c
    (filter (fun entry => startsWith entry.1 fullPattern = false)
       (inMemoryCache c)).

End WithValue.

Arguments value {V} _.
Arguments expires {V} _.
Arguments ttl {V} _.
Arguments prefix {V} _.
Arguments inMemoryCache {V} _.
Arguments withEntries {V} c entries.
Arguments get {V} key now c.
Arguments cleanupMemoryCache {V} now c.
Arguments set {V} key v ttlSeconds now cleanupAt c.
Arguments del {V} key c.
Arguments clear {V} pattern c.

End Cache.

(** ** The database manager's cached reads and debounced counters

    [query] with its [cache] options, [getContent] and [incrementViews] of
    the database manager, on the cache kept in memory. *)
Module CachedManager.
Import Js Store Effects Cache.
Local Open Scope string_scope.

(** What the manager stores in the cache: the rows of a result, or a
    count. *)
Inductive CachedValue :=
  | VRows (rows : Rows)
  | VNum (n : Z).

(** ToBoolean of what [cache.get] answered: an array is truthy, also when
    it is empty; [null] and 0 are not. *)
Definition truthyValue (cached : option CachedValue) : bool :=
  match cached with
  | Some (VRows _) => true
  | Some (VNum n) => negb (n =? 0)%Z
  | None => false
  end.

(** What [query] returns: the result object of the driver, with its
    [rows], or on a cache hit the value the cache held. *)
Inductive QueryResult :=
  | DriverResult (rows : Rows)
  | Cached (cached : CachedValue).

(** The asynchronous code of the manager, on the cache and the server. *)
Definition MC (A : Type) : Type :=
  CacheManager CachedValue -> World ->
  Outcome A * CacheManager CachedValue * World.

(** The retry loop of [query], with the default [retries = 2], for a
    statement sent through the pool: [run] is the server's part. *)
Fixpoint statementAttempts (attempts : nat) (run : M Rows) (lastError : string)
  : M Rows :=
  match attempts with
  | O => throw lastError
  | S attempts' =>
      tryCatch (driverCall;; run)
               (fun error => statementAttempts attempts' run error)
  end.

(** [query(text, params, { cache: true, cacheKey, cacheTTL })] for a
    statement whose part of the server is [run], with no client. An empty
    [cacheKey] is falsy: the cache is then left alone. *)
Definition query (run : M Rows) (cacheKey : string) (cacheTTL : Z)
    (cleanupAt : option Z) : MC QueryResult := fun c w =>
  let useCache := negb (String.eqb cacheKey EmptyString) in
  let '(cached, c1) :=
    if useCache then get cacheKey (clock w) c else (None, c) in
  match (if truthyValue cached then cached else None) with
  | Some hit => (Ok (Cached hit), c1, w)
  | None =>
      match statementAttempts 3 run EmptyString w with
      | (Ok rows, w') =>
          (Ok (DriverResult rows),
           if useCache
           then set cacheKey (VRows rows) (Some cacheTTL) (clock w') cleanupAt c1
           else c1,
           w')
      | (Throw e, w') => (Throw e, c1, w')
      end
  end.

(** The columns of [content] in [db/schema.sql]. *)
Definition contentColumns : list string :=
  ["id"; "content_type"; "content_path"; "original_filename"; "file_mimetype";
   "price_usdc"; "creator_wallet"; "views"; "payments"; "expires_at";
   "created_at"; "updated_at"].

(** The select list of the prepared statement 'getContent'. *)
Definition getContentColumns : list string :=
  ["id"; "content_type"; "content_path"; "original_filename"; "file_mimetype";
   "price_usdc"; "creator_wallet"; "views"; "payments"; "expires_at";
   "created_at"; "updated_at"; "title"; "description"].

(** 'SELECT columns FROM content WHERE id = $1': the server refuses a
    column the table does not have. *)
Definition selectContent (columns : list string) (id : string) (db : Db)
  : option Rows :=
  if forallb (fun column => existsb (String.eqb column) contentColumns) columns
  then Some (ContentRows (option_list (content db !! id)))
  else None.

(** The server's part of the prepared statement 'getContent'. *)
Definition runGetContent (id : string) : M Rows := fun w =>
  match selectContent getContentColumns id (committed w) with
  | Some rows => (Ok rows, w)
  | None => (Throw "statement failed", w)
  end.

(** [cacheKeys.content(id)] *)
Definition contentKey (id : string) : string := "content:" ++ id.

(** The TypeError of [result.rows[0]] when [result.rows] is undefined. *)
Definition rowsUndefined : string :=
  "Cannot read properties of undefined (reading '0')".

Definition firstContent (rows : Rows) : option ContentRow :=
  match rows with
  | ContentRows (row :: _) => Some row
  | _ => None
  end.

(** [getContent(id)], with no options: [result.rows[0] || null]. What the
    cache held is the array of rows itself, which has no [rows]. *)
Definition getContent (id : string) (cleanupAt : option Z)
  : MC (option ContentRow) := fun c w =>
  match query (runGetContent id) (contentKey id) 300 cleanupAt c w with
  | (Ok (DriverResult rows), c', w') => (Ok (firstContent rows), c', w')
  | (Ok (Cached _), c', w') => (Throw rowsUndefined, c', w')
  | (Throw e, c', w') => (Throw e, c', w')
  end.

(** Prepared statement 'updateContentViews':
    'UPDATE content SET views = views + 1 ... WHERE id = $1 RETURNING views' *)
Definition updateContentViews (cid : string) (db : Db) : option (list Z * Db) :=
  match content db !! cid with
  | None => Some ([], db)
  | Some row =>
      if (views row + 1 >? INT_MAX)%Z then None
      else
        let row' := {| price_usdc := price_usdc row;
                       creator_wallet := creator_wallet row;
                       expires_at := expires_at row;
                       views := views row + 1;
                       payments := payments row |} in
        Some ([(views row + 1)%Z],
              {| content := <[cid := row']> (content db);
                 payment_logs := payment_logs db |})
  end.

(** The server's part of the statement, sent through the pool. *)
Definition runUpdateViews (cid : string) : M Rows := fun w =>
  match updateContentViews cid (committed w) with
  | Some (counts, db') =>
      (Ok (CountRows counts), setDb w db' (session w) (faults w))
  | None => (Throw "statement failed", w)
  end.

(** The retry loop of [query], for this statement. *)
Fixpoint updateAttempts (attempts : nat) (cid : string) (lastError : string)
  : M Rows :=
  match attempts with
  | O => throw lastError
  | S attempts' =>
      tryCatch (driverCall;; runUpdateViews cid)
               (fun error => updateAttempts attempts' cid error)
  end.

(** [viewKey] of [incrementViews] *)
Definition viewKey (id : string) : string := "views:pending:" ++ id.

(** [(await cache.get(viewKey)) || 0], for a key that holds a count or
    nothing; [None] for a key that holds rows, which nothing stores under a
    [viewKey]. *)
Definition pendingOf (cached : option CachedValue) : option Z :=
  match cached with
  | None => Some 0%Z
  | Some (VNum n) => Some n
  | Some (VRows _) => None
  end.

(** [incrementViews(id)]; [None] when the [viewKey] holds rows. *)
Definition incrementViews (id : string) (cleanupAt : option Z)
    (c : CacheManager CachedValue) (w : World)
  : option (Outcome unit * CacheManager CachedValue * World) :=
  let '(cached, c1) := get (viewKey id) (clock w) c in
  pendingViews ← pendingOf cached;
  Some (if (pendingViews <? 10)%Z then
          (* Increment in cache *)
          (Ok (), set (viewKey id) (VNum (pendingViews + 1)) (Some 60%Z)
                    (clock w) cleanupAt c1, w)
        else
          (* Flush to database *)
          match updateAttempts 3 id EmptyString w with
          | (Ok _, w') => (Ok (), del (contentKey id) (del (viewKey id) c1), w')
          | (Throw e, w') => (Throw e, c1, w')
          end).

(** The pending count of [id] in [c]. *)
Definition pending (id : string) (c : CacheManager CachedValue)
  : option (Entry CachedValue) :=
  inMemoryCache c !! (prefix c ++ viewKey id).

(** The server when the clock reads [now]. *)
Definition atTime (now : Z) (w : World) : World :=
  {| committed := committed w; session := session w; faults := faults w;
     connection := connection w; facilitator := facilitator w;
     paymentSession := paymentSession w; clock := now; cached := cached w |}.

(** Views of the listing [id], one after the other: each with the time of
    the call and the time of the clean-up of the cache, when it runs. *)
Fixpoint viewAll (id : string) (calls : list (Z * option Z))
    (c : CacheManager CachedValue) (w : World)
  : option (CacheManager CachedValue * World) :=
  match calls with
  | [] => Some (c, w)
  | (now, cleanupAt) :: rest =>
      '(_, c', w') ← incrementViews id cleanupAt c (atTime now w);
      viewAll id rest c' w'
  end.

(** Each call comes before the pending count of the call before it expires
    at [expiry], and so does its clean-up of the cache. *)
Fixpoint inTime (expiry : Z) (calls : list (Z * option Z)) : Prop :=
  match calls with
  | [] => True
  | (now, cleanupAt) :: rest =>
      (now < expiry)%Z /\
      match cleanupAt with Some t => (t < now + 60000)%Z | None => True end /\
      inTime (now + 60000) rest
  end.

(** The listing [id] with one more view. *)
Definition viewed (id : string) (row : ContentRow) (db : Db) : Db :=
  {| content := <[id := {| price_usdc := price_usdc row;
                           creator_wallet := creator_wallet row;
                           expires_at := expires_at row;
                           views := views row + 1;
                           payments := payments row |}]> (content db);
     payment_logs := payment_logs db |}.

End CachedManager.

(** * Properties *)

(** ** Order facts on binary64 values

    What the amount check needs: every pair of numbers (non-NaN) is
    comparable, [<=] is the negation of the converse [<], and [<] composes. *)
Module F64Facts.
Import F64.
Local Open Scope float_scope.

Lemma SFcompare_key (x y : spec_float) :
  SFcompare x y =
  match key x, key y with
  | Some a, Some b => Some (lex3 a b)
  | _, _ => None
  end.
Proof.
  destruct x as [[]|[]| |[] m1 e1], y as [[]|[]| |[] m2 e2]; cbn; try reflexivity.
  - rewrite !Z.compare_opp.
    change (PosDef.Pos.compare_cont Eq m1 m2) with (Pos.compare m1 m2).
    change (Z.pos m2 ?= Z.pos m1)%Z with (Pos.compare m2 m1).
    rewrite (Z.compare_antisym e1 e2), (Pos.compare_antisym m1 m2).
    destruct (e1 ?= e2)%Z; reflexivity.
Qed.

Lemma lex3_lt (a b : Z * Z * Z) :
  lex3 a b = Lt <->
  (a.1.1 < b.1.1 \/ (a.1.1 = b.1.1 /\ (a.1.2 < b.1.2 \/ (a.1.2 = b.1.2 /\ a.2 < b.2))))%Z.
Proof.
  destruct a as [[a1 a2] a3], b as [[b1 b2] b3]; cbn.
  destruct (Z.compare_spec a1 b1), (Z.compare_spec a2 b2), (Z.compare_spec a3 b3);
    split; intros; try discriminate; try reflexivity; lia.
Qed.

Lemma lex3_antisym (a b : Z * Z * Z) : lex3 b a = CompOpp (lex3 a b).
Proof.
  destruct a as [[a1 a2] a3], b as [[b1 b2] b3]; cbn.
  rewrite (Z.compare_antisym a1 b1), (Z.compare_antisym a2 b2), (Z.compare_antisym a3 b3).
  destruct (a1 ?= b1)%Z, (a2 ?= b2)%Z, (a3 ?= b3)%Z; reflexivity.
Qed.

Lemma lex3_gt (a b : Z * Z * Z) : lex3 a b = Gt <-> lex3 b a = Lt.
Proof.
  rewrite (lex3_antisym a b). destruct (lex3 a b); cbn; split; congruence.
Qed.

Lemma is_number_key (x : float) : is_number x = true <-> is_Some (key (Prim2SF x)).
Proof.
  unfold is_number, is_nan. rewrite FloatAxioms.eqb_spec. unfold SFeqb.
  rewrite SFcompare_key. destruct (key (Prim2SF x)) as [[[a b] c]|]; cbn.
  - rewrite !Z.compare_refl. cbn. split; [eauto | reflexivity].
  - split; [discriminate | intros [? ?]; discriminate].
Qed.

Lemma ltb_key (x y : float) :
  (x <? y) = true <->
  exists a b, key (Prim2SF x) = Some a /\ key (Prim2SF y) = Some b /\ lex3 a b = Lt.
Proof.
  rewrite FloatAxioms.ltb_spec. unfold SFltb. rewrite SFcompare_key.
  destruct (key (Prim2SF x)) as [a|], (key (Prim2SF y)) as [b|]; cbn.
  - destruct (lex3 a b) eqn:E; split; try discriminate; eauto.
    + intros (? & ? & [= <-] & [= <-] & ?). congruence.
    + intros (? & ? & [= <-] & [= <-] & ?). congruence.
  - split; [discriminate | intros (? & ? & ? & ? & ?); discriminate].
  - split; [discriminate | intros (? & ? & ? & ? & ?); discriminate].
  - split; [discriminate | intros (? & ? & ? & ? & ?); discriminate].
Qed.

(** On numbers, [x <= y] is exactly "not [y < x]". *)
Lemma leb_not_gt (x y : float) :
  is_number x = true -> is_number y = true -> (x <=? y) = negb (y <? x).
Proof.
  intros [a Ha]%is_number_key [b Hb]%is_number_key.
  rewrite FloatAxioms.leb_spec, FloatAxioms.ltb_spec. unfold SFleb, SFltb.
  rewrite !SFcompare_key, Ha, Hb.
  rewrite (lex3_antisym a b). destruct (lex3 a b); reflexivity.
Qed.

Lemma ltb_trans (x y z : float) :
  (x <? y) = true -> (y <? z) = true -> (x <? z) = true.
Proof.
  intros (a & b & Ha & Hb & Hab)%ltb_key (b' & c & Hb' & Hc & Hbc)%ltb_key.
  rewrite Hb in Hb'. injection Hb' as <-.
  apply ltb_key. exists a, c. repeat split; try assumption.
  apply lex3_lt in Hab, Hbc. apply lex3_lt. lia.
Qed.

(** [x <= y < z] gives [x < z], with [x <= y] read as "not [y < x]". *)
Lemma le_ltb_trans (x y z : float) :
  is_number x = true -> (y <? x) = false -> (y <? z) = true -> (x <? z) = true.
Proof.
  intros [a Ha]%is_number_key Hyx (b & c & Hb & Hc & Hbc)%ltb_key.
  apply ltb_key. exists a, c. repeat split; try assumption.
  destruct (lex3 a c) eqn:E; try reflexivity; exfalso.
  - assert (lex3 b a = Lt) as Hba.
    { apply lex3_lt in Hbc. apply lex3_lt.
      destruct a as [[? ?] ?], c as [[? ?] ?]. cbn in E.
      destruct (Z.compare_spec z0 z3), (Z.compare_spec z1 z4), (Z.compare_spec z2 z5);
        try discriminate; subst; exact Hbc. }
    assert ((y <? x) = true) as Hyx'.
    { apply ltb_key. exists b, a. auto. }
    congruence.
  - apply lex3_gt in E.
    assert (lex3 b a = Lt) as Hba.
    { apply lex3_lt in Hbc, E. apply lex3_lt. lia. }
    assert ((y <? x) = true) as Hyx'.
    { apply ltb_key. exists b, a. auto. }
    congruence.
Qed.

Lemma ltb_asym (x y : float) : (x <? y) = true -> (y <? x) = false.
Proof.
  intros (a & b & Ha & Hb & Hab)%ltb_key.
  destruct (y <? x) eqn:E; [|reflexivity].
  apply ltb_key in E as (b' & a' & Hb' & Ha' & Hba).
  rewrite Ha in Ha'. rewrite Hb in Hb'. injection Ha' as <-. injection Hb' as <-.
  apply lex3_lt in Hab, Hba. lia.
Qed.

Lemma ltb_is_number_l (x y : float) : (x <? y) = true -> is_number x = true.
Proof. intros (a & b & Ha & _)%ltb_key. apply is_number_key. eauto. Qed.

Lemma ltb_is_number_r (x y : float) : (x <? y) = true -> is_number y = true.
Proof. intros (a & b & _ & Hb & _)%ltb_key. apply is_number_key. eauto. Qed.

(** *** Arithmetic on numbers gives numbers

    Rounding a non-negative mantissa never produces NaN, so neither do the
    difference of a number and a finite number, nor the product of two
    finite numbers. *)

Lemma shr_1_nonneg (mrs : shr_record) :
  (0 <= shr_m mrs)%Z -> (0 <= shr_m (shr_1 mrs))%Z.
Proof.
  destruct mrs as [m r s]. destruct m as [|[q|q|]|[q|q|]]; cbn; lia.
Qed.

Lemma iter_pos_invariant {A} (P : A -> Prop) (f : A -> A) :
  (forall x, P x -> P (f x)) ->
  forall (n : positive) (x : A), P x -> P (SpecFloat.iter_pos f n x).
Proof.
  intros Hf. induction n as [n IH|n IH|]; intros x Hx; cbn; auto.
Qed.

Lemma shr_nonneg (mrs : shr_record) (e n : Z) :
  (0 <= shr_m mrs)%Z -> (0 <= shr_m (shr mrs e n).1)%Z.
Proof.
  intros H. destruct n as [|q|q]; cbn; try exact H.
  apply (iter_pos_invariant (fun r => (0 <= shr_m r)%Z) shr_1 shr_1_nonneg).
  exact H.
Qed.

Lemma shr_record_of_loc_m (m : Z) (l : location) :
  shr_m (shr_record_of_loc m l) = m.
Proof. destruct l as [|[]]; reflexivity. Qed.

Lemma shr_fexp_nonneg (prec emax m e : Z) (l : location) :
  (0 <= m)%Z -> (0 <= shr_m (shr_fexp prec emax m e l).1)%Z.
Proof.
  intros H. unfold shr_fexp. apply shr_nonneg.
  rewrite shr_record_of_loc_m. exact H.
Qed.

Lemma round_nearest_even_nonneg (m : Z) (l : location) :
  (0 <= m)%Z -> (0 <= round_nearest_even m l)%Z.
Proof.
  intros H. destruct l as [|[]]; cbn; try exact H; [destruct (Z.even m)|]; lia.
Qed.

Lemma binary_round_aux_number (prec emax : Z) (sx : bool) (mx ex : Z)
    (lx : location) :
  (0 <= mx)%Z -> binary_round_aux prec emax sx mx ex lx <> S754_nan.
Proof.
  intros H. unfold binary_round_aux.
  pose proof (shr_fexp_nonneg prec emax mx ex lx H) as H1.
  destruct (shr_fexp prec emax mx ex lx) as [mrs' e']. cbn [fst] in H1.
  pose proof (shr_fexp_nonneg prec emax _ e' loc_Exact
                (round_nearest_even_nonneg _ (loc_of_shr_record mrs') H1)) as H2.
  destruct (shr_fexp prec emax _ e' loc_Exact) as [mrs'' e'']. cbn [fst] in H2.
  destruct (shr_m mrs'') as [|q|q]; [discriminate| |lia].
  destruct (e'' <=? emax - prec)%Z; discriminate.
Qed.

Lemma binary_normalize_number (prec emax m e : Z) (szero : bool) :
  binary_normalize prec emax m e szero <> S754_nan.
Proof.
  destruct m as [|q|q]; cbn [binary_normalize]; [discriminate| |];
    unfold binary_round; destruct (shl_align _ _ _) as [mz ez];
    apply binary_round_aux_number; lia.
Qed.

Lemma SFmul_number (prec emax : Z) (x y : spec_float) :
  finiteSF x = true -> finiteSF y = true -> SFmul prec emax x y <> S754_nan.
Proof.
  destruct x as [sx|sx| |sx mx ex], y as [sy|sy| |sy my ey]; cbn;
    try discriminate.
  intros _ _. apply binary_round_aux_number. lia.
Qed.

Lemma SFsub_number (prec emax : Z) (x y : spec_float) :
  x <> S754_nan -> finiteSF y = true -> SFsub prec emax x y <> S754_nan.
Proof.
  destruct x as [sx|sx| |sx mx ex], y as [sy|sy| |sy my ey]; cbn;
    try discriminate; try congruence.
  - intros _ _. destruct sx, sy; discriminate.
  - intros _ _. apply binary_normalize_number.
Qed.

Lemma is_number_not_nan (x : float) :
  is_number x = true <-> Prim2SF x <> S754_nan.
Proof.
  rewrite is_number_key. destruct (Prim2SF x) as [[]|[]| |[] m e]; cbn;
    split; try congruence; eauto; intros [? ?]; discriminate.
Qed.

Lemma finite_finiteSF (x : float) : finite x = true -> finiteSF (Prim2SF x) = true.
Proof.
  intros [Hlo Hhi]%andb_true_iff.
  apply ltb_key in Hlo as (a & b & Ha & Hb & Hab).
  apply ltb_key in Hhi as (b' & c & Hb' & Hc & Hbc).
  rewrite Hb in Hb'. injection Hb' as <-.
  assert (Prim2SF neg_infinity = S754_infinity true) as Hn by reflexivity.
  assert (Prim2SF infinity = S754_infinity false) as Hp by reflexivity.
  rewrite Hn in Ha. rewrite Hp in Hc. cbn in Ha, Hc.
  injection Ha as <-. injection Hc as <-.
  destruct (Prim2SF x) as [[]|[]| |[] m e]; cbn in *; try reflexivity;
    try discriminate; injection Hb as <-; cbn in *; discriminate.
Qed.

(** The difference of a number and a finite number is a number, and so is
    its absolute value. *)
Lemma abs_sub_number (a p : float) :
  is_number a = true -> finite p = true -> is_number (abs (a - p)) = true.
Proof.
  intros Ha%is_number_not_nan Hp%finite_finiteSF. apply is_number_not_nan.
  rewrite abs_spec, sub_spec.
  pose proof (SFsub_number prec emax _ _ Ha Hp) as Hs.
  unfold SF64sub. destruct (SFsub prec emax (Prim2SF a) (Prim2SF p));
    cbn; congruence.
Qed.

(** A finite number times a finite number is a number. *)
Lemma mul_number (p c : float) :
  finite p = true -> finite c = true -> is_number (p * c) = true.
Proof.
  intros Hp%finite_finiteSF Hc%finite_finiteSF. apply is_number_not_nan.
  rewrite mul_spec. apply SFmul_number; assumption.
Qed.

End F64Facts.

(** ** The transaction verifier *)
Module SolanaFacts.
Import F64 F64Facts Solana SolanaSamples.
Local Open Scope float_scope.

(** The fetch is the first thing the verifier does, and it does it once. *)
Lemma verify_fetches_once (c : Connection) (signature recipient : string) (p : float) :
  requests (verifySolanaTransaction c signature recipient p).2
  = requests c ++ [signature].
Proof.
  unfold verifySolanaTransaction, getTransaction.
  destruct (ledger c signature) as [msg|[tx|]]; reflexivity.
Qed.

Lemma verify_fetched (c : Connection) (signature recipient : string) (p : float)
    (tx : TransactionResponse) :
  ledger c signature = RpcValue (Some tx) ->
  (verifySolanaTransaction c signature recipient p).1
  = verifyRecord signature tx recipient p.
Proof.
  intros H. unfold verifySolanaTransaction, getTransaction. rewrite H. reflexivity.
Qed.

Example sample_payment_verifies :
  verified (verifyRecord "sig" (sampleTx None 1 ["Payer"; "Creator"]) "Creator" 1) = true.
Proof. vm_compute. reflexivity. Qed.

(** *** Failed transactions *)

(** C3. A fetched transaction record whose execution status is a failure is
    rejected as "Transaction failed on blockchain", whatever token balances it
    carries, whoever the expected recipient and whatever the expected amount. *)
Theorem failed_transaction_rejected (c : Connection) (signature recipient : string)
    (p : float) (tx : TransactionResponse) (e : TransactionError) :
  ledger c signature = RpcValue (Some tx) ->
  meta tx ≫= err = Some e ->
  let r := (verifySolanaTransaction c signature recipient p).1 in
  TransactionFailed r /\ details r = Some (DetailsError e).
Proof.
  intros Hfetch Herr r. subst r.
  rewrite (verify_fetched _ _ _ _ _ Hfetch).
  unfold verifyRecord. rewrite Herr. repeat split.
Qed.

(** The sample payment of exactly the price to the right recipient verifies
    when it succeeded on chain and is rejected when it carries an error. *)
Lemma failed_transaction_rejected_witness :
  verified (verifyRecord "sig" (sampleTx None 1 ["Payer"; "Creator"]) "Creator" 1) = true /\
  let tx := sampleTx (Some {| err_repr := "InstructionError" |}) 1 ["Payer"; "Creator"] in
  let r := (verifySolanaTransaction (sampleConnection tx) "sig" "Creator" 1).1 in
  TransactionFailed r /\
  details r = Some (DetailsError {| err_repr := "InstructionError" |}).
Proof.
  split; [vm_compute; reflexivity|].
  apply (failed_transaction_rejected
           (sampleConnection (sampleTx (Some {| err_repr := "InstructionError" |}) 1
                                ["Payer"; "Creator"]))
           "sig" "Creator" 1
           (sampleTx (Some {| err_repr := "InstructionError" |}) 1 ["Payer"; "Creator"])
           {| err_repr := "InstructionError" |});
    reflexivity.
Defined.

(** *** Recipient selection *)

Lemma verify_at_recipient_check (c : Connection) (signature recipient : string)
    (p : float) (tx : TransactionResponse) :
  reachesRecipientCheck c signature tx ->
  (verifySolanaTransaction c signature recipient p).1 =
  match findRecipientTransfer (transfersOf tx) tx recipient with
  | inr msg => rejected ("Verification failed: " ++ msg) None
  | inl None =>
      rejected "Expected recipient not found in transaction"
        (Some (DetailsRecipient recipient
                 (map (fun t => (owner t, change t)) (transfersOf tx))))
  | inl (Some t) => checkAmount signature tx t p
  end.
Proof.
  intros (Hfetch & Herr & Hne).
  rewrite (verify_fetched _ _ _ _ _ Hfetch).
  unfold verifyRecord. rewrite Herr. fold (transfersOf tx).
  destruct (transfersOf tx) eqn:E; [congruence|]. reflexivity.
Qed.

(** A candidate was found: no error was thrown on the way. *)
Lemma recipientTransfer_found (transfers : list Transfer) (tx : TransactionResponse)
    (recipient : string) (t : Transfer) :
  recipientTransfer transfers tx recipient = Some t ->
  findRecipientTransfer transfers tx recipient = inl (Some t).
Proof.
  unfold recipientTransfer.
  destruct (findRecipientTransfer transfers tx recipient) as [found|msg];
    [|discriminate].
  intros ->. reflexivity.
Qed.

(** [List.find] gives the first element that passes the test. *)
Lemma find_firstWhere {A} (test : A -> bool) (P : A -> Prop) (l : list A) :
  (forall x, test x = true <-> P x) ->
  (forall x, List.find test l = Some x <-> firstWhere P l x) /\
  (List.find test l = None <-> Forall (fun y => ~ P y) l).
Proof.
  intros Htest. induction l as [|y l [IHsome IHnone]]; cbn [List.find].
  - split.
    + intros x. split; [discriminate|].
      intros (before & after & Heq & _). destruct before; discriminate.
    + split; constructor.
  - destruct (test y) eqn:Hy.
    + split.
      * intros x. split.
        -- intros [= <-]. exists [], l. split; [reflexivity|].
           split; [apply Htest; exact Hy|constructor].
        -- intros (before & after & Heq & HP & Hbefore).
           destruct before as [|z before]; cbn in Heq.
           ++ congruence.
           ++ injection Heq as <- _. inversion Hbefore as [|? ? Hz _]; subst.
              exfalso. apply Hz, Htest. exact Hy.
      * split; [discriminate|].
        intros Hall. inversion Hall as [|? ? Hz _]; subst.
        exfalso. apply Hz, Htest. exact Hy.
    + assert (~ P y) as Hny by (intros HP; apply Htest in HP; congruence).
      split.
      * intros x. rewrite IHsome. split.
        -- intros (before & after & -> & HP & Hbefore).
           exists (y :: before), after. split; [reflexivity|].
           split; [exact HP|]. constructor; assumption.
        -- intros (before & after & Heq & HP & Hbefore).
           destruct before as [|z before]; cbn in Heq.
           ++ injection Heq as <- _. contradiction.
           ++ injection Heq as <- ->. inversion Hbefore; subst.
              exists before, after. auto.
      * rewrite IHnone. split.
        -- intros Hall. constructor; assumption.
        -- intros Hall. inversion Hall; assumption.
Qed.

Lemma ownerIs_positive_creditedTo (recipient : string) (t : Transfer) :
  ownerIs recipient t && positive t = true <-> creditedTo recipient t.
Proof.
  unfold ownerIs, positive, creditedTo. rewrite andb_true_iff.
  destruct (owner t) as [o|].
  - rewrite String.eqb_eq. split; intros [Ho Hp]; split; congruence.
  - split; intros [Ho Hp]; discriminate.
Qed.

Lemma keys_In (recipient : string) (keys : list string) :
  existsb (fun key => String.eqb key recipient) keys = true <-> In recipient keys.
Proof.
  rewrite existsb_exists. split.
  - intros (key & Hin & Heq). apply String.eqb_eq in Heq. congruence.
  - intros Hin. exists recipient. split; [exact Hin|apply String.eqb_refl].
Qed.

(** The selection of the recipient's transfer on a record whose message is
    a legacy message with account keys [keys]: the candidate is the first
    delta owned by the recipient with a positive change; when no delta is,
    it is the first delta with a positive change, provided the recipient is
    among the keys; the verifier goes on to the amount check with the
    candidate, and rejects with "Expected recipient not found in
    transaction" when there is none. *)
Theorem recipient_selection_legacy (c : Connection) (signature recipient : string)
    (p : float) (tx : TransactionResponse) (keys : list string) :
  reachesRecipientCheck c signature tx ->
  transaction tx = Some {| message := LegacyMessage keys |} ->
  let transfers := transfersOf tx in
  let r := (verifySolanaTransaction c signature recipient p).1 in
  (forall t, firstWhere (creditedTo recipient) transfers t ->
             r = checkAmount signature tx t p) /\
  (Forall (fun t => ~ creditedTo recipient t) transfers ->
   (forall t, In recipient keys -> firstWhere credit transfers t ->
              r = checkAmount signature tx t p) /\
   (~ In recipient keys \/ Forall (fun t => ~ credit t) transfers ->
    RecipientMismatch r)).
Proof.
  intros Hreach Hlegacy transfers r. subst r.
  rewrite (verify_at_recipient_check _ _ _ _ _ Hreach). fold transfers.
  unfold findRecipientTransfer. rewrite Hlegacy. cbn [message accountKeys].
  destruct (find_firstWhere (fun t => ownerIs recipient t && positive t)
              (creditedTo recipient) transfers
              (ownerIs_positive_creditedTo recipient)) as [Hsome Hnone].
  destruct (find_firstWhere positive credit transfers
              (fun t => conj (fun H => H) (fun H => H))) as [Hsome' Hnone'].
  split.
  - intros t Ht. apply Hsome in Ht. rewrite Ht. reflexivity.
  - intros Hno. apply Hnone in Hno. rewrite Hno. split.
    + intros t Hin Ht. apply keys_In in Hin. rewrite Hin.
      apply Hsome' in Ht. rewrite Ht. reflexivity.
    + intros [Hout|Hnocredit].
      * destruct (existsb _ keys) eqn:Hex.
        -- apply keys_In in Hex. contradiction.
        -- split; reflexivity.
      * apply Hnone' in Hnocredit. rewrite Hnocredit.
        destruct (existsb _ keys); split; reflexivity.
Qed.

(** The sample payment credits "Creator". Asked for "Creator", the credit is
    the candidate by its owner, whatever the account keys. Asked for
    "Other": with "Other" among the account keys the creator's credit is
    taken as the candidate and the payment verifies; without it the
    verifier reports the mismatch. *)
Example recipient_selection_legacy_sample :
  let credited := {| accountIndex := 2; owner := Some "Creator"; change := 1;
                     mint := USDC_MINT_MAINNET |} in
  (let tx := sampleTx None 1 [] in
   (verifySolanaTransaction (sampleConnection tx) "sig" "Creator" 1).1
   = checkAmount "sig" tx credited 1) /\
  (let tx := sampleTx None 1 ["Payer"; "Creator"; "Other"] in
   (verifySolanaTransaction (sampleConnection tx) "sig" "Other" 1).1
   = checkAmount "sig" tx credited 1) /\
  (let tx := sampleTx None 1 ["Payer"; "Creator"] in
   RecipientMismatch (verifySolanaTransaction (sampleConnection tx) "sig" "Other" 1).1).
Proof.
  cbv zeta.
  assert (forall keys,
            transfersOf (sampleTx None 1 keys)
            = [ {| accountIndex := 1; owner := Some "Payer"; change := -1;
                   mint := USDC_MINT_MAINNET |};
                {| accountIndex := 2; owner := Some "Creator"; change := 1;
                   mint := USDC_MINT_MAINNET |} ]) as Htransfers
    by (intros keys; vm_compute; reflexivity).
  assert (forall keys,
            reachesRecipientCheck (sampleConnection (sampleTx None 1 keys)) "sig"
              (sampleTx None 1 keys)) as Hreach
    by (intros keys; repeat split; rewrite Htransfers; discriminate).
  assert (forall keys,
            Forall (fun t => ~ creditedTo "Other" t)
              (transfersOf (sampleTx None 1 keys))) as Hnobody.
  { intros keys. rewrite Htransfers.
    constructor; [|constructor; [|constructor]]; intros [Ho _]; discriminate Ho. }
  split; [|split].
  - pose proof (recipient_selection_legacy _ "sig" "Creator" 1 _ []
                  (Hreach []) eq_refl) as [Howner _].
    apply Howner. rewrite Htransfers.
    exists [ {| accountIndex := 1; owner := Some "Payer"; change := -1;
                mint := USDC_MINT_MAINNET |} ], [].
    split; [reflexivity|]. split; [split; vm_compute; reflexivity|].
    constructor; [|constructor]. intros [Ho _]. discriminate Ho.
  - pose proof (recipient_selection_legacy _ "sig" "Other" 1 _
                  ["Payer"; "Creator"; "Other"]
                  (Hreach ["Payer"; "Creator"; "Other"]) eq_refl) as [_ Hfallback].
    destruct (Hfallback (Hnobody _)) as [Hkeys _].
    apply Hkeys; [cbn; auto|]. rewrite Htransfers.
    exists [ {| accountIndex := 1; owner := Some "Payer"; change := -1;
                mint := USDC_MINT_MAINNET |} ], [].
    split; [reflexivity|]. split; [vm_compute; reflexivity|].
    constructor; [|constructor]. unfold credit. vm_compute. discriminate.
  - pose proof (recipient_selection_legacy _ "sig" "Other" 1 _
                  ["Payer"; "Creator"]
                  (Hreach ["Payer"; "Creator"]) eq_refl) as [_ Hfallback].
    destruct (Hfallback (Hnobody _)) as [_ Hnone].
    apply Hnone. left. cbn. intros [H|[H|[]]]; discriminate H.
Qed.

(** C6. A version-0 transaction breaks the selection. The verifier asks the
    ledger for version-0 transactions, and reads [message.accountKeys],
    which such a message does not have: when no delta is owned by the
    recipient the lookup throws, and the verifier answers "Verification
    failed". The sample payment, asked for "Other" with "Other" among the
    keys, verifies in a legacy transaction and is refused in a version-0
    transaction; without "Other" among the keys the version-0 transaction
    is refused too, but not with "Expected recipient not found in
    transaction". *)
Theorem versioned_message_breaks_recipient_selection :
  let failed :=
    rejected ("Verification failed: " ++ someOfUndefined) None in
  verified (verifySolanaTransaction
              (sampleConnection (sampleTx None 1 ["Payer"; "Creator"; "Other"]))
              "sig" "Other" 1).1 = true /\
  (verifySolanaTransaction
     (sampleConnection (sampleTxV0 None 1 ["Payer"; "Creator"; "Other"]))
     "sig" "Other" 1).1 = failed /\
  (verifySolanaTransaction
     (sampleConnection (sampleTxV0 None 1 ["Payer"; "Creator"]))
     "sig" "Other" 1).1 = failed /\
  ~ RecipientMismatch failed.
Proof.
  cbv zeta. split; [vm_compute; reflexivity|].
  split; [vm_compute; reflexivity|].
  split; [vm_compute; reflexivity|].
  intros [_ Herror]. cbn in Herror. discriminate Herror.
Qed.

(** *** Amount tolerance *)

Lemma number_001 : is_number 0.01 = true.
Proof. vm_compute. reflexivity. Qed.

(** The test of the source is the complement of the tolerance band. *)
Lemma amountMismatch_band (a p : float) :
  is_number (abs (a - p)) = true ->
  is_number (p * 0.001) = true ->
  amountMismatch a p = negb (withinBand a p).
Proof.
  intros Hd Ht. unfold amountMismatch, withinBand, toleranceBand, fmax.
  set (d := abs (a - p)) in *. set (t := p * 0.001) in *.
  destruct (t <? 0.01) eqn:Etf.
  - rewrite (leb_not_gt d 0.01 Hd number_001), negb_involutive.
    destruct (0.01 <? d) eqn:Efd.
    + rewrite (ltb_trans t 0.01 d Etf Efd). reflexivity.
    + apply andb_false_r.
  - rewrite (leb_not_gt d t Hd Ht), negb_involutive.
    destruct (t <? d) eqn:Etd; [|reflexivity].
    rewrite (le_ltb_trans 0.01 t d number_001 Etf Etd). reflexivity.
Qed.

Lemma checkAmount_verified (signature : string) (tx : TransactionResponse)
    (t : Transfer) (p : float) :
  verified (checkAmount signature tx t p) = negb (amountMismatch (change t) p).
Proof. unfold checkAmount. destruct (amountMismatch (change t) p); reflexivity. Qed.

Lemma checkAmount_mismatch (signature : string) (tx : TransactionResponse)
    (t : Transfer) (p : float) :
  amountMismatch (change t) p = true ->
  AmountMismatch p (change t) (checkAmount signature tx t p).
Proof.
  intros H. unfold checkAmount. rewrite H. repeat split. eexists. reflexivity.
Qed.

(** The candidate is a credit: its change is positive, hence a number. *)
Lemma recipientTransfer_positive (transfers : list Transfer)
    (tx : TransactionResponse) (recipient : string) (t : Transfer) :
  recipientTransfer transfers tx recipient = Some t -> positive t = true.
Proof.
  unfold recipientTransfer, findRecipientTransfer.
  destruct (List.find (fun t => ownerIs recipient t && positive t) transfers)
    as [t'|] eqn:Hfind.
  - intros [= <-]. apply List.find_some in Hfind as [_ H].
    apply andb_true_iff in H. apply H.
  - destruct (transaction tx) as [txn|]; [|discriminate].
    destruct (accountKeys (message txn)) as [keys|]; [|discriminate].
    destruct (existsb _ _); [|discriminate].
    intros Hfind'. apply List.find_some in Hfind' as [_ H]. exact H.
Qed.

Lemma finite_0001 : finite 0.001 = true.
Proof. vm_compute. reflexivity. Qed.

(** C5. For every candidate delta, of amount [a], and every finite listing
    price [p], the verifier accepts exactly when [|a - p|] is within
    [max (p * 0.1%) 0.01], and otherwise rejects with "Transfer amount does
    not match expected amount", carrying the expected and the received
    amount. At a price of 10.00 a received 9.99 is accepted and a received
    9.00 is rejected. *)
Theorem amount_tolerance :
  (forall (c : Connection) (signature recipient : string) (p : float)
          (tx : TransactionResponse) (t : Transfer),
     reachesRecipientCheck c signature tx ->
     recipientTransfer (transfersOf tx) tx recipient = Some t ->
     finite p = true ->
     let r := (verifySolanaTransaction c signature recipient p).1 in
     verified r = withinBand (change t) p /\
     (withinBand (change t) p = false -> AmountMismatch p (change t) r)) /\
  (let tx := sampleTx None 9.99 ["Payer"; "Creator"] in
   let r := (verifySolanaTransaction (sampleConnection tx) "sig" "Creator" 10).1 in
   verified r = true) /\
  (let tx := sampleTx None 9 ["Payer"; "Creator"] in
   let r := (verifySolanaTransaction (sampleConnection tx) "sig" "Creator" 10).1 in
   AmountMismatch 10 9 r).
Proof.
  split; [|split].
  - intros c signature recipient p tx t Hreach Hcand Hp r. subst r.
    assert (is_number (abs (change t - p)) = true) as Hd.
    { apply abs_sub_number; [|exact Hp].
      apply (ltb_is_number_r 0), (recipientTransfer_positive _ _ _ _ Hcand). }
    assert (is_number (p * 0.001) = true) as Ht
      by (apply mul_number; [exact Hp|exact finite_0001]).
    rewrite (verify_at_recipient_check _ _ _ _ _ Hreach),
      (recipientTransfer_found _ _ _ _ Hcand).
    rewrite checkAmount_verified, (amountMismatch_band _ _ Hd Ht), negb_involutive.
    split; [reflexivity|].
    intros Hout. apply checkAmount_mismatch.
    rewrite (amountMismatch_band _ _ Hd Ht), Hout. reflexivity.
  - vm_compute. reflexivity.
  - repeat split; try (vm_compute; reflexivity).
    eexists. vm_compute. reflexivity.
Qed.

(** The general statement applied to the two amounts of the example. *)
Lemma amount_tolerance_witness :
  (let tx := sampleTx None 9.99 ["Payer"; "Creator"] in
   let r := (verifySolanaTransaction (sampleConnection tx) "sig" "Creator" 10).1 in
   withinBand 9.99 10 = true /\ verified r = true) /\
  (let tx := sampleTx None 9 ["Payer"; "Creator"] in
   let r := (verifySolanaTransaction (sampleConnection tx) "sig" "Creator" 10).1 in
   withinBand 9 10 = false /\ AmountMismatch 10 9 r).
Proof.
  destruct amount_tolerance as (Hgen & _ & _).
  split.
  - pose proof (Hgen (sampleConnection (sampleTx None 9.99 ["Payer"; "Creator"]))
                  "sig" "Creator" 10 (sampleTx None 9.99 ["Payer"; "Creator"])
                  {| accountIndex := 2; owner := Some "Creator"; change := 9.99;
                     mint := USDC_MINT_MAINNET |}) as H.
    destruct H as (Hv & _).
    + repeat split; vm_compute; congruence.
    + vm_compute. reflexivity.
    + vm_compute. reflexivity.
    + split; [vm_compute; reflexivity|]. rewrite Hv. vm_compute. reflexivity.
  - pose proof (Hgen (sampleConnection (sampleTx None 9 ["Payer"; "Creator"]))
                  "sig" "Creator" 10 (sampleTx None 9 ["Payer"; "Creator"])
                  {| accountIndex := 2; owner := Some "Creator"; change := 9;
                     mint := USDC_MINT_MAINNET |}) as H.
    destruct H as (_ & Hrej).
    + repeat split; vm_compute; congruence.
    + vm_compute. reflexivity.
    + vm_compute. reflexivity.
    + split; [vm_compute; reflexivity|]. apply Hrej. vm_compute. reflexivity.
Defined.

End SolanaFacts.

(** ** Strings: splitting, and the base64url layer *)
Module JsFacts.
Import Js.
Local Open Scope string_scope.

Lemma allChars_impl (p q : Ascii.ascii -> bool) (s : string) :
  (forall c, p c = true -> q c = true) ->
  allChars p s = true -> allChars q s = true.
Proof.
  intros Hpq. induction s as [|c s IH]; cbn -[Ascii.eqb]; [reflexivity|].
  intros [Hc Hs]%andb_true_iff. rewrite (Hpq c Hc), (IH Hs). reflexivity.
Qed.

Lemma split_noChar (sep : Ascii.ascii) (s : string) :
  noChar sep s = true -> split sep s = [s].
Proof.
  induction s as [|c s IH]; cbn -[Ascii.eqb]; [reflexivity|].
  intros [Hc Hs]%andb_true_iff. apply negb_true_iff in Hc.
  rewrite Hc, (IH Hs). reflexivity.
Qed.

Lemma append_cons (c : Ascii.ascii) (a b : string) :
  String c a ++ b = String c (a ++ b).
Proof. reflexivity. Qed.

Lemma append_nil_l (s : string) : EmptyString ++ s = s.
Proof. reflexivity. Qed.

Lemma split_app (sep : Ascii.ascii) (a b : string) :
  noChar sep a = true ->
  split sep (a ++ String sep b) = a :: split sep b.
Proof.
  induction a as [|c a IH].
  - intros _. rewrite append_nil_l. cbn -[Ascii.eqb].
    rewrite Ascii.eqb_refl. reflexivity.
  - rewrite append_cons. cbn -[Ascii.eqb].
    intros [Hc Ha]%andb_true_iff. apply negb_true_iff in Hc.
    rewrite Hc, (IH Ha). reflexivity.
Qed.

Lemma split_three (a b c : string) :
  noChar "." a = true -> noChar "." b = true -> noChar "." c = true ->
  split "." (a ++ "." ++ b ++ "." ++ c) = [a; b; c].
Proof.
  intros Ha Hb Hc.
  change (a ++ "." ++ b ++ "." ++ c)
    with (a ++ String "." (b ++ String "." c)).
  rewrite (split_app _ _ _ Ha), (split_app _ _ _ Hb), (split_noChar _ _ Hc).
  reflexivity.
Qed.

Lemma split_empty_token (sep : Ascii.ascii) (a b c : string) :
  split sep EmptyString <> [a; b; c].
Proof. cbn. congruence. Qed.

End JsFacts.

(** ** The access token *)
Module JwtFacts.
Import Js JsFacts Jwt.
Local Open Scope string_scope.

(** *** base64url over base64 *)

Lemma base64Char_round_trip (c : Ascii.ascii) :
  isBase64Char c = true ->
  encodeChars (String c EmptyString) <> EmptyString /\
  allChars isBase64UrlChar (encodeChars (String c EmptyString)) = true /\
  decodeChars (encodeChars (String c EmptyString)) = String c EmptyString /\
  Ascii.eqb c "=" = false.
Proof.
  destruct c as [[] [] [] [] [] [] [] []]; vm_compute; intros Hc;
    try discriminate Hc; repeat split; congruence.
Qed.

Lemma encodeChars_cons (c : Ascii.ascii) (t : string) :
  encodeChars (String c t) = encodeChars (String c EmptyString) ++ encodeChars t.
Proof.
  unfold encodeChars. cbn -[Ascii.eqb].
  destruct (Ascii.eqb _ "="); reflexivity.
Qed.

Lemma decodeChars_app (u v : string) :
  decodeChars (u ++ v) = decodeChars u ++ decodeChars v.
Proof.
  unfold decodeChars. induction u as [|c u IH]; [reflexivity|].
  rewrite append_cons. cbn -[Ascii.eqb]. rewrite IH. reflexivity.
Qed.

Lemma allChars_app (p : Ascii.ascii -> bool) (u v : string) :
  allChars p (u ++ v) = allChars p u && allChars p v.
Proof.
  induction u as [|c u IH]; [reflexivity|].
  rewrite append_cons. cbn. rewrite IH. apply andb_assoc.
Qed.

(** On base64 text, decoding the characters undoes encoding them up to the
    padding, and the encoded text is in the base64url alphabet. *)
Lemma encodeChars_body (t : string) :
  base64Body t = true ->
  decodeChars (encodeChars t) = removeChar "=" t /\
  allChars isBase64UrlChar (encodeChars t) = true.
Proof.
  induction t as [|c t IH]; [split; reflexivity|].
  cbn [base64Body]. destruct (isBase64Char c) eqn:Hc.
  - intros Ht. destruct (IH Ht) as [IHd IHa].
    destruct (base64Char_round_trip c Hc) as (_ & Ha & Hd & Hne).
    rewrite encodeChars_cons, decodeChars_app, allChars_app, Hd, IHd, Ha, IHa.
    split; [|reflexivity].
    cbn -[Ascii.eqb]. rewrite Hne. reflexivity.
  - intros [->%String.eqb_eq | ->%String.eqb_eq]%orb_true_iff;
      split; reflexivity.
Qed.

Lemma urlChar_not_dot (c : Ascii.ascii) :
  isBase64UrlChar c = true -> negb (Ascii.eqb c ".") = true.
Proof.
  destruct c as [[] [] [] [] [] [] [] []]; vm_compute; congruence.
Qed.

(** A base64url text holds no ['.']. *)
Lemma encodeChars_noDot (t : string) :
  base64Body t = true -> noChar "." (encodeChars t) = true.
Proof.
  intros Ht. apply (allChars_impl isBase64UrlChar); [apply urlChar_not_dot|].
  apply encodeChars_body, Ht.
Qed.

(** Base64 text is its characters followed by its padding. *)
Lemma base64Body_padding (t : string) :
  base64Body t = true ->
  exists pad, t = removeChar "=" t ++ pad /\
              (pad = EmptyString \/ pad = "=" \/ pad = "==").
Proof.
  induction t as [|c t IH]; [exists EmptyString; auto|].
  cbn [base64Body]. destruct (isBase64Char c) eqn:Hc.
  - intros Ht. destruct (IH Ht) as (pad & Heq & Hpad).
    destruct (base64Char_round_trip c Hc) as (_ & _ & _ & Hne).
    exists pad. split; [|exact Hpad].
    cbn -[Ascii.eqb]. rewrite Hne, append_cons, <- Heq. reflexivity.
  - intros [->%String.eqb_eq | ->%String.eqb_eq]%orb_true_iff.
    + exists "=". auto.
    + exists "==". auto.
Qed.

Lemma length_append (u v : string) :
  String.length (u ++ v) = String.length u + String.length v.
Proof.
  induction u as [|c u IH]; [reflexivity|].
  rewrite append_cons. cbn. rewrite IH. reflexivity.
Qed.

Lemma append_assoc (u v w : string) : (u ++ v) ++ w = u ++ (v ++ w).
Proof.
  induction u as [|c u IH]; [reflexivity|].
  rewrite !append_cons, IH. reflexivity.
Qed.

Lemma append_nil_r (u : string) : u ++ EmptyString = u.
Proof.
  induction u as [|c u IH]; [reflexivity|].
  rewrite append_cons, IH. reflexivity.
Qed.

(** The padding loop restores the padding that [base64UrlEncode] removed. *)
Lemma padLoop_restores (t : string) :
  wellFormedBase64 t = true -> padLoop 3 (removeChar "=" t) = t.
Proof.
  intros [Hbody Hlen]%andb_true_iff. apply Nat.eqb_eq in Hlen.
  destruct (base64Body_padding t Hbody) as (pad & Heq & Hpad).
  remember (removeChar "=" t) as body eqn:Hb. clear Hb Hbody. subst t.
  rewrite length_append, <- Nat.Div0.add_mod_idemp_l in Hlen.
  assert (String.length body mod 4 < 4) as Hlt
    by (apply Nat.mod_upper_bound; discriminate).
  cbn [padLoop].
  rewrite !length_append, <- Nat.add_assoc.
  rewrite <- (Nat.Div0.add_mod_idemp_l (String.length body) (String.length "=")).
  rewrite <- (Nat.Div0.add_mod_idemp_l (String.length body)
                (String.length "=" + String.length "=")).
  destruct (String.length body mod 4) as [|[|[|[|r]]]]; [| | | |lia];
    destruct Hpad as [-> | [-> | ->]]; cbn in Hlen; try discriminate Hlen; cbn.
  - symmetry. apply append_nil_r.
  - apply append_assoc.
  - reflexivity.
Qed.

Section WithRuntime.
Context `{Runtime}.
Variable env : Env.

Lemma base64Url_round_trip (str : string) :
  bufferFromBase64 (bufferToBase64 str) = str ->
  wellFormedBase64 (bufferToBase64 str) = true ->
  base64UrlDecode (base64UrlEncode str) = str.
Proof.
  intros Hrt Hwf. unfold base64UrlDecode, base64UrlEncode.
  fold (encodeChars (bufferToBase64 str)).
  fold (decodeChars (encodeChars (bufferToBase64 str))).
  pose proof Hwf as [Hbody _]%andb_true_iff.
  destruct (encodeChars_body _ Hbody) as [-> _].
  rewrite (padLoop_restores _ Hwf). exact Hrt.
Qed.

Lemma base64UrlEncode_noDot (str : string) :
  wellFormedBase64 (bufferToBase64 str) = true ->
  noChar "." (base64UrlEncode str) = true.
Proof.
  intros [Hbody _]%andb_true_iff. apply (encodeChars_noDot _ Hbody).
Qed.

(** *** The checks of [verifyAccessToken], in order *)

Lemma verifyAccessToken_parts (token h p s : string) (now : Z) :
  split "." token = [h; p; s] ->
  verifyAccessToken env token now =
  if negb (String.eqb s (createSignature env (h ++ "." ++ p))) then
    (None, Some InvalidTokenSignature)
  else
    match JSON_parse (base64UrlDecode p) with
    | None => (None, Some TokenVerificationError)
    | Some JNull => (None, Some TokenVerificationError)
    | Some payload =>
        if expired payload now then (None, Some TokenExpired)
        else (Some payload, None)
    end.
Proof.
  intros Hsplit. unfold verifyAccessToken.
  destruct token as [|c token]; [cbn in Hsplit; congruence|].
  cbn [String.eqb]. rewrite Hsplit. reflexivity.
Qed.

(** A token is accepted exactly when it has three segments, the third is the
    signature of the first two, the second decodes to a JSON value other than
    [null], and that value's [exp] is falsy or not before [now]. *)
Lemma verifyAccessToken_accepts (token : string) (now : Z) (payload : Json) :
  (verifyAccessToken env token now).1 = Some payload <->
  exists h p s,
    split "." token = [h; p; s] /\
    s = createSignature env (h ++ "." ++ p) /\
    JSON_parse (base64UrlDecode p) = Some payload /\
    payload <> JNull /\
    expired payload now = false.
Proof.
  split.
  - unfold verifyAccessToken.
    destruct (String.eqb token EmptyString); [discriminate|].
    destruct (split "." token) as [|h [|p [|s [|]]]] eqn:Hsplit; try discriminate.
    destruct (String.eqb_spec s (createSignature env (h ++ "." ++ p)))
      as [Hs|Hs]; cbn [negb]; [|discriminate].
    destruct (JSON_parse (base64UrlDecode p)) as [v|] eqn:Hparse; [|discriminate].
    destruct (expired v now) eqn:Hexp; destruct v; try discriminate;
      intros [= <-]; exists h, p, s; repeat split; auto; discriminate.
  - intros (h & p & s & Hsplit & -> & Hparse & Hnull & Hexp).
    rewrite (verifyAccessToken_parts _ _ _ _ _ Hsplit).
    rewrite String.eqb_refl, Hparse, Hexp. cbn [negb].
    destruct payload; try reflexivity. congruence.
Qed.

(** The token made by [encodeAndSign] splits into its three segments and
    decodes to the claims that were signed. *)
Lemma encodeAndSign_verifies (claims : Json) (now : Z) :
  runtimeSoundOn env claims ->
  claims <> JNull ->
  verifyAccessToken env (encodeAndSign env claims) now =
  if expired claims now then (None, Some TokenExpired) else (Some claims, None).
Proof.
  intros (Hparse & Hrt & Hwf & Hwfh & Hwfs) Hnull.
  unfold encodeAndSign.
  set (eh := base64UrlEncode (JSON_stringify header)) in *.
  set (ep := base64UrlEncode (JSON_stringify claims)) in *.
  rewrite (verifyAccessToken_parts _ eh ep (createSignature env (eh ++ "." ++ ep))).
  - rewrite String.eqb_refl. cbn [negb]. subst ep.
    rewrite (base64Url_round_trip _ Hrt Hwf), Hparse.
    destruct claims; try reflexivity. congruence.
  - apply split_three.
    + apply base64UrlEncode_noDot, Hwfh.
    + apply base64UrlEncode_noDot, Hwf.
    + apply base64UrlEncode_noDot, Hwfs.
Qed.

(** C9. A token whose signature verifies and whose decoded payload is an
    object without an [exp] field is accepted by [verifyAccessToken] at every
    point in time: expiry is enforced only when an [exp] claim is present. *)
Theorem token_without_exp_never_expires (token h p s : string)
    (o : gmap string Json) :
  split "." token = [h; p; s] ->
  s = createSignature env (h ++ "." ++ p) ->
  JSON_parse (base64UrlDecode p) = Some (JObj o) ->
  o !! "exp" = None ->
  forall now : Z, verifyAccessToken env token now = (Some (JObj o), None).
Proof.
  intros Hsplit -> Hparse Hexp now.
  rewrite (verifyAccessToken_parts _ _ _ _ _ Hsplit).
  rewrite String.eqb_refl, Hparse. cbn [negb].
  unfold expired. cbn [prop]. rewrite Hexp. reflexivity.
Qed.

(** C8 (as the code has it). A token freshly issued from a payload, validated
    at any time up to its expiry, is accepted and returns the payload with
    [iat] set to the time of issue and [exp] to that time plus the time to
    live; every other field is returned as it was given. *)
Theorem credential_round_trip (payload : gmap string Json) (ttl t0 t1 : Z) :
  let claims := claimsOf payload ttl t0 in
  runtimeSoundOn env (JObj claims) ->
  (t1 <= t0 + ttl)%Z ->
  verifyAccessToken env (generateAccessToken env payload ttl t0) t1
    = (Some (JObj claims), None) /\
  claims !! "iat" = Some (JNum t0) /\
  claims !! "exp" = Some (JNum (t0 + ttl)) /\
  (forall k, k <> "iat" -> k <> "exp" -> claims !! k = payload !! k).
Proof.
  intros claims Hsound Ht. split; [|split; [|split]].
  - unfold generateAccessToken. fold claims.
    rewrite (encodeAndSign_verifies _ _ Hsound) by discriminate.
    unfold expired. cbn [prop].
    replace (claims !! "exp") with (Some (JNum (t0 + ttl)))
      by (symmetry; apply lookup_insert_eq).
    cbn [truthy lessThan].
    replace (t0 + ttl <? t1)%Z with false by (symmetry; apply Z.ltb_ge; exact Ht).
    rewrite andb_false_r. reflexivity.
  - unfold claims, claimsOf. rewrite lookup_insert_ne by discriminate.
    apply lookup_insert_eq.
  - apply lookup_insert_eq.
  - intros k Hiat Hexp. unfold claims, claimsOf.
    rewrite !lookup_insert_ne by congruence. reflexivity.
Qed.

End WithRuntime.

(** *** On concrete tokens *)

Import NodeRuntime Samples.
#[local] Existing Instance runtime.

Lemma token_without_exp_never_expires_witness :
  let token := encodeAndSign production (JObj claimsWithoutExp) in
  verifyAccessToken production token 1700000001
    = (Some (JObj claimsWithoutExp), None) /\
  verifyAccessToken production token 253402300800
    = (Some (JObj claimsWithoutExp), None).
Proof.
  assert (forall now : Z,
            verifyAccessToken production
              (encodeAndSign production (JObj claimsWithoutExp)) now
            = (Some (JObj claimsWithoutExp), None)) as Hall.
  { eapply (token_without_exp_never_expires production).
    - vm_compute. reflexivity.
    - vm_compute. reflexivity.
    - vm_compute. reflexivity.
    - vm_compute. reflexivity. }
  split; apply Hall.
Defined.

Lemma credential_round_trip_witness :
  let claims := claimsOf samplePayload 604800 1700000000 in
  verifyAccessToken production
    (generateAccessToken production samplePayload 604800 1700000000)
    1700003600
  = (Some (JObj claims), None) /\
  claims !! "contentId" = samplePayload !! "contentId".
Proof.
  pose proof (credential_round_trip production samplePayload
                604800 1700000000 1700003600) as Hrt.
  cbv zeta in Hrt.
  assert (runtimeSoundOn production
            (JObj (claimsOf samplePayload 604800 1700000000))) as Hsound
    by (repeat split; vm_compute; reflexivity).
  assert (1700003600 <= 1700000000 + 604800)%Z as Ht by (vm_compute; discriminate).
  destruct (Hrt Hsound Ht) as (Hok & _ & _ & Hsame).
  split; [exact Hok|]. apply Hsame; discriminate.
Defined.

(** What comes back is not the payload that went in: it has gained [iat]
    and [exp]. *)
Lemma credential_round_trip_not_identity :
  let issued := generateAccessToken production samplePayload
                  604800 1700000000 in
  exists returned : gmap string Json,
    (verifyAccessToken production issued 1700003600).1
      = Some (JObj returned) /\
    returned !! "exp" = Some (JNum 1700604800) /\
    samplePayload !! "exp" = None /\
    JObj returned <> JObj samplePayload.
Proof.
  exists (claimsOf samplePayload 604800 1700000000).
  split; [vm_compute; reflexivity|].
  split; [vm_compute; reflexivity|].
  split; [vm_compute; reflexivity|].
  intros Heq. apply (f_equal (fun j => prop j "exp")) in Heq.
  vm_compute in Heq. discriminate.
Qed.

End JwtFacts.

(** ** The gate's token check *)
Module X402Facts.
Import Js JsFacts Jwt JwtFacts X402 Samples.
Local Open Scope string_scope.

Section WithRuntime.
Context `{Runtime}.
Variable env : Env.

Lemma tokenGrants_iff (claims : Json) (contentId : string) :
  tokenGrants (Some claims) contentId = true <->
  strictEqString (prop claims "contentId") contentId = true /\
  strictEqString (prop claims "type") "payment" = true.
Proof.
  unfold tokenGrants. rewrite !andb_true_iff. split.
  - intros [[_ ?] ?]. auto.
  - intros [Hc Ht]. repeat split; try assumption.
    destruct claims; cbn in Hc; try discriminate. reflexivity.
Qed.

(** How [payload.exp && payload.exp < now] reads on the claims: a missing
    [exp] never expires, and a numeric one expires when it is non-zero and
    before [now]. *)
Lemma expired_without_exp (claims : Json) (now : Z) :
  prop claims "exp" = None -> expired claims now = false.
Proof. intros Hexp. unfold expired. rewrite Hexp. reflexivity. Qed.

Lemma expired_numeric (claims : Json) (e now : Z) :
  prop claims "exp" = Some (JNum e) ->
  expired claims now = negb (e =? 0)%Z && (e <? now)%Z.
Proof. intros Hexp. unfold expired. rewrite Hexp. reflexivity. Qed.

(** C4 (as the code has it). The gate accepts a credential exactly when the
    token has three segments of which the third is the signature recomputed
    over the first two, the claims decode, [claims.type] is "payment",
    [claims.contentId] is the requested content, and the token is not expired,
    where expiry is enforced only on a truthy [exp]: a numeric [exp] expires
    the token when it is non-zero and before [now], and a token without [exp]
    never expires. On a signature mismatch [verifyAccessToken] returns [null]
    and logs 'Invalid token signature'; on expiry it returns [null] and logs
    'Token expired'; it does not look at the type, which the gate tests. *)
Theorem credential_validation (token contentId : string) (now : Z) :
  (tokenGrants (verifyAccessToken env token now).1 contentId = true <->
   exists h p s claims,
     split "." token = [h; p; s] /\
     s = createSignature env (h ++ "." ++ p) /\
     JSON_parse (base64UrlDecode p) = Some claims /\
     strictEqString (prop claims "type") "payment" = true /\
     strictEqString (prop claims "contentId") contentId = true /\
     expired claims now = false) /\
  (forall h p s,
     split "." token = [h; p; s] ->
     s <> createSignature env (h ++ "." ++ p) ->
     verifyAccessToken env token now = (None, Some InvalidTokenSignature)) /\
  (forall h p s claims,
     split "." token = [h; p; s] ->
     s = createSignature env (h ++ "." ++ p) ->
     JSON_parse (base64UrlDecode p) = Some claims ->
     expired claims now = true ->
     verifyAccessToken env token now = (None, Some TokenExpired)) /\
  (forall claims,
     strictEqString (prop claims "type") "payment" = false ->
     tokenGrants (Some claims) contentId = false) /\
  (forall claims, prop claims "exp" = None -> expired claims now = false) /\
  (forall claims e,
     prop claims "exp" = Some (JNum e) ->
     expired claims now = negb (e =? 0)%Z && (e <? now)%Z).
Proof.
  split; [|split; [|split; [|split; [|split]]]].
  - split.
    + destruct (verifyAccessToken env token now).1 as [claims|] eqn:Hv;
        [|discriminate].
      intros [Hc Ht]%tokenGrants_iff.
      apply verifyAccessToken_accepts in Hv
        as (h & p & s & Hsplit & Hs & Hparse & _ & Hexp).
      exists h, p, s, claims. auto 10.
    + intros (h & p & s & claims & Hsplit & Hs & Hparse & Ht & Hc & Hexp).
      assert ((verifyAccessToken env token now).1 = Some claims) as ->.
      { apply verifyAccessToken_accepts. exists h, p, s.
        repeat split; try assumption.
        intros ->. discriminate Ht. }
      apply tokenGrants_iff. auto.
  - intros h p s Hsplit Hs.
    rewrite (verifyAccessToken_parts _ _ _ _ _ _ Hsplit).
    destruct (String.eqb_spec s (createSignature env (h ++ "." ++ p)));
      [contradiction|reflexivity].
  - intros h p s claims Hsplit -> Hparse Hexp.
    rewrite (verifyAccessToken_parts _ _ _ _ _ _ Hsplit).
    rewrite String.eqb_refl, Hparse, Hexp. cbn [negb].
    destruct claims; try reflexivity. discriminate Hexp.
  - intros claims Ht. unfold tokenGrants. rewrite Ht. apply andb_false_r.
  - intros claims. apply expired_without_exp.
  - intros claims e. apply expired_numeric.
Qed.

End WithRuntime.

Import NodeRuntime.
#[local] Existing Instance runtime.

(** A credential that passes the gate although its expiry lies in the past:
    the token is signed, names the content and the type "payment", and
    carries [exp = 0]. *)
Lemma credential_validation_counterexample :
  let token := encodeAndSign production (JObj claimsExpiredAtEpoch) in
  let now := 1700000000%Z in
  (verifyAccessToken production token now).1
    = Some (JObj claimsExpiredAtEpoch) /\
  tokenGrants (verifyAccessToken production token now).1
    "3f2b8c1e-5d4a-4e6f-9a7b-0c1d2e3f4a5b" = true /\
  expiryPassed (JObj claimsExpiredAtEpoch) now = true.
Proof. repeat split; vm_compute; reflexivity. Qed.

(** The statement applied to the issued sample token: it passes for its own
    content within its lifetime, so it has the three segments and the
    signature the statement describes; with a character appended it no longer
    carries the signature. *)
Lemma credential_validation_witness :
  let token := generateAccessToken production samplePayload
                 604800 1700000000 in
  (exists h p s claims,
     split "." token = [h; p; s] /\
     s = createSignature production (h ++ "." ++ p) /\
     JSON_parse (base64UrlDecode p)
       = Some claims /\
     strictEqString (prop claims "type") "payment" = true /\
     strictEqString (prop claims "contentId")
       "3f2b8c1e-5d4a-4e6f-9a7b-0c1d2e3f4a5b" = true /\
     expired claims 1700003600 = false) /\
  verifyAccessToken production (token ++ "x") 1700003600
    = (None, Some InvalidTokenSignature).
Proof.
  pose proof (credential_validation production
                (generateAccessToken production samplePayload
                   604800 1700000000)
                "3f2b8c1e-5d4a-4e6f-9a7b-0c1d2e3f4a5b" 1700003600)
    as (Hiff & _).
  pose proof (credential_validation production
                (generateAccessToken production samplePayload
                   604800 1700000000 ++ "x")
                "3f2b8c1e-5d4a-4e6f-9a7b-0c1d2e3f4a5b" 1700003600)
    as (_ & Hsig & _).
  split.
  - apply Hiff. vm_compute. reflexivity.
  - apply (Hsig
             (base64UrlEncode (JSON_stringify header))
             (base64UrlEncode
                (JSON_stringify (JObj (claimsOf samplePayload 604800 1700000000))))
             (createSignature production
                (base64UrlEncode (JSON_stringify header) ++ "."
                 ++ base64UrlEncode
                      (JSON_stringify
                         (JObj (claimsOf samplePayload 604800 1700000000))))
              ++ "x")).
    + vm_compute. reflexivity.
    + vm_compute. discriminate.
Defined.

End X402Facts.

(** ** Effects: running the asynchronous code *)
Module EffectsFacts.
Import Store Effects.
Local Open Scope string_scope.

Lemma bind_run {A B} (m : M A) (k : A -> M B) (w : World) :
  (m ≫= k) w =
  match m w with
  | (Ok a, w') => k a w'
  | (Throw e, w') => (Throw e, w')
  end.
Proof. reflexivity. Qed.

Lemma ret_run {A} (a : A) (w : World) : mret (M := M) a w = (Ok a, w).
Proof. reflexivity. Qed.

Lemma driverCall_ok (w : World) : faults w = [] -> driverCall w = (Ok (), w).
Proof. intros Hf. unfold driverCall. rewrite Hf. reflexivity. Qed.

Lemma query_ok (stmt : Statement) (w : World) :
  faults w = [] ->
  query stmt w =
  match exec (clock w) stmt (committed w) with
  | Some (rows, db') => (Ok rows, setDb w db' (session w) [])
  | None => (Throw "statement failed", w)
  end.
Proof.
  intros Hf. unfold query, poolConnect, clientQuery.
  rewrite bind_run, (driverCall_ok _ Hf), bind_run, (driverCall_ok _ Hf).
  unfold runStatement. rewrite Hf.
  destruct (exec (clock w) stmt (committed w)) as [[rows db']|]; reflexivity.
Qed.

(** A row inserted under a generated id: the parameters fit their columns
    and the content id names a listing. *)
Lemma insertPayment_generated (n : nat) (cid payer : string) (amount : float)
    (signature status : string) (now : Z) (db : Db) (row : PaymentLog) (db' : Db) :
  insertPayment (GeneratedId n) cid payer amount signature status now db
  = Some (row, db') ->
  fitsColumns payer amount signature = true /\
  is_Some (content db !! cid) /\
  row = {| id := GeneratedId n; content_id := cid; payer_wallet := payer;
           amount_usdc := amount; transaction_signature := signature;
           payment_status := status; paid_at := now |} /\
  db' = {| content := content db; payment_logs := payment_logs db ++ [row] |}.
Proof.
  unfold insertPayment.
  destruct (fitsColumns payer amount signature); [|discriminate].
  cbn [negb uuidOf duplicateKey].
  destruct (content db !! cid) as [listing|]; [|discriminate].
  cbn. destruct (validStatus status); [|discriminate].
  cbn. intros [= <- <-]. eauto.
Qed.

(** *** What one call of the driver can do *)

Lemma driverCall_view (w w1 : World) (r : Outcome unit) :
  driverCall w = (r, w1) -> dbView w1 = dbView w.
Proof.
  unfold driverCall.
  destruct (faults w) as [|[] f]; intros [= <- <-]; reflexivity.
Qed.

(** A statement of the client inside its transaction fails and changes
    nothing, or runs on the transaction's view and leaves the committed data
    alone. *)
Lemma clientQuery_session (stmt : Statement) (w w1 : World) (r : Outcome Rows)
    (c0 view : Db) (t : Z) :
  dbView w = (c0, Some view, t) ->
  clientQuery Client stmt w = (r, w1) ->
  (exists e, r = Throw e /\ dbView w1 = (c0, Some view, t)) \/
  (exists rows view',
     r = Ok rows /\ exec t stmt view = Some (rows, view') /\
     dbView w1 = (c0, Some view', t)).
Proof.
  intros Hview. unfold clientQuery. rewrite bind_run.
  destruct (driverCall w) as [[[]|e] w0] eqn:Hd.
  - apply driverCall_view in Hd. rewrite Hview in Hd.
    unfold dbView in Hd. injection Hd as Hc Hs Ht.
    unfold runStatement. rewrite Hs, Ht.
    destruct (exec t stmt view) as [[rows view']|] eqn:He.
    + intros [= <- <-]. right. exists rows, view'.
      repeat split. unfold dbView. cbn. rewrite Hc, Ht. reflexivity.
    + intros [= <- <-]. left. eexists. split; [reflexivity|].
      unfold dbView. rewrite Hc, Hs, Ht. reflexivity.
  - apply driverCall_view in Hd. rewrite Hview in Hd.
    intros [= <- <-]. left. eauto.
Qed.

(** A statement sent through the pool fails and changes nothing, or runs on
    the committed data. *)
Lemma clientQuery_pool (stmt : Statement) (w w1 : World) (r : Outcome Rows)
    (c0 : Db) (s0 : option Db) (t : Z) :
  dbView w = (c0, s0, t) ->
  clientQuery Pool stmt w = (r, w1) ->
  (exists e, r = Throw e /\ dbView w1 = (c0, s0, t)) \/
  (exists rows c1,
     r = Ok rows /\ exec t stmt c0 = Some (rows, c1) /\
     dbView w1 = (c1, s0, t)).
Proof.
  intros Hview. unfold clientQuery. rewrite bind_run.
  destruct (driverCall w) as [[[]|e] w0] eqn:Hd.
  - apply driverCall_view in Hd. rewrite Hview in Hd.
    unfold dbView in Hd. injection Hd as Hc Hs Ht.
    unfold runStatement. rewrite Hc, Ht.
    destruct (exec t stmt c0) as [[rows c1]|] eqn:He.
    + intros [= <- <-]. right. exists rows, c1.
      repeat split. unfold dbView. cbn. rewrite Hs, Ht. reflexivity.
    + intros [= <- <-]. left. eexists. split; [reflexivity|].
      unfold dbView. rewrite Hc, Hs, Ht. reflexivity.
  - apply driverCall_view in Hd. rewrite Hview in Hd.
    intros [= <- <-]. left. eauto.
Qed.

End EffectsFacts.

(** ** The verification route *)
Module PaymentRouteFacts.
Import Js Validation Store Effects EffectsFacts PaymentRoute.
Local Open Scope string_scope.

Section WithRuntime.
Context `{Runtime}.
Variable env : Env.
Variable isValidSolanaAddress : string -> bool.

(** Recording never looks for an earlier row with the same signature: it
    appends a row and counts a payment, every time the parameters fit their
    columns. *)
Lemma recordAndGrant_ok (contentId signature : string) (payerWallet : option string)
    (amount : float) (message : string) (blockchain : option Solana.Details)
    (w : World) (row : ContentRow) :
  faults w = [] ->
  content (committed w) !! contentId = Some row ->
  (payments row < INT_MAX)%Z ->
  fitsColumns (orString payerWallet "unknown") amount signature = true ->
  let token := Jwt.generateAccessToken env
                 (tokenPayload contentId signature payerWallet)
                 604800 (clock w / 1000) in
  recordAndGrant env contentId signature payerWallet amount message blockchain w
  = (Ok {| status := 200;
           body := BVerified message token (downloadUrl env contentId token)
                     blockchain |},
     setDb w
       {| content := <[contentId := counted row]> (content (committed w));
          payment_logs := payment_logs (committed w)
                          ++ [loggedPayment contentId signature payerWallet amount w] |}
       (session w) []).
Proof.
  intros Hf Hrow Hmax Hfits token. unfold recordAndGrant.
  rewrite bind_run, (query_ok _ _ Hf).
  cbn [exec]. unfold insertPayment. rewrite Hfits.
  cbn [negb uuidOf duplicateKey]. rewrite Hrow. cbn [mbind option_bind].
  cbn -[Z.add Z.mul Z.div Z.gtb].
  rewrite bind_run, query_ok by reflexivity.
  cbn [exec committed setDb clock]. unfold incrementPayments.
  cbn [content]. rewrite Hrow.
  replace (payments row + 1 >? INT_MAX)%Z with false
    by (symmetry; rewrite Z.gtb_ltb; apply Z.ltb_ge; lia).
  cbn -[Z.add Z.mul Z.div]. reflexivity.
Qed.

Lemma select_content_ok (cid : string) (w : World) :
  faults w = [] ->
  query (SelectContent cid) w
  = (Ok (ContentRows (option_list (content (committed w) !! cid))),
     setDb w (committed w) (session w) []).
Proof. intros Hf. rewrite (query_ok _ _ Hf). reflexivity. Qed.

(** Unknown content is answered 404 before the ledger is asked anything. *)
Lemma verify_unknown_content (req : VerifyRequest) (cid sig : string) (w : World) :
  accepted isValidSolanaAddress req cid sig w ->
  content (committed w) !! cid = None ->
  exists w',
    verify env isValidSolanaAddress req w
    = (Ok {| status := 404; body := BError "Content not found" None |}, w') /\
    connection w' = connection w /\
    committed w' = committed w.
Proof.
  intros (Hvalid & Hcid & Hsig & Hf) Hrow.
  unfold verify. rewrite Hvalid. unfold verifyHandler, tryCatch.
  rewrite Hcid, Hsig, bind_run, (select_content_ok _ _ Hf), Hrow.
  change (option_list None) with (@nil ContentRow). eexists. repeat split.
Qed.

(** The [sim_] branch: whatever the environment, the payment is recorded and
    access is granted, and the ledger is not asked. *)
Lemma verify_simulated (req : VerifyRequest) (cid sig : string) (w : World)
    (row : ContentRow) :
  accepted isValidSolanaAddress req cid sig w ->
  startsWith sig "sim_" = true ->
  content (committed w) !! cid = Some row ->
  (payments row < INT_MAX)%Z ->
  fitsColumns (orString (payerWallet req) "unknown") (price_usdc row) sig = true ->
  exists token w',
    verify env isValidSolanaAddress req w
    = (Ok {| status := 200;
             body := BVerified "Payment verified successfully (development mode)"
                       token (downloadUrl env cid token) None |}, w') /\
    connection w' = connection w /\
    payment_logs (committed w')
    = (payment_logs (committed w)
       ++ [loggedPayment cid sig (payerWallet req) (price_usdc row) w])%list /\
    content (committed w') = <[cid := counted row]> (content (committed w)).
Proof.
  intros (Hvalid & Hcid & Hsig & Hf) Hsim Hrow Hmax Hfits.
  unfold verify. rewrite Hvalid. unfold verifyHandler, tryCatch.
  rewrite Hcid, Hsig, bind_run, (select_content_ok _ _ Hf), Hrow.
  change (option_list (Some row)) with [row]. cbn iota. rewrite Hsim.
  rewrite (recordAndGrant_ok _ _ _ _ _ _ _ row) by (cbn; auto).
  eexists _, _. repeat split.
Qed.

End WithRuntime.

(** *** On the sample server *)

Import NodeRuntime Samples.
#[local] Existing Instance runtime.

(** C1 (what the code does in production). In an environment flagged as
    production, a request whose signature starts with "sim_" is answered 200:
    one payment is logged and counted, and the ledger was asked for no
    transaction. The bypass is reachable in every environment. *)
Theorem sim_bypass_reachable_in_production :
  NODE_ENV production = Some "production" /\
  exists row,
    observe (verify production anyAddress (request "sim_anything")
               (world (listing None) []))
    = (Some 200, [row], Some 1%Z, []) /\
    transaction_signature row = "sim_anything".
Proof.
  split; [reflexivity|]. vm_compute. eexists. split; reflexivity.
Qed.

(** C7 (what the code does with an expired listing). For a listing whose
    expiry passed long ago, the verification route records the payment and
    answers 200, for a simulated signature and, after asking the ledger, for
    a real one; the handler of the initiation route and the payment gate
    answer 410 for the same listing. *)
Theorem expired_listing_still_verifies :
  let expired := listing (Some 1%Z) in
  (observe (verify production anyAddress (request "sim_anything")
              (world expired []))).1.1.1 = Some 200 /\
  (let r := observe (verify production anyAddress (request paidSignature)
                       (paidWorld expired [])) in
   r.1.1.1 = Some 200 /\ r.2 = [paidSignature]) /\
  (initiateHandler contentId (world expired [])).1
  = Ok {| status := 410; body := BError "Content has expired" None |} /\
  (X402.x402PaymentGate production contentId None (world expired [])).1
  = Ok (X402.Respond {| status := 410;
                        body := BError "Content has expired" None |}).
Proof. repeat split; vm_compute; reflexivity. Qed.

(** C2 (what the verification route does). The signature of one verified
    transaction submitted twice: two rows of [payment_logs] carry it and the
    listing counts two payments. And when the counter update fails after the
    insert, the row stays although no payment was counted. *)
Theorem verify_twice_records_twice :
  (let once := verify production anyAddress (request paidSignature)
                 (paidWorld (listing None) []) in
   let twice := verify production anyAddress (request paidSignature) once.2 in
   exists row1 row2,
     observe twice
     = (Some 200, [row1; row2], Some 2%Z, [paidSignature; paidSignature]) /\
     transaction_signature row1 = paidSignature /\
     transaction_signature row2 = paidSignature) /\
  (let failing := verify production anyAddress (request paidSignature)
                    (paidWorld (listing None)
                       [false; false; false; false; true]) in
   exists row,
     observe failing = (Some 500, [row], Some 0%Z, [paidSignature])).
Proof.
  split.
  - vm_compute. eexists _, _. repeat split.
  - vm_compute. eexists. reflexivity.
Qed.

End PaymentRouteFacts.

(** ** The database manager's [createPayment] *)
Module DatabaseManagerFacts.
Import Store Effects EffectsFacts DatabaseManager.
Local Open Scope string_scope.

Lemma tryCatch_run {A} (m : M A) (h : string -> M A) (w : World) :
  tryCatch m h w =
  match m w with
  | (Ok a, w') => (Ok a, w')
  | (Throw e, w') => h e w'
  end.
Proof. reflexivity. Qed.

(** The retry loop inside a transaction: all attempts fail and the view is
    as before, or one succeeds, once. *)
Lemma queryAttempts_session (n : nat) (stmt : Statement) (e0 : string)
    (w w1 : World) (r : Outcome Rows) (c0 view : Db) (t : Z) :
  dbView w = (c0, Some view, t) ->
  queryAttempts n Client stmt e0 w = (r, w1) ->
  (exists e, r = Throw e /\ dbView w1 = (c0, Some view, t)) \/
  (exists rows view',
     r = Ok rows /\ exec t stmt view = Some (rows, view') /\
     dbView w1 = (c0, Some view', t)).
Proof.
  revert e0 w. induction n as [|n IH]; intros e0 w Hview; cbn [queryAttempts].
  - intros [= <- <-]. left. eauto.
  - rewrite tryCatch_run.
    destruct (clientQuery Client stmt w) as [[rows|e] w0] eqn:Hq.
    + intros [= <- <-].
      destruct (clientQuery_session _ _ _ _ _ _ _ Hview Hq)
        as [(e & [=] & _)|(rows' & view' & [= <-] & He & Hv)].
      right. eauto.
    + destruct (clientQuery_session _ _ _ _ _ _ _ Hview Hq)
        as [(e' & _ & Hv)|(rows' & view' & [=] & _)].
      apply (IH e w0 Hv).
Qed.

(** The retry loop through the pool. *)
Lemma queryAttempts_pool (n : nat) (stmt : Statement) (e0 : string)
    (w w1 : World) (r : Outcome Rows) (c0 : Db) (s0 : option Db) (t : Z) :
  dbView w = (c0, s0, t) ->
  queryAttempts n Pool stmt e0 w = (r, w1) ->
  (exists e, r = Throw e /\ dbView w1 = (c0, s0, t)) \/
  (exists rows c1,
     r = Ok rows /\ exec t stmt c0 = Some (rows, c1) /\
     dbView w1 = (c1, s0, t)).
Proof.
  revert e0 w. induction n as [|n IH]; intros e0 w Hview; cbn [queryAttempts].
  - intros [= <- <-]. left. eauto.
  - rewrite tryCatch_run.
    destruct (clientQuery Pool stmt w) as [[rows|e] w0] eqn:Hq.
    + intros [= <- <-].
      destruct (clientQuery_pool _ _ _ _ _ _ _ Hview Hq)
        as [(e & [=] & _)|(rows' & c1 & [= <-] & He & Hv)].
      right. eauto.
    + destruct (clientQuery_pool _ _ _ _ _ _ _ Hview Hq)
        as [(e' & _ & Hv)|(rows' & c1 & [=] & _)].
      apply (IH e w0 Hv).
Qed.

Lemma cacheDel_view (key : string) (w : World) :
  exists w1, cacheDel key w = (Ok (), w1) /\ dbView w1 = dbView w.
Proof. eexists. split; reflexivity. Qed.

(** [transaction]: when the callback, run inside the transaction, keeps the
    committed data and establishes [post] of its result and the view it
    leaves, the committed data afterwards are the old ones, or the call
    returned a result and committed a view that satisfy [post]. *)
Lemma transaction_atomic {A} (callback : QueryClient -> M A)
    (post : A -> Db -> Prop) (w w1 : World) (r : Outcome A) (c0 : Db)
    (s0 : option Db) (t : Z) :
  dbView w = (c0, s0, t) ->
  (forall wa wb rb,
     dbView wa = (c0, Some c0, t) ->
     callback Client wa = (rb, wb) ->
     exists view, dbView wb = (c0, Some view, t) /\
                  forall a, rb = Ok a -> post a view) ->
  transaction callback w = (r, w1) ->
  (committed w1 = c0 /\ exists e, r = Throw e) \/
  (exists a view, r = Ok a /\ post a view /\ dbView w1 = (view, None, t)).
Proof.
  intros Hview Hcb. unfold transaction, poolConnect.
  rewrite bind_run.
  destruct (driverCall w) as [[[]|e] wa] eqn:Hconn;
    pose proof (driverCall_view _ _ _ Hconn) as Hva; rewrite Hview in Hva.
  2:{ intros [= <- <-]. left. split; [|eauto].
      unfold dbView in Hva. congruence. }
  rewrite tryCatch_run.
  (* what the handler does with any view that kept the committed data *)
  assert (forall e wx s, dbView wx = (c0, s, t) ->
            forall r' w', (clientRollback;; throw (A := A) e) wx = (r', w') ->
            committed w' = c0 /\ exists e', r' = Throw e') as Hrollback.
  { intros e wx s Hvx r' w'. rewrite bind_run. unfold clientRollback.
    rewrite bind_run.
    destruct (driverCall wx) as [[[]|e1] wy] eqn:Hdr;
      pose proof (driverCall_view _ _ _ Hdr) as Hvy; rewrite Hvx in Hvy;
      unfold dbView in Hvy; injection Hvy as Hc _ _.
    - cbn. intros [= <- <-]. cbn. split; [exact Hc|eauto].
    - intros [= <- <-]. split; [exact Hc|eauto]. }
  unfold clientBegin. rewrite !bind_run.
  destruct (driverCall wa) as [[[]|e] wb] eqn:Hbegin;
    pose proof (driverCall_view _ _ _ Hbegin) as Hvb; rewrite Hva in Hvb.
  2:{ intros Hr. left. eapply Hrollback; eauto. }
  unfold openSession at 1.
  set (wo := setDb wb (committed wb) (Some (committed wb)) (faults wb)).
  assert (dbView wo = (c0, Some c0, t)) as Hopen.
  { unfold dbView in *. cbn. congruence. }
  rewrite bind_run.
  destruct (callback Client wo) as [[a|e] wc] eqn:Hcall;
    destruct (Hcb _ _ _ Hopen Hcall) as (view & Hvc & Hpost).
  2:{ intros Hr. left. eapply Hrollback; eauto. }
  unfold clientCommit. rewrite !bind_run.
  destruct (driverCall wc) as [[[]|e] wd] eqn:Hcommit;
    pose proof (driverCall_view _ _ _ Hcommit) as Hvd; rewrite Hvc in Hvd.
  2:{ intros Hr. left. eapply Hrollback; eauto. }
  unfold commitSession.
  unfold dbView in Hvd. injection Hvd as Hc Hs Ht. rewrite Hs.
  cbn. intros [= <- <-]. right. exists a, view.
  split; [reflexivity|]. split; [auto|]. unfold dbView. cbn. congruence.
Qed.

(** Case analysis on the retry loop run from world [w]. *)
Ltac attempts_from w r w' H :=
  match goal with
  | |- context [queryAttempts ?n ?c ?stmt ?e w] =>
      destruct (queryAttempts n c stmt e w) as [r w'] eqn:H
  end.

(** What the callback of [createPayment] does inside the transaction. *)
Lemma createPayment_callback (paymentData : PaymentData) (c0 : Db) (t : Z)
    (wa wb : World) (rb : Outcome (option PaymentLog)) :
  dbView wa = (c0, Some c0, t) ->
  (payment ← query (CreatePayment (id paymentData) (contentId paymentData)
                       (payerWallet paymentData) (amountUsdc paymentData)
                       (transactionSignature paymentData)
                       (paymentStatus paymentData)) (Some Client);
   query (UpdatePaymentCount (contentId paymentData)) (Some Client);;
   cacheDel ("content:" ++ contentId paymentData);;
   cacheDel ("content:stats:" ++ contentId paymentData);;
   mret (firstPayment payment)) wa = (rb, wb) ->
  exists view,
    dbView wb = (c0, Some view, t) /\
    forall a, rb = Ok a ->
      exists row, a = Some row /\ recorded paymentData t c0 row view.
Proof.
  intros Hva. rewrite bind_run. unfold query. cbn [default].
  attempts_from wa r1 w1 Hq1.
  destruct (queryAttempts_session _ _ _ _ _ _ _ _ _ Hva Hq1)
    as [(e & -> & Hv1)|(rows & v1 & -> & He1 & Hv1)].
  { intros [= <- <-]. exists c0. split; [exact Hv1|]. discriminate. }
  cbn [exec] in He1.
  match type of He1 with
  | context [insertPayment ?a ?b ?c ?d ?e ?f t c0] =>
      destruct (insertPayment a b c d e f t c0) as [[row db1]|] eqn:Hins;
        [|discriminate]
  end. cbn in He1. injection He1 as <- <-.
  rewrite bind_run.
  attempts_from w1 r2 w2 Hq2.
  destruct (queryAttempts_session _ _ _ _ _ _ _ _ _ Hv1 Hq2)
    as [(e & -> & Hv2)|(rows2 & v2 & -> & He2 & Hv2)].
  { intros [= <- <-]. exists db1. split; [exact Hv2|]. discriminate. }
  cbn [exec] in He2.
  destruct (incrementPayments (contentId paymentData) db1)
    as [[counts db2]|] eqn:Hinc; [|discriminate]. cbn in He2. injection He2 as <- <-.
  cbn. intros [= <- <-]. exists db2. split.
  - unfold dbView in *. cbn. exact Hv2.
  - intros a [= <-]. exists row. split; [reflexivity|].
    exists db1, counts. auto.
Qed.

(** The three ways a call of [createPayment] can end: it throws and nothing
    is committed; a row with the signature exists, which it returns, and
    nothing is committed; or no such row exists, and it commits the new row
    together with the counter update and returns the row. *)
Lemma createPayment_cases (paymentData : PaymentData) (w w1 : World)
    (r : Outcome (option PaymentLog)) :
  createPayment paymentData w = (r, w1) ->
  ((exists e, r = Throw e) /\ committed w1 = committed w) \/
  (exists row,
     head (sameSignature paymentData (committed w)) = Some row /\
     r = Ok (Some row) /\ dbView w1 = dbView w) \/
  (exists row,
     sameSignature paymentData (committed w) = [] /\
     r = Ok (Some row) /\
     recorded paymentData (clock w) (committed w) row (committed w1) /\
     session w1 = None /\ clock w1 = clock w).
Proof.
  unfold createPayment. rewrite bind_run.
  unfold executePrepared, query. cbn [default].
  attempts_from w r0 w0 Hq0.
  destruct (queryAttempts_pool _ _ _ _ _ _ (committed w) (session w) (clock w)
              eq_refl Hq0)
    as [(e & -> & Hv0)|(rows & c1 & -> & He0 & Hv0)].
  { intros [= <- <-]. left. split; [eauto|].
    unfold dbView in Hv0. congruence. }
  cbn in He0. injection He0 as <- <-.
  fold (sameSignature paymentData (committed w)).
  destruct (sameSignature paymentData (committed w)) as [|row rest] eqn:Hsame;
    cbn [firstPayment].
  - intros Htx.
    destruct (transaction_atomic _
                (fun a view => exists row, a = Some row /\
                   recorded paymentData (clock w) (committed w) row view)
                _ _ _ _ _ _ Hv0
                (fun wa wb rb Ha Hb =>
                   createPayment_callback paymentData _ _ wa wb rb Ha Hb)
                Htx)
      as [(Hc & e & ->)|(a & view & -> & (row & -> & Hrec) & Hv1)].
    + left. split; [eauto|exact Hc].
    + right. right. exists row. unfold dbView in Hv1.
      injection Hv1 as -> -> ->. auto.
  - intros [= <- <-]. right. left. exists row. auto.
Qed.

(** What recording changes: one row more, carrying the signature, and one
    payment more on the listing it names. *)
Lemma recorded_effect (paymentData : PaymentData) (t : Z) (db db' : Db)
    (row : PaymentLog) :
  recorded paymentData t db row db' ->
  payment_logs db' = (payment_logs db ++ [row])%list /\
  transaction_signature row = transactionSignature paymentData /\
  exists listing,
    content db !! contentId paymentData = Some listing /\
    content db' = <[contentId paymentData := PaymentRoute.counted listing]> (content db).
Proof.
  intros (db1 & counts & Hins & Hinc).
  unfold insertPayment in Hins.
  destruct (fitsColumns _ _ _); [|discriminate]. cbn [negb] in Hins.
  destruct (uuidOf _) as [key|]; [|discriminate].
  destruct (duplicateKey _ db); [discriminate|].
  destruct (content db !! contentId paymentData) as [listing|] eqn:Hl;
    [|discriminate].
  cbn in Hins. destruct (validStatus _); [|discriminate].
  cbn in Hins. injection Hins as <- <-.
  unfold incrementPayments in Hinc. cbn [content] in Hinc. rewrite Hl in Hinc.
  destruct (payments listing + 1 >? INT_MAX)%Z; [discriminate|].
  injection Hinc as _ <-. cbn. repeat split. eauto.
Qed.

Lemma sameSignature_recorded (paymentData : PaymentData) (t : Z) (db db' : Db)
    (row : PaymentLog) :
  recorded paymentData t db row db' ->
  sameSignature paymentData db' = (sameSignature paymentData db ++ [row])%list.
Proof.
  intros (Hlogs & Hsig & _)%recorded_effect.
  unfold sameSignature. rewrite Hlogs, filter_app.
  f_equal. apply (filter_cons_True _ row []). exact Hsig.
Qed.

(** X14. [createPayment] is idempotent on the signature and atomic: a first call
    either commits nothing or commits row and counter update together; a
    later call with the same signature, whatever the driver does, returns the
    existing row or throws, and commits nothing, so one row carries the
    signature and one payment was counted. *)
Theorem createPayment_idempotent (first second : PaymentData) (w w1 w2 : World)
    (r1 r2 : Outcome (option PaymentLog)) (f : list bool) :
  transactionSignature second = transactionSignature first ->
  sameSignature first (committed w) = [] ->
  createPayment first w = (r1, w1) ->
  createPayment second (withFaults w1 f) = (r2, w2) ->
  ((exists e, r1 = Throw e) /\ committed w1 = committed w) \/
  (exists row,
     r1 = Ok (Some row) /\
     recorded first (clock w) (committed w) row (committed w1) /\
     sameSignature first (committed w1) = [row] /\
     committed w2 = committed w1 /\
     (r2 = Ok (Some row) \/ exists e, r2 = Throw e)).
Proof.
  intros Hsig Hfresh H1 H2.
  destruct (createPayment_cases _ _ _ _ H1)
    as [Hthrow|[(row & Hhead & _)|(row & _ & -> & Hrec & Hs1 & Ht1)]].
  - left. exact Hthrow.
  - rewrite Hfresh in Hhead. discriminate.
  - right. exists row. split; [reflexivity|]. split; [exact Hrec|].
    assert (sameSignature first (committed w1) = [row]) as Hone.
    { rewrite (sameSignature_recorded _ _ _ _ _ Hrec), Hfresh. reflexivity. }
    split; [exact Hone|].
    assert (sameSignature second (committed w1) = [row]) as Hone'.
    { unfold sameSignature in *. rewrite Hsig. exact Hone. }
    destruct (createPayment_cases _ _ _ _ H2)
      as [(He & Hc)|[(row' & Hhead & -> & Hv)|(row' & Hnone & _)]].
    + split; [exact Hc|]. right. exact He.
    + cbn in Hhead. rewrite Hone' in Hhead. injection Hhead as <-.
      split; [|left; reflexivity].
      unfold dbView in Hv. cbn in Hv. congruence.
    + cbn in Hnone. rewrite Hone' in Hnone. discriminate.
Qed.

(** On the sample server: two calls with one signature leave one row and one
    counted payment, and the second returns the row of the first; when the
    counter update fails on all three attempts, the insert is rolled back
    with it. *)
Example createPayment_twice :
  let w := Samples.world (Samples.listing None) [] in
  let first := createPayment (Samples.paymentData Samples.paymentId "sig-A") w in
  let second := createPayment (Samples.paymentData Samples.otherPaymentId "sig-A") first.2 in
  exists row,
    first.1 = Ok (Some row) /\ second.1 = Ok (Some row) /\
    payment_logs (committed second.2) = [row] /\
    payments <$> content (committed second.2) !! Samples.contentId = Some 1%Z.
Proof. eexists. repeat split; vm_compute; reflexivity. Qed.

Example createPayment_rolls_back :
  let w := Samples.world (Samples.listing None)
             [false; false; false; false; true; true; true] in
  let r := createPayment (Samples.paymentData Samples.paymentId "sig-A") w in
  r.1 = Throw "driver error" /\
  payment_logs (committed r.2) = [] /\
  payments <$> content (committed r.2) !! Samples.contentId = Some 0%Z.
Proof. repeat split; vm_compute; reflexivity. Qed.

End DatabaseManagerFacts.

(** ** What a verdict of the transaction verifier means *)
Module SolanaVerdicts.
Import F64 F64Facts Solana SolanaSamples SolanaFacts Verdicts MoreSamples.
Local Open Scope float_scope.

(** Every extracted transfer is a changed balance of a USDC token account. *)
Lemma usdcTransfers_elem (pre post : list TokenBalance) (t : Transfer) :
  t ∈ usdcTransfers pre post ->
  mint t = USDC_MINT_MAINNET /\ (change t =? 0) = false /\
  exists b, b ∈ post /\ tb_mint b = USDC_MINT_MAINNET /\
            accountIndex t = tb_accountIndex b /\ owner t = tb_owner b.
Proof.
  unfold usdcTransfers. intros (b & Hb & Ht)%list_elem_of_omap.
  unfold usdcTransfer in Ht.
  destruct (String.eqb_spec (tb_mint b) USDC_MINT_MAINNET) as [Hm|]; [|discriminate].
  match type of Ht with
  | (if negb (?c =? 0) then _ else _) = _ => destruct (c =? 0) eqn:Hc
  end; [discriminate|].
  cbn in Ht. injection Ht as <-. cbn. eauto 10.
Qed.

Lemma find_elem {A} (f : A -> bool) (l : list A) (x : A) :
  List.find f l = Some x -> x ∈ l /\ f x = true.
Proof.
  intros [Hin Hf]%List.find_some. split; [|exact Hf].
  apply list_elem_of_In, Hin.
Qed.

Lemma recipientTransfer_elem (transfers : list Transfer)
    (tx : TransactionResponse) (recipient : string) (t : Transfer) :
  recipientTransfer transfers tx recipient = Some t ->
  t ∈ transfers /\
  (ownerIs recipient t = true \/ recipientInKeys tx recipient = true).
Proof.
  unfold recipientTransfer, findRecipientTransfer, recipientInKeys.
  destruct (List.find (fun t => ownerIs recipient t && positive t) transfers)
    as [t'|] eqn:Hfind.
  - intros [= <-]. apply find_elem in Hfind as [Hin [Ho _]%andb_true_iff]. auto.
  - destruct (transaction tx) as [txn|]; [|discriminate]. cbn [mbind option_bind].
    destruct (accountKeys (message txn)) as [keys|]; [|discriminate].
    destruct (existsb _ _); [|discriminate].
    intros [Hin _]%find_elem. auto.
Qed.

(** X1. A payment is reported as verified only when the ledger returned a
    record of a transaction that did not fail, and that record credits a
    USDC token account with a positive amount that passes the amount test;
    the account is owned by the expected recipient, or the recipient is among
    the transaction's account keys. The details report that credit. *)
Theorem verified_means_usdc_credit (c : Connection) (signature recipient : string)
    (p : float) :
  verified (verifySolanaTransaction c signature recipient p).1 = true ->
  exists tx t,
    ledger c signature = RpcValue (Some tx) /\
    meta tx ≫= err = None /\
    t ∈ transfersOf tx /\
    mint t = USDC_MINT_MAINNET /\
    (0 <? change t) = true /\
    amountMismatch (change t) p = false /\
    (ownerIs recipient t = true \/ recipientInKeys tx recipient = true) /\
    details (verifySolanaTransaction c signature recipient p).1
    = Some (DetailsVerified signature (owner t) (change t) USDC_MINT_MAINNET
              (blockTime tx) (slot tx)).
Proof.
  unfold verifySolanaTransaction, getTransaction.
  destruct (ledger c signature) as [msg|[tx|]] eqn:Hfetch; cbn [fst];
    [discriminate| |discriminate].
  unfold verifyRecord. fold (transfersOf tx).
  destruct (meta tx ≫= err) as [e|] eqn:Herr; [discriminate|].
  destruct (length (transfersOf tx) =? 0)%nat; [discriminate|].
  destruct (findRecipientTransfer (transfersOf tx) tx recipient)
    as [[t|]|msg] eqn:Hfound; [|discriminate|discriminate].
  assert (recipientTransfer (transfersOf tx) tx recipient = Some t) as Hcand
    by (unfold recipientTransfer; rewrite Hfound; reflexivity).
  rewrite checkAmount_verified. intros Hok%negb_true_iff.
  destruct (recipientTransfer_elem _ _ _ _ Hcand) as [Hin Hwho].
  destruct (usdcTransfers_elem _ _ _ Hin) as (Hmint & _ & _).
  exists tx, t. repeat split; try assumption.
  - apply (recipientTransfer_positive _ _ _ _ Hcand).
  - unfold checkAmount. rewrite Hok. reflexivity.
Qed.

Lemma verified_means_usdc_credit_witness :
  exists tx t,
    ledger (sampleConnection (sampleTx None 1 ["Payer"; "Creator"])) "sig"
    = RpcValue (Some tx) /\
    meta tx ≫= err = None /\
    t ∈ transfersOf tx /\
    mint t = USDC_MINT_MAINNET /\
    (0 <? change t) = true /\
    amountMismatch (change t) 1 = false /\
    (ownerIs "Creator" t = true \/ recipientInKeys tx "Creator" = true) /\
    details (verifySolanaTransaction
               (sampleConnection (sampleTx None 1 ["Payer"; "Creator"]))
               "sig" "Creator" 1).1
    = Some (DetailsVerified "sig" (owner t) (change t) USDC_MINT_MAINNET
              (blockTime tx) (slot tx)).
Proof.
  apply (verified_means_usdc_credit
           (sampleConnection (sampleTx None 1 ["Payer"; "Creator"]))
           "sig" "Creator" 1).
  vm_compute. reflexivity.
Defined.






End SolanaVerdicts.

(** ** The life of an issued token *)
Module TokenLifetime.
Import Js JsFacts Jwt JwtFacts Shapes.
Local Open Scope string_scope.

Section WithRuntime.
Context `{Runtime}.
Variable env : Env.

(** X3. An issued token stops being accepted once its time to live has
    passed: validated after [t0 + ttl] it is refused as expired (unless
    [t0 + ttl] is 0, the value the expiry test takes for "no expiry"). *)
Theorem issued_token_expires (payload : gmap string Json) (ttl t0 t1 : Z) :
  runtimeSoundOn env (JObj (claimsOf payload ttl t0)) ->
  (t0 + ttl < t1)%Z ->
  (t0 + ttl <> 0)%Z ->
  verifyAccessToken env (generateAccessToken env payload ttl t0) t1
  = (None, Some TokenExpired).
Proof.
  intros Hsound Hlate Hnz. unfold generateAccessToken.
  rewrite (encodeAndSign_verifies _ _ _ Hsound) by discriminate.
  unfold expired. cbn [prop].
  replace (claimsOf payload ttl t0 !! "exp") with (Some (JNum (t0 + ttl)))
    by (symmetry; apply lookup_insert_eq).
  cbn [truthy lessThan].
  replace (t0 + ttl =? 0)%Z with false by (symmetry; apply Z.eqb_neq, Hnz).
  replace (t0 + ttl <? t1)%Z with true by (symmetry; apply Z.ltb_lt, Hlate).
  reflexivity.
Qed.

Lemma urlChars_tokenChars (s : string) :
  allChars isBase64UrlChar s = true -> allChars isTokenChar s = true.
Proof.
  apply allChars_impl. intros c Hc. unfold isTokenChar. rewrite Hc. reflexivity.
Qed.

Lemma base64UrlEncode_alphabet (str : string) :
  wellFormedBase64 (bufferToBase64 str) = true ->
  allChars isBase64UrlChar (base64UrlEncode str) = true.
Proof.
  intros [Hbody _]%andb_true_iff. apply (encodeChars_body _ Hbody).
Qed.

(** X4. A token is made of three segments in the base64url alphabet joined
    by two dots: it holds no ['+'], ['/'], ['='] or other character that a
    URL's query string would need escaped, whatever the payload. *)
Theorem issued_token_is_url_safe (payload : gmap string Json) (ttl t0 : Z) :
  runtimeSoundOn env (JObj (claimsOf payload ttl t0)) ->
  let token := generateAccessToken env payload ttl t0 in
  allChars isTokenChar token = true /\
  exists h p s,
    split "." token = [h; p; s] /\
    allChars isBase64UrlChar h = true /\
    allChars isBase64UrlChar p = true /\
    allChars isBase64UrlChar s = true.
Proof.
  intros (_ & _ & Hwf & Hwfh & Hwfs) token. subst token.
  unfold generateAccessToken, encodeAndSign.
  set (eh := base64UrlEncode (JSON_stringify header)) in *.
  set (ep := base64UrlEncode (JSON_stringify (JObj (claimsOf payload ttl t0)))) in *.
  set (es := createSignature env (eh ++ "." ++ ep)).
  pose proof (base64UrlEncode_alphabet _ Hwfh) as Hh. fold eh in Hh.
  pose proof (base64UrlEncode_alphabet _ Hwf) as Hp. fold ep in Hp.
  pose proof (base64UrlEncode_alphabet _ Hwfs) as Hs.
  change (base64UrlEncode (hmacSha256Base64 (SECRET env) (eh ++ "." ++ ep)))
    with es in Hs.
  split.
  - rewrite !allChars_app.
    rewrite (urlChars_tokenChars _ Hh), (urlChars_tokenChars _ Hp),
      (urlChars_tokenChars _ Hs).
    reflexivity.
  - exists eh, ep, es. repeat split; try assumption.
    apply split_three;
      apply (allChars_impl isBase64UrlChar); try apply urlChar_not_dot; assumption.
Qed.

End WithRuntime.

Import NodeRuntime Samples.
#[local] Existing Instance runtime.

Lemma issued_token_expires_witness :
  verifyAccessToken production
    (generateAccessToken production samplePayload 604800 1700000000)
    1700604801
  = (None, Some TokenExpired).
Proof.
  apply (issued_token_expires production samplePayload 604800 1700000000).
  - repeat split; vm_compute; reflexivity.
  - vm_compute. reflexivity.
  - vm_compute. discriminate.
Defined.

Lemma issued_token_is_url_safe_witness :
  let token := generateAccessToken production samplePayload 604800 1700000000 in
  allChars isTokenChar token = true /\
  exists h p s,
    split "." token = [h; p; s] /\
    allChars isBase64UrlChar h = true /\
    allChars isBase64UrlChar p = true /\
    allChars isBase64UrlChar s = true.
Proof.
  apply (issued_token_is_url_safe production samplePayload 604800 1700000000).
  repeat split; vm_compute; reflexivity.
Defined.

End TokenLifetime.

(** ** Request validation *)
Module ValidationFacts.
Import Js JsFacts JwtFacts Validation Shapes.
Local Open Scope string_scope.

Lemma hexRun_spec (n : nat) (s r : string) :
  hexRun n s = Some r <->
  exists h, s = h ++ r /\ String.length h = n /\ allChars isHex h = true.
Proof.
  revert s. induction n as [|n IH]; intros s; cbn [hexRun].
  - split.
    + intros [= ->]. exists EmptyString. auto.
    + intros ([|c h] & -> & Hlen & _); [reflexivity|discriminate].
  - destruct s as [|c s].
    + split; [discriminate|].
      intros ([|c h] & Hs & Hlen & _); discriminate.
    + split.
      * destruct (isHex c) eqn:Hc; [|discriminate].
        intros (h & -> & Hlen & Hh)%IH. exists (String c h).
        cbn. rewrite Hc, Hh, Hlen. auto.
      * intros ([|c' h] & Hs & Hlen & Hh); [discriminate|].
        rewrite append_cons in Hs. injection Hs as <- ->.
        cbn in Hh. apply andb_true_iff in Hh as [-> Hh].
        apply IH. exists h. cbn in Hlen. auto.
Qed.

Lemma dash_spec (s : option string) (r : string) :
  dash s = Some r <-> s = Some ("-" ++ r).
Proof.
  change ("-" ++ r) with (String "-" r).
  destruct s as [[|c s]|]; cbn; try (split; discriminate).
  destruct c as [[] [] [] [] [] [] [] []]; cbn; split; try discriminate;
    congruence.
Qed.

(** A dash, [n] digits, then [r]. *)
Lemma dash_group (n : nat) (s r : string) :
  dash (Some s) ≫= hexRun n = Some r <->
  exists h, hexGroup n h /\ s = "-" ++ h ++ r.
Proof.
  split.
  - destruct (dash (Some s)) as [s'|] eqn:Hd; [|discriminate].
    apply dash_spec in Hd as [= ->]. cbn [mbind option_bind].
    intros (h & -> & Hg)%hexRun_spec. exists h. auto.
  - intros (h & Hg & ->).
    assert (dash (Some ("-" ++ h ++ r)) = Some (h ++ r)) as ->
      by (apply dash_spec; reflexivity).
    cbn [mbind option_bind]. apply hexRun_spec. exists h. destruct Hg. auto.
Qed.

(** X5. [isValidUUID] accepts exactly the texts made of five groups of 8, 4,
    4, 4 and 12 hexadecimal digits (of either case) joined by dashes; an
    accepted text has 36 characters. *)
Theorem isValidUUID_shape (uuid : string) :
  (isValidUUID uuid = true <->
   exists a b c d e,
     uuid = a ++ "-" ++ b ++ "-" ++ c ++ "-" ++ d ++ "-" ++ e /\
     hexGroup 8 a /\ hexGroup 4 b /\ hexGroup 4 c /\ hexGroup 4 d /\
     hexGroup 12 e) /\
  (isValidUUID uuid = true -> String.length uuid = 36).
Proof.
  assert (isValidUUID uuid = true <->
          exists a b c d e,
            uuid = a ++ "-" ++ b ++ "-" ++ c ++ "-" ++ d ++ "-" ++ e /\
            hexGroup 8 a /\ hexGroup 4 b /\ hexGroup 4 c /\ hexGroup 4 d /\
            hexGroup 12 e) as Hiff.
  { unfold isValidUUID. split.
    - destruct (hexRun 8 uuid) as [r0|] eqn:H0; [|discriminate].
      destruct (dash (Some r0) ≫= hexRun 4) as [r1|] eqn:H1; [|discriminate].
      destruct (dash (Some r1) ≫= hexRun 4) as [r2|] eqn:H2; [|discriminate].
      destruct (dash (Some r2) ≫= hexRun 4) as [r3|] eqn:H3; [|discriminate].
      destruct (dash (Some r3) ≫= hexRun 12) as [[|]|] eqn:H4; try discriminate.
      intros _.
      apply hexRun_spec in H0 as (a & -> & Ha).
      apply dash_group in H1 as (b & Hb & ->).
      apply dash_group in H2 as (c & Hc & ->).
      apply dash_group in H3 as (d & Hd & ->).
      apply dash_group in H4 as (e & He & ->).
      exists a, b, c, d, e. rewrite append_nil_r. unfold hexGroup. auto 10.
    - intros (a & b & c & d & e & -> & Ha & Hb & Hc & Hd & He).
      assert (hexRun 8 (a ++ "-" ++ b ++ "-" ++ c ++ "-" ++ d ++ "-" ++ e)
              = Some ("-" ++ b ++ "-" ++ c ++ "-" ++ d ++ "-" ++ e)) as ->
        by (apply hexRun_spec; exists a; destruct Ha; auto).
      assert (dash (Some ("-" ++ b ++ "-" ++ c ++ "-" ++ d ++ "-" ++ e))
                ≫= hexRun 4
              = Some ("-" ++ c ++ "-" ++ d ++ "-" ++ e)) as ->
        by (apply dash_group; eauto).
      assert (dash (Some ("-" ++ c ++ "-" ++ d ++ "-" ++ e)) ≫= hexRun 4
              = Some ("-" ++ d ++ "-" ++ e)) as ->
        by (apply dash_group; eauto).
      assert (dash (Some ("-" ++ d ++ "-" ++ e)) ≫= hexRun 4
              = Some ("-" ++ e)) as ->
        by (apply dash_group; eauto).
      assert (dash (Some ("-" ++ e)) ≫= hexRun 12 = Some EmptyString) as ->.
      { apply dash_group. exists e. rewrite append_nil_r. auto. }
      reflexivity. }
  split; [exact Hiff|].
  intros (a & b & c & d & e & -> & [Ha _] & [Hb _] & [Hc _] & [Hd _] & [He _])%Hiff.
  rewrite !length_append, Ha, Hb, Hc, Hd, He. reflexivity.
Qed.

End ValidationFacts.

(** ** What the verification route answers, under every schedule of driver
    failures *)
Module VerifyRouteFacts.
Import Js Validation Store Effects EffectsFacts PaymentRoute Handlers.
Local Open Scope string_scope.

Lemma driverCall_surroundings (w w1 : World) (r : Outcome unit) :
  driverCall w = (r, w1) ->
  surroundings w1 = surroundings w /\ committed w1 = committed w.
Proof.
  unfold driverCall.
  destruct (faults w) as [|[] f]; intros [= <- <-]; split; reflexivity.
Qed.

(** [query] of [db/index.js]: it fails and changes nothing, or the statement
    ran once on the committed data. *)
Lemma query_effect (stmt : Statement) (w w1 : World) (r : Outcome Rows) :
  query stmt w = (r, w1) ->
  surroundings w1 = surroundings w /\
  ((exists e, r = Throw e /\ committed w1 = committed w) \/
   (exists rows, r = Ok rows /\
      exec (clock w) stmt (committed w) = Some (rows, committed w1))).
Proof.
  unfold query, poolConnect, clientQuery. rewrite bind_run.
  destruct (driverCall w) as [[[]|e] wa] eqn:Ha;
    destruct (driverCall_surroundings _ _ _ Ha) as [Hsa Hca].
  2:{ intros [= <- <-]. split; [exact Hsa|]. left. eauto. }
  rewrite bind_run.
  destruct (driverCall wa) as [[[]|e] wb] eqn:Hb;
    destruct (driverCall_surroundings _ _ _ Hb) as [Hsb Hcb].
  2:{ intros [= <- <-]. split; [congruence|]. left.
      eexists. split; [reflexivity|congruence]. }
  unfold runStatement.
  assert (clock wb = clock w) as Hclock.
  { unfold surroundings in *. congruence. }
  rewrite Hclock, Hcb, Hca.
  destruct (exec (clock w) stmt (committed w)) as [[rows db']|] eqn:He.
  - intros [= <- <-]. split.
    + unfold surroundings in *. cbn. congruence.
    + right. exists rows. split; reflexivity.
  - intros [= <- <-]. split; [congruence|]. left.
    eexists. split; [reflexivity|congruence].
Qed.

Section WithRuntime.
Context `{Runtime}.
Variable env : Env.
Variable isValidSolanaAddress : string -> bool.

Lemma recordAndGrant_effect (contentId signature : string)
    (payerWallet : option string) (amount : float) (message : string)
    (blockchain : option Solana.Details) (w w1 : World) (r : Outcome Response) :
  recordAndGrant env contentId signature payerWallet amount message blockchain w
  = (r, w1) ->
  surroundings w1 = surroundings w /\
  ((exists e, r = Throw e) \/
   (exists listing,
      content (committed w) !! contentId = Some listing /\
      r = Ok {| status := 200;
                body := BVerified message
                          (grantedToken env contentId signature payerWallet w)
                          (downloadUrl env contentId
                             (grantedToken env contentId signature payerWallet w))
                          blockchain |} /\
      committed w1
      = recordedIn contentId signature payerWallet amount listing w)).
Proof.
  unfold recordAndGrant. rewrite bind_run.
  destruct (query _ w) as [[rows1|e] wa] eqn:Hq1;
    destruct (query_effect _ _ _ _ Hq1) as [Hsa Hea].
  2:{ intros [= <- <-]. split; [exact Hsa|]. left. eauto. }
  destruct Hea as [(e & [=] & _)|(rows & [= <-] & He1)].
  rewrite bind_run.
  destruct (query _ wa) as [[rows2|e] wb] eqn:Hq2;
    destruct (query_effect _ _ _ _ Hq2) as [Hsb Heb].
  2:{ intros [= <- <-]. split; [congruence|]. left. eauto. }
  destruct Heb as [(e & [=] & _)|(rows' & [= <-] & He2)].
  assert (clock wa = clock w) as Hca by (unfold surroundings in *; congruence).
  assert (clock wb = clock w) as Hcb by (unfold surroundings in *; congruence).
  rewrite bind_run. unfold dateNow. rewrite Hcb.
  intros [= <- <-]. split; [congruence|]. right.
  cbn [exec] in He1.
  match type of He1 with
  | context [insertPayment ?a ?b ?c ?d ?e ?f ?g ?h] =>
      destruct (insertPayment a b c d e f g h) as [[row db1]|] eqn:Hins;
        [|discriminate]
  end.
  destruct (insertPayment_generated _ _ _ _ _ _ _ _ _ _ Hins)
    as (_ & [listing Hl] & -> & ->).
  cbn in He1. injection He1 as _ Hdb1.
  cbn [exec] in He2. unfold incrementPayments in He2.
  rewrite <- Hdb1 in He2. cbn [content] in He2. rewrite Hl in He2.
  destruct (payments listing + 1 >? INT_MAX)%Z; [discriminate|].
  cbn in He2. injection He2 as _ Hdb2.
  exists listing. split; [exact Hl|]. split; [reflexivity|].
  rewrite <- Hdb2. reflexivity.
Qed.

Lemma validatePaymentRequest_answer (req : VerifyRequest) (resp : Response) :
  validatePaymentRequest isValidSolanaAddress req = Some resp -> status resp = 400.
Proof.
  unfold validatePaymentRequest, badRequest.
  destruct (nonEmpty (contentId req)) as [cid|]; [|intros [= <-]; reflexivity].
  destruct (isValidUUID cid); cbn [negb]; [|intros [= <-]; reflexivity].
  destruct (nonEmpty (transactionSignature req)) as [sig|];
    [|intros [= <-]; reflexivity].
  destruct (signatureRegex sig); cbn [negb]; [|intros [= <-]; reflexivity].
  destruct (nonEmpty (payerWallet req)) as [wallet|]; [|discriminate].
  destruct (isValidSolanaAddress wallet); cbn [negb];
    [discriminate|intros [= <-]; reflexivity].
Qed.

(** What the middleware lets through. *)
Lemma validatePaymentRequest_next (req : VerifyRequest) :
  validatePaymentRequest isValidSolanaAddress req = None ->
  exists cid sig,
    nonEmpty (contentId req) = Some cid /\ isValidUUID cid = true /\
    nonEmpty (transactionSignature req) = Some sig /\ signatureRegex sig = true /\
    match nonEmpty (payerWallet req) with
    | Some wallet => isValidSolanaAddress wallet = true
    | None => True
    end.
Proof.
  unfold validatePaymentRequest.
  destruct (nonEmpty (contentId req)) as [cid|]; [|discriminate].
  destruct (isValidUUID cid) eqn:Hcid; cbn [negb]; [|discriminate].
  destruct (nonEmpty (transactionSignature req)) as [sig|]; [|discriminate].
  destruct (signatureRegex sig) eqn:Hsig; cbn [negb]; [|discriminate].
  destruct (nonEmpty (payerWallet req)) as [wallet|].
  - destruct (isValidSolanaAddress wallet) eqn:Hw; cbn [negb]; [|discriminate].
    intros _. exists cid, sig. auto 10.
  - intros _. exists cid, sig. auto 10.
Qed.

Lemma grantedToken_clock (cid sig : string) (payer : option string) (w wa : World) :
  clock wa = clock w -> grantedToken env cid sig payer wa = grantedToken env cid sig payer w.
Proof. unfold grantedToken. intros ->. reflexivity. Qed.

Lemma recordedIn_same (cid sig : string) (payer : option string) (amount : float)
    (listing : ContentRow) (w wa : World) :
  committed wa = committed w -> clock wa = clock w ->
  recordedIn cid sig payer amount listing wa
  = recordedIn cid sig payer amount listing w.
Proof.
  unfold recordedIn, loggedPayment. intros -> ->. reflexivity.
Qed.

Lemma handler_try_block (req : VerifyRequest) (cid sig : string) (w w1 : World)
    (r : Outcome Response) :
  (contentResult ← query (SelectContent cid);
   match contentResult with
   | ContentRows (row :: _) =>
       if startsWith sig "sim_" then
         recordAndGrant env cid sig (payerWallet req) (price_usdc row)
           "Payment verified successfully (development mode)" None
       else
         verificationResult ←
           onLedger (fun connection =>
             Solana.verifySolanaTransaction connection sig
               (creator_wallet row) (price_usdc row));
         if negb (Solana.verified verificationResult) then
           mret {| status := 402;
                   body := BNotVerified (Solana.error verificationResult)
                             (Solana.details verificationResult) |}
         else
           recordAndGrant env cid sig (payerWallet req) (price_usdc row)
             "Payment verified successfully on Solana mainnet"
             (Solana.details verificationResult)
   | _ => mret {| status := 404; body := BError "Content not found" None |}
   end) w = (r, w1) ->
  HandlerEnd env req cid sig w r w1.
Proof.
  rewrite bind_run.
  destruct (query (SelectContent cid) w) as [[rows|e] wa] eqn:Hq;
    destruct (query_effect _ _ _ _ Hq) as [Hsa Hea].
  2:{ intros [= <- <-]. constructor. }
  destruct Hea as [(e & [=] & _)|(rows' & [= <-] & He)].
  cbn in He. injection He as <- Hca. symmetry in Hca.
  assert (clock wa = clock w /\ connection wa = connection w) as [Hclock Hconn]
    by (unfold surroundings in Hsa; split; congruence).
  destruct (content (committed w) !! cid) as [listing|] eqn:Hl.
  2:{ cbn. intros [= <- <-]. apply EndNotFound; assumption. }
  change (option_list (Some listing)) with [listing]. cbn iota.
  destruct (startsWith sig "sim_") eqn:Hsim.
  - intros Hrec.
    destruct (recordAndGrant_effect _ _ _ _ _ _ _ _ _ Hrec)
      as [Hs1 [(e & ->)|(listing' & Hl' & -> & Hc1)]]; [constructor|].
    rewrite Hca, Hl in Hl'. injection Hl' as <-.
    rewrite (grantedToken_clock _ _ _ _ _ Hclock).
    rewrite (recordedIn_same _ _ _ _ _ _ _ Hca Hclock) in Hc1.
    apply (EndGranted _ _ _ _ _ listing); [exact Hl| |exact Hc1].
    left. split; [exact Hsim|]. unfold surroundings in Hs1. congruence.
  - rewrite bind_run. unfold onLedger. rewrite Hconn.
    fold (ledgerVerdict sig listing w).
    destruct (ledgerVerdict sig listing w) as [vr conn'] eqn:Hv.
    set (wl := {| committed := committed wa; session := session wa;
                  faults := faults wa; connection := conn';
                  facilitator := facilitator wa;
                  paymentSession := paymentSession wa;
                  clock := clock wa; cached := cached wa |}).
    destruct (Solana.verified vr) eqn:Hok; cbn [negb].
    + intros Hrec.
      destruct (recordAndGrant_effect _ _ _ _ _ _ _ _ _ Hrec)
        as [Hs1 [(e & ->)|(listing' & Hl' & -> & Hc1)]]; [constructor|].
      change (committed wl) with (committed wa) in Hl'.
      rewrite Hca, Hl in Hl'. injection Hl' as <-.
      rewrite (grantedToken_clock _ _ _ w wl Hclock).
      rewrite (recordedIn_same _ _ _ _ _ w wl Hca Hclock) in Hc1.
      apply (EndGranted _ _ _ _ _ listing); [exact Hl| |exact Hc1].
      right. rewrite Hv. split; [exact Hsim|]. split; [exact Hok|].
      unfold surroundings in Hs1. cbn in Hs1. cbn. congruence.
    + cbn. intros [= <- <-].
      pose proof (EndRefused env req cid sig w listing wl Hl Hsim) as Hend.
      rewrite Hv in Hend. cbn [fst snd] in Hend.
      apply Hend; [exact Hok|exact Hca|reflexivity].
Qed.

(** X6. The verification route always answers, with status 200, 400, 402,
    404 or 500. A 400 is the validation middleware's answer (the handler's
    own test for a missing content id or signature can no longer fail) and
    leaves the server as it was; a 402 or a 404 leaves the database as it
    was. *)
Theorem verify_always_answers (req : VerifyRequest) (w : World) :
  exists resp w',
    verify env isValidSolanaAddress req w = (Ok resp, w') /\
    (status resp = 200 \/ status resp = 400 \/ status resp = 402 \/
     status resp = 404 \/ status resp = 500) /\
    (status resp = 400 ->
     validatePaymentRequest isValidSolanaAddress req = Some resp /\ w' = w) /\
    (status resp = 402 \/ status resp = 404 -> committed w' = committed w).
Proof.
  unfold verify.
  destruct (validatePaymentRequest isValidSolanaAddress req) as [resp|] eqn:Hv.
  - exists resp, w. split; [reflexivity|].
    pose proof (validatePaymentRequest_answer _ _ Hv) as H400.
    rewrite H400. split; [auto|]. split; [auto|]. intros [|]; discriminate.
  - destruct (validatePaymentRequest_next _ Hv)
      as (cid & sig & Hcid & _ & Hsig & _).
    unfold verifyHandler. rewrite Hcid, Hsig. unfold tryCatch.
    match goal with
    | |- context [match ?m w with _ => _ end] =>
        destruct (m w) as [r w1] eqn:Hm
    end.
    apply handler_try_block in Hm.
    destruct Hm; eexists _, _; (split; [reflexivity|]); cbn [status];
      (split; [auto 10|]); (split; [discriminate|]);
      try (intros [|]; discriminate); auto.
Qed.

(** X7. Access is granted only for a payment that was recorded: when the
    route answers 200, the request named an existing listing, the database
    holds one more payment row, for that listing, the request's signature
    and the listing's price, the listing counts one payment more, and the
    token in the answer is the one issued for that listing and signature.
    Unless the signature starts with "sim_", the ledger verified it for the
    listing's creator and price. *)
Theorem grant_means_recorded (req : VerifyRequest) (w w' : World) (resp : Response) :
  verify env isValidSolanaAddress req w = (Ok resp, w') ->
  status resp = 200 ->
  exists cid sig listing message blockchain,
    nonEmpty (contentId req) = Some cid /\
    nonEmpty (transactionSignature req) = Some sig /\
    content (committed w) !! cid = Some listing /\
    committed w'
    = recordedIn cid sig (payerWallet req) (price_usdc listing) listing w /\
    body resp
    = BVerified message (grantedToken env cid sig (payerWallet req) w)
        (downloadUrl env cid (grantedToken env cid sig (payerWallet req) w))
        blockchain /\
    (startsWith sig "sim_" = true /\ connection w' = connection w \/
     startsWith sig "sim_" = false /\
     Solana.verified (ledgerVerdict sig listing w).1 = true /\
     connection w' = (ledgerVerdict sig listing w).2).
Proof.
  unfold verify.
  destruct (validatePaymentRequest isValidSolanaAddress req) as [resp0|] eqn:Hv.
  - intros [= <- <-] H200.
    rewrite (validatePaymentRequest_answer _ _ Hv) in H200. discriminate.
  - destruct (validatePaymentRequest_next _ Hv)
      as (cid & sig & Hcid & _ & Hsig & _).
    unfold verifyHandler. rewrite Hcid, Hsig. unfold tryCatch.
    match goal with
    | |- context [match ?m w with _ => _ end] =>
        destruct (m w) as [r w1] eqn:Hm
    end.
    apply handler_try_block in Hm.
    destruct Hm as [e w1|w1 _ _ _|listing w1 _ _ _ _ _
                   |listing message blockchain w1 Hl Hledger Hdb];
      intros [= <- <-] H200; try discriminate H200.
    exists cid, sig, listing, message, blockchain. auto 10.
Qed.

End WithRuntime.

(** *** On the sample server *)

Import NodeRuntime Samples MoreSamples.
#[local] Existing Instance runtime.

Lemma grant_means_recorded_witness :
  let w := paidWorld (listing None) [] in
  let r := verify production anyAddress (request paidSignature) w in
  exists cid sig listing message blockchain,
    nonEmpty (Validation.contentId (request paidSignature)) = Some cid /\
    nonEmpty (transactionSignature (request paidSignature)) = Some sig /\
    content (committed w) !! cid = Some listing /\
    committed r.2
    = recordedIn cid sig (payerWallet (request paidSignature))
        (price_usdc listing) listing w /\
    body (answer r)
    = BVerified message
        (grantedToken production cid sig (payerWallet (request paidSignature)) w)
        (downloadUrl production cid
           (grantedToken production cid sig
              (payerWallet (request paidSignature)) w))
        blockchain /\
    (startsWith sig "sim_" = true /\ connection r.2 = connection w \/
     startsWith sig "sim_" = false /\
     Solana.verified (ledgerVerdict sig listing w).1 = true /\
     connection r.2 = (ledgerVerdict sig listing w).2).
Proof.
  cbv zeta.
  apply (grant_means_recorded production anyAddress (request paidSignature)
           (paidWorld (listing None) [])).
  - vm_compute. reflexivity.
  - vm_compute. reflexivity.
Defined.

End VerifyRouteFacts.

(** ** The payment gate *)
Module GateFacts.
Import Js JsFacts Jwt JwtFacts Validation Store Effects EffectsFacts PaymentRoute
  X402 Handlers VerifyRouteFacts.
Local Open Scope string_scope.

Section WithRuntime.
Context `{Runtime}.
Variable env : Env.

(** Logging a payment never throws, and touches nothing but the database. *)
Lemma logPayment_effect (contentId signature : string) (payerWallet : option string)
    (amount : float) (w w1 : World) (r : Outcome unit) :
  logPayment contentId signature payerWallet amount w = (r, w1) ->
  r = Ok () /\ surroundings w1 = surroundings w.
Proof.
  unfold logPayment, tryCatch. rewrite bind_run.
  destruct (query _ w) as [[rows1|e] wa] eqn:Hq1;
    destruct (query_effect _ _ _ _ Hq1) as [Hsa _].
  2:{ intros [= <- <-]. auto. }
  rewrite bind_run.
  destruct (query _ wa) as [[rows2|e] wb] eqn:Hq2;
    destruct (query_effect _ _ _ _ Hq2) as [Hsb _];
    intros [= <- <-]; split; congruence.
Qed.

Lemma verifyX402Payment_effect (proof contentId : string) (expectedAmount : float)
    (w w1 : World) (r : Outcome bool) :
  verifyX402Payment proof contentId expectedAmount w = (r, w1) ->
  surroundings w1 = surroundings w /\
  (r = Ok true /\ vouched w proof \/
   r = Ok false /\ ~ vouched w proof /\ w1 = w).
Proof.
  unfold verifyX402Payment. rewrite bind_run. unfold askFacilitator.
  destruct (facilitator w proof) as [|[] signature payerWallet amount] eqn:Hf.
  - intros [= <- <-]. split; [reflexivity|]. right.
    repeat split. unfold vouched. rewrite Hf. intros (? & ? & ? & [=]).
  - rewrite bind_run.
    destruct (logPayment contentId signature payerWallet amount w)
      as [r0 wa] eqn:Hlog.
    destruct (logPayment_effect _ _ _ _ _ _ _ Hlog) as [-> Hsa].
    intros [= <- <-]. split; [exact Hsa|]. left.
    split; [reflexivity|]. unfold vouched. rewrite Hf. eauto.
  - intros [= <- <-]. split; [reflexivity|]. right.
    repeat split. unfold vouched. rewrite Hf. intros (? & ? & ? & [=]).
Qed.

(** X8. The gate lets a request through only for an existing listing that
    has not expired, and only on a payment proof: a token that verifies, for
    this listing and of type "payment" (the request then carries its claims
    and the database is as before), or otherwise a proof the facilitator
    vouches for. Without a proof, for an unknown or an expired listing, it
    never lets through. *)
Theorem gate_opens_only_on_proof (contentId : string) (paymentProof : option string)
    (w w' : World) (payment : option Json) :
  x402PaymentGate env contentId paymentProof w = (Ok (Next payment), w') ->
  exists listing proof,
    content (committed w) !! contentId = Some listing /\
    contentExpired listing (clock w) = false /\
    nonEmpty paymentProof = Some proof /\
    let claims := (verifyAccessToken env proof (clock w / 1000)).1 in
    (tokenGrants claims contentId = true /\ payment = claims /\
     committed w' = committed w \/
     tokenGrants claims contentId = false /\ payment = None /\
     vouched w proof).
Proof.
  unfold x402PaymentGate, tryCatch.
  match goal with
  | |- context [match ?m w with _ => _ end] => destruct (m w) as [r w1] eqn:Hm
  end.
  destruct r as [g|e]; [|discriminate]. intros [= -> <-].
  rewrite bind_run in Hm.
  destruct (query (SelectContent contentId) w) as [[rows|e] wa] eqn:Hq;
    destruct (query_effect _ _ _ _ Hq) as [Hsa Hea]; [|discriminate].
  destruct Hea as [(e & [=] & _)|(rows' & [= <-] & He)].
  cbn in He. injection He as <- Hca. symmetry in Hca.
  assert (clock wa = clock w /\ facilitator wa = facilitator w) as [Hclock Hfac]
    by (unfold surroundings in Hsa; split; congruence).
  destruct (content (committed w) !! contentId) as [listing|] eqn:Hl;
    [|discriminate].
  change (option_list (Some listing)) with [listing] in Hm. cbn iota in Hm.
  rewrite bind_run in Hm. unfold dateNow in Hm. rewrite Hclock in Hm.
  destruct (contentExpired listing (clock w)) eqn:Hexp; [discriminate|].
  destruct (nonEmpty paymentProof) as [proof|] eqn:Hproof; [|discriminate].
  exists listing, proof.
  split; [reflexivity|]. split; [exact Hexp|]. split; [reflexivity|]. cbv zeta.
  destruct (tokenGrants (verifyAccessToken env proof (clock w / 1000)).1 contentId)
    eqn:Hgrant.
  - injection Hm as <- <-. left. auto.
  - rewrite bind_run in Hm.
    destruct (verifyX402Payment proof contentId (price_usdc listing) wa)
      as [rv wb] eqn:Hx.
    destruct (verifyX402Payment_effect _ _ _ _ _ _ Hx)
      as [Hsb [[-> Hv]|(-> & _ & _)]]; [|discriminate].
    injection Hm as <- <-. right. repeat split.
    unfold vouched in *. rewrite <- Hfac. exact Hv.
Qed.

(** *** Tokens granted by the verification route *)

Lemma select_content_run (cid : string) (w : World) (f : list bool) :
  faults w = false :: false :: f ->
  query (SelectContent cid) w
  = (Ok (ContentRows (option_list (content (committed w) !! cid))),
     setDb w (committed w) (session w) f).
Proof.
  intros Hf. unfold query, poolConnect, clientQuery.
  rewrite bind_run. unfold driverCall at 1. rewrite Hf.
  rewrite bind_run. unfold driverCall at 1. cbn [faults setDb].
  unfold runStatement. reflexivity.
Qed.

Lemma token_not_empty (a b : string) :
  nonEmpty (Some (a ++ "." ++ b)) = Some (a ++ "." ++ b).
Proof. destruct a; reflexivity. Qed.

Lemma grantedClaims_fields (cid sig : string) (payer : option string) (w0 : World) :
  let claims := grantedClaims cid sig payer w0 in
  claims !! "contentId" = Some (JStr cid) /\
  claims !! "type" = Some (JStr "payment") /\
  claims !! "exp" = Some (JNum (clock w0 / 1000 + 604800)).
Proof.
  unfold grantedClaims, claimsOf, tokenPayload. split; [|split].
  - rewrite !lookup_insert_ne by discriminate. apply lookup_insert_eq.
  - rewrite !lookup_insert_ne by discriminate. apply lookup_insert_eq.
  - apply lookup_insert_eq.
Qed.

(** What [verifyAccessToken] makes of a granted token at time [now]. *)
Lemma grantedToken_verifies (cid sig : string) (payer : option string)
    (w0 : World) (now : Z) :
  runtimeSoundOn env (JObj (grantedClaims cid sig payer w0)) ->
  (verifyAccessToken env (grantedToken env cid sig payer w0) now).1
  = if expired (JObj (grantedClaims cid sig payer w0)) now then None
    else Some (JObj (grantedClaims cid sig payer w0)).
Proof.
  intros Hsound. unfold grantedToken, generateAccessToken.
  fold (grantedClaims cid sig payer w0).
  rewrite (encodeAndSign_verifies _ _ _ Hsound) by discriminate.
  destruct (expired _ now); reflexivity.
Qed.

Lemma grantedToken_nonEmpty (cid sig : string) (payer : option string) (w0 : World) :
  nonEmpty (Some (grantedToken env cid sig payer w0))
  = Some (grantedToken env cid sig payer w0).
Proof.
  unfold grantedToken, generateAccessToken, encodeAndSign. apply token_not_empty.
Qed.

(** X9. The token granted by the verification route opens the gate of its
    listing: presented within seven days (and while the listing has not
    expired), the request is let through with the token's claims, without
    asking the facilitator and without writing to the database. *)
Theorem granted_token_opens_gate (cid sig : string) (payer : option string)
    (w0 w : World) (listing : ContentRow) :
  runtimeSoundOn env (JObj (grantedClaims cid sig payer w0)) ->
  faults w = [] ->
  content (committed w) !! cid = Some listing ->
  contentExpired listing (clock w) = false ->
  (clock w / 1000 <= clock w0 / 1000 + 604800)%Z ->
  exists w',
    x402PaymentGate env cid (Some (grantedToken env cid sig payer w0)) w
    = (Ok (Next (Some (JObj (grantedClaims cid sig payer w0)))), w') /\
    committed w' = committed w.
Proof.
  intros Hsound Hf Hl Hexp Hnow.
  destruct (grantedClaims_fields cid sig payer w0) as (Hcid & Htype & Hexpiry).
  unfold x402PaymentGate, tryCatch.
  rewrite bind_run, (PaymentRouteFacts.select_content_ok _ _ Hf), Hl.
  change (option_list (Some listing)) with [listing]. cbn iota.
  rewrite bind_run. unfold dateNow. cbn [clock setDb]. rewrite Hexp.
  rewrite grantedToken_nonEmpty, (grantedToken_verifies _ _ _ _ _ Hsound).
  assert (expired (JObj (grantedClaims cid sig payer w0)) (clock w / 1000) = false)
    as ->.
  { unfold expired. cbn [prop]. rewrite Hexpiry. cbn [truthy lessThan].
    replace (clock w0 / 1000 + 604800 <? clock w / 1000)%Z with false
      by (symmetry; apply Z.ltb_ge; exact Hnow).
    apply andb_false_r. }
  assert (tokenGrants (Some (JObj (grantedClaims cid sig payer w0))) cid = true)
    as ->.
  { unfold tokenGrants. cbn [truthy prop]. rewrite Hcid, Htype.
    cbn [strictEqString]. rewrite String.eqb_refl. reflexivity. }
  eexists. split; reflexivity.
Qed.

(** X10. A granted token is bound to its listing: presented for another
    listing it is not accepted as a token, at any time; unless the
    facilitator vouches for it as a proof of its own, the gate answers 402
    with that listing's price and recipient. *)
Theorem granted_token_is_bound_to_its_listing (cid other sig : string)
    (payer : option string) (w0 w : World) (listing : ContentRow) :
  runtimeSoundOn env (JObj (grantedClaims cid sig payer w0)) ->
  other <> cid ->
  faults w = [] ->
  content (committed w) !! other = Some listing ->
  contentExpired listing (clock w) = false ->
  ~ vouched w (grantedToken env cid sig payer w0) ->
  exists w',
    x402PaymentGate env other (Some (grantedToken env cid sig payer w0)) w
    = (Ok (paymentRequired other listing), w') /\
    committed w' = committed w.
Proof.
  intros Hsound Hother Hf Hl Hexp Hvouch.
  destruct (grantedClaims_fields cid sig payer w0) as (Hcid & _ & _).
  unfold x402PaymentGate, tryCatch.
  rewrite bind_run, (PaymentRouteFacts.select_content_ok _ _ Hf), Hl.
  change (option_list (Some listing)) with [listing]. cbn iota.
  rewrite bind_run. unfold dateNow. cbn [clock setDb]. rewrite Hexp.
  rewrite grantedToken_nonEmpty, (grantedToken_verifies _ _ _ _ _ Hsound).
  assert (tokenGrants
            (if expired (JObj (grantedClaims cid sig payer w0)) (clock w / 1000)
             then None else Some (JObj (grantedClaims cid sig payer w0)))
            other = false) as ->.
  { destruct (expired _ _); [reflexivity|].
    unfold tokenGrants. cbn [truthy prop]. rewrite Hcid. cbn [strictEqString].
    destruct (String.eqb_spec cid other); [congruence|reflexivity]. }
  rewrite bind_run.
  match goal with
  | |- context [verifyX402Payment ?p ?c ?a ?wa] =>
      destruct (verifyX402Payment p c a wa) as [rv wb] eqn:Hx
  end.
  destruct (verifyX402Payment_effect _ _ _ _ _ _ Hx)
    as [_ [[_ Hv]|(-> & _ & ->)]].
  - exfalso. apply Hvouch. exact Hv.
  - eexists. split; reflexivity.
Qed.

(** *** Proofs the facilitator vouches for *)

Lemma logPayment_ok (cid signature : string) (payerWallet : option string)
    (amount : float) (w : World) (listing : ContentRow) :
  faults w = [] ->
  content (committed w) !! cid = Some listing ->
  (payments listing < INT_MAX)%Z ->
  fitsColumns (orString payerWallet "unknown") amount signature = true ->
  logPayment cid signature payerWallet amount w
  = (Ok (), setDb w (recordedIn cid signature payerWallet amount listing w)
              (session w) []).
Proof.
  intros Hf Hl Hmax Hfits. unfold logPayment, tryCatch.
  rewrite bind_run, (query_ok _ _ Hf).
  cbn [exec]. unfold insertPayment. rewrite Hfits.
  cbn [negb uuidOf duplicateKey]. rewrite Hl. cbn [mbind option_bind].
  cbn -[Z.add Z.mul Z.div Z.gtb].
  rewrite bind_run, query_ok by reflexivity.
  cbn [exec committed setDb clock]. unfold incrementPayments.
  cbn [content]. rewrite Hl.
  replace (payments listing + 1 >? INT_MAX)%Z with false
    by (symmetry; rewrite Z.gtb_ltb; apply Z.ltb_ge; lia).
  cbn -[Z.add Z.mul Z.div]. reflexivity.
Qed.

(** X11. A proof that is no valid token for the listing but that the
    facilitator vouches for opens the gate every time it is presented,
    whatever the database driver does after the listing was read and
    whatever the facilitator reports. When the driver works and what the
    facilitator reports fits the columns of [payment_logs] (a signature of
    at most 255 characters, a payer of at most 100, an amount below
    99999999.995), every such request logs one more payment, with the
    signature and the payer the facilitator reported, and counts it on the
    listing: the gate does not look for an earlier row. *)
Theorem vouched_proof_is_logged_every_time (cid proof signature : string)
    (payerWallet : option string) (amount : float) (w : World)
    (listing : ContentRow) (f : list bool) :
  faults w = false :: false :: f ->
  content (committed w) !! cid = Some listing ->
  contentExpired listing (clock w) = false ->
  proof <> EmptyString ->
  tokenGrants (verifyAccessToken env proof (clock w / 1000)).1 cid = false ->
  facilitator w proof = FacData true signature payerWallet amount ->
  (x402PaymentGate env cid (Some proof) w).1 = Ok (Next None) /\
  (f = [] -> (payments listing < INT_MAX)%Z ->
   fitsColumns (orString payerWallet "unknown") amount signature = true ->
   exists stored,
     committed (x402PaymentGate env cid (Some proof) w).2
     = recordedIn cid signature payerWallet stored listing w).
Proof.
  intros Hf Hl Hexp Hproof Hgrant Hfac.
  unfold x402PaymentGate, tryCatch.
  rewrite bind_run, (select_content_run _ _ _ Hf), Hl.
  change (option_list (Some listing)) with [listing]. cbn iota.
  rewrite bind_run. unfold dateNow. cbn [clock setDb]. rewrite Hexp.
  assert (nonEmpty (Some proof) = Some proof) as ->.
  { cbn. destruct (String.eqb_spec proof EmptyString); [contradiction|reflexivity]. }
  rewrite Hgrant, bind_run.
  unfold verifyX402Payment. rewrite bind_run. unfold askFacilitator.
  cbn [facilitator setDb]. rewrite Hfac. rewrite bind_run.
  set (wa := setDb w (committed w) (session w) f).
  destruct (logPayment cid signature payerWallet amount wa) as [r0 wb] eqn:Hlog.
  destruct (logPayment_effect _ _ _ _ _ _ _ Hlog) as [-> _].
  split; [reflexivity|].
  intros -> Hmax Hfits. exists amount.
  rewrite (logPayment_ok _ _ _ _ wa listing) in Hlog by (try reflexivity; assumption).
  injection Hlog as <-. reflexivity.
Qed.

End WithRuntime.

(** *** On the sample server *)

Import NodeRuntime Samples MoreSamples.
#[local] Existing Instance runtime.

Lemma gate_opens_only_on_proof_witness :
  let w := world (listing None) [] in
  let token := grantedToken production contentId "sim_demo" None w in
  exists listing proof,
    content (committed w) !! contentId = Some listing /\
    contentExpired listing (clock w) = false /\
    nonEmpty (Some token) = Some proof /\
    let claims := (verifyAccessToken production proof (clock w / 1000)).1 in
    (tokenGrants claims contentId = true /\
     Some (JObj (grantedClaims contentId "sim_demo" None w)) = claims /\
     committed (x402PaymentGate production contentId (Some token) w).2
     = committed w \/
     tokenGrants claims contentId = false /\
     Some (JObj (grantedClaims contentId "sim_demo" None w)) = None /\
     vouched w proof).
Proof.
  cbv zeta.
  apply (gate_opens_only_on_proof production contentId
           (Some (grantedToken production contentId "sim_demo" None
                    (world (listing None) [])))
           (world (listing None) [])).
  vm_compute. reflexivity.
Defined.

Lemma granted_token_opens_gate_witness :
  let w0 := world (listing None) [] in
  let w := paidWorld (listing (Some 1800000000000%Z)) [] in
  exists w',
    x402PaymentGate production contentId
      (Some (grantedToken production contentId "sim_demo" None w0)) w
    = (Ok (Next (Some (JObj (grantedClaims contentId "sim_demo" None w0)))), w') /\
    committed w' = committed w.
Proof.
  cbv zeta.
  apply (granted_token_opens_gate production contentId "sim_demo" None
           (world (listing None) [])
           (paidWorld (listing (Some 1800000000000%Z)) [])
           (listing (Some 1800000000000%Z))).
  - repeat split; vm_compute; reflexivity.
  - reflexivity.
  - vm_compute. reflexivity.
  - vm_compute. reflexivity.
  - vm_compute. discriminate.
Defined.

Lemma granted_token_is_bound_to_its_listing_witness :
  let w := world (listing None) [] in
  let token := grantedToken production "0a1b2c3d-0000-4000-8000-00000000abcd"
                 "sim_demo" None w in
  exists w',
    x402PaymentGate production contentId (Some token) w
    = (Ok (paymentRequired contentId (listing None)), w') /\
    committed w' = committed w.
Proof.
  cbv zeta.
  apply (granted_token_is_bound_to_its_listing production
           "0a1b2c3d-0000-4000-8000-00000000abcd" contentId "sim_demo" None
           (world (listing None) []) (world (listing None) []) (listing None)).
  - repeat split; vm_compute; reflexivity.
  - vm_compute. discriminate.
  - reflexivity.
  - vm_compute. reflexivity.
  - reflexivity.
  - intros (signature & payerWallet & amount & Hf). discriminate Hf.
Defined.

Lemma vouched_proof_is_logged_every_time_witness :
  (x402PaymentGate production contentId (Some "legacy-proof")
     (vouchingWorld [false; false])).1 = Ok (Next None) /\
  (x402PaymentGate production contentId (Some "legacy-proof")
     (vouchingWorld [false; false; true])).1 = Ok (Next None) /\
  exists stored,
    committed (x402PaymentGate production contentId (Some "legacy-proof")
                 (vouchingWorld [false; false])).2
    = recordedIn contentId "sig-F" (Some "Payer") stored (listing None)
        (vouchingWorld [false; false]).
Proof.
  pose proof (vouched_proof_is_logged_every_time production contentId
                "legacy-proof" "sig-F" (Some "Payer") 1
                (vouchingWorld [false; false]) (listing None) []) as Hall.
  pose proof (vouched_proof_is_logged_every_time production contentId
                "legacy-proof" "sig-F" (Some "Payer") 1
                (vouchingWorld [false; false; true]) (listing None) [true]) as Hfail.
  destruct Hall as [Hopen Hlogged];
    try (vm_compute; reflexivity); [discriminate|].
  destruct Hfail as [Hopen' _];
    try (vm_compute; reflexivity); [discriminate|].
  split; [exact Hopen|]. split; [exact Hopen'|].
  apply Hlogged; [reflexivity| |]; vm_compute; reflexivity.
Defined.


End GateFacts.

(** ** The database manager: retries and transactions *)
Module ManagerFacts.
Import Store Effects EffectsFacts DatabaseManager DatabaseManagerFacts Batches.
Local Open Scope string_scope.



(** *** Retries *)

Lemma attempt_fails (n : nat) (stmt : Statement) (e : string) (w : World)
    (f : list bool) :
  faults w = true :: f ->
  queryAttempts (S n) Pool stmt e w
  = queryAttempts n Pool stmt "driver error" (setDb w (committed w) (session w) f).
Proof.
  intros Hf. cbn [queryAttempts]. rewrite tryCatch_run.
  unfold clientQuery. rewrite bind_run. unfold driverCall. rewrite Hf. reflexivity.
Qed.

Lemma attempt_succeeds (n : nat) (stmt : Statement) (e : string) (w : World)
    (rows : Rows) (c1 : Db) :
  head (faults w) <> Some true ->
  exec (clock w) stmt (committed w) = Some (rows, c1) ->
  exists w1, queryAttempts (S n) Pool stmt e w = (Ok rows, w1) /\ committed w1 = c1.
Proof.
  intros Hf Hexec. cbn [queryAttempts]. rewrite tryCatch_run.
  unfold clientQuery. rewrite bind_run. unfold driverCall.
  destruct (faults w) as [|[] f] eqn:Hfaults; [|cbn in Hf; congruence|];
    unfold runStatement; cbn [clock committed setDb]; rewrite Hexec;
    eexists; split; reflexivity.
Qed.

(** X13. [query] tries a statement up to three times: it fails only when the
    driver fails three times in a row, and then rethrows the driver's error
    and leaves the data as they were; otherwise the statement ran, once, and
    its rows are returned. *)
Theorem query_gives_up_after_three_failures (stmt : Statement) (w : World)
    (rows : Rows) (c1 : Db) :
  exec (clock w) stmt (committed w) = Some (rows, c1) ->
  let r := query stmt None w in
  if bool_decide (take 3 (faults w) = [true; true; true])
  then r.1 = Throw "driver error" /\ committed r.2 = committed w
  else r.1 = Ok rows /\ committed r.2 = c1.
Proof.
  intros Hexec r. subst r. unfold query. cbn [default].
  destruct (faults w) as [|[] f1] eqn:Hf1.
  - destruct (attempt_succeeds 2 stmt EmptyString w rows c1) as (w1 & -> & Hc);
      [rewrite Hf1; discriminate|exact Hexec|]. cbn; case_bool_decide as Hd; try discriminate Hd; try (exfalso; apply Hd; reflexivity); auto.
  - rewrite (attempt_fails _ _ _ _ _ Hf1).
    set (wa := setDb w (committed w) (session w) f1).
    destruct f1 as [|[] f2].
    + destruct (attempt_succeeds 1 stmt "driver error" wa rows c1)
        as (w1 & -> & Hc); [discriminate|exact Hexec|]. cbn; case_bool_decide as Hd; try discriminate Hd; try (exfalso; apply Hd; reflexivity); auto.
    + rewrite (attempt_fails _ _ _ wa f2 eq_refl).
      set (wb := setDb wa (committed wa) (session wa) f2).
      destruct f2 as [|[] f3].
      * destruct (attempt_succeeds 0 stmt "driver error" wb rows c1)
          as (w1 & -> & Hc); [discriminate|exact Hexec|]. cbn; case_bool_decide as Hd; try discriminate Hd; try (exfalso; apply Hd; reflexivity); auto.
      * rewrite (attempt_fails _ _ _ wb f3 eq_refl). cbn; case_bool_decide as Hd; try discriminate Hd; try (exfalso; apply Hd; reflexivity); auto.
      * destruct (attempt_succeeds 0 stmt "driver error" wb rows c1)
          as (w1 & -> & Hc); [discriminate|exact Hexec|]. cbn; case_bool_decide as Hd; try discriminate Hd; try (exfalso; apply Hd; reflexivity); auto.
    + destruct (attempt_succeeds 1 stmt "driver error" wa rows c1)
        as (w1 & -> & Hc); [discriminate|exact Hexec|]. cbn; case_bool_decide as Hd; try discriminate Hd; try (exfalso; apply Hd; reflexivity); auto.
  - destruct (attempt_succeeds 2 stmt EmptyString w rows c1) as (w1 & -> & Hc);
      [rewrite Hf1; discriminate|exact Hexec|]. cbn; case_bool_decide as Hd; try discriminate Hd; try (exfalso; apply Hd; reflexivity); auto.
Qed.

(** *** On the sample server *)

Import Samples MoreSamples.


Lemma query_gives_up_after_three_failures_witness :
  let stmt := UpdatePaymentCount contentId in
  let failing := query stmt None (world (listing None) [true; true; true]) in
  let retried := query stmt None (world (listing None) [true; true; false]) in
  (failing.1 = Throw "driver error" /\
   committed failing.2 = committed (world (listing None) [])) /\
  (retried.1 = Ok (CountRows [1%Z]) /\
   payments <$> content (committed retried.2) !! contentId = Some 1%Z).
Proof.
  cbv zeta.
  pose proof (query_gives_up_after_three_failures (UpdatePaymentCount contentId)
                (world (listing None) [true; true; true])) as Hfail.
  pose proof (query_gives_up_after_three_failures (UpdatePaymentCount contentId)
                (world (listing None) [true; true; false])) as Hretry.
  cbv zeta in Hfail, Hretry.
  split.
  - eapply Hfail. vm_compute. reflexivity.
  - specialize (Hretry (CountRows [1%Z]) _ eq_refl).
    destruct Hretry as [Hrows Hdb]. split; [exact Hrows|].
    rewrite Hdb. vm_compute. reflexivity.
Defined.

Lemma createPayment_idempotent_witness :
  let w := world (listing None) [] in
  let first := paymentData Samples.paymentId "sig-A" in
  let second := paymentData Samples.otherPaymentId "sig-A" in
  let a := createPayment first w in
  let b := createPayment second (withFaults a.2 [false; true; true; true]) in
  (exists e, a.1 = Throw e) /\ committed a.2 = committed w \/
  (exists row,
     a.1 = Ok (Some row) /\
     recorded first (clock w) (committed w) row (committed a.2) /\
     sameSignature first (committed a.2) = [row] /\
     committed b.2 = committed a.2 /\
     (b.1 = Ok (Some row) \/ exists e, b.1 = Throw e)).
Proof.
  cbv zeta.
  apply (createPayment_idempotent (paymentData Samples.paymentId "sig-A")
           (paymentData Samples.otherPaymentId "sig-A")
           (world (listing None) []) _ _ _ _ [false; true; true; true]).
  - reflexivity.
  - reflexivity.
  - apply surjective_pairing.
  - apply surjective_pairing.
Defined.

End ManagerFacts.

(** ** Rate limiters: pruning never changes a decision *)
Module RateLimitFacts.
Import RateLimits.

Lemma recent_app (window now : Z) (l1 l2 : list Z) :
  recent window now (l1 ++ l2) = recent window now l1 ++ recent window now l2.
Proof. apply filter_app. Qed.

(** Pruning at an earlier time loses nothing of a later window. *)
Lemma recent_recent (window now later : Z) (l : list Z) :
  (now <= later)%Z ->
  recent window later (recent window now l) = recent window later l.
Proof.
  intros Hle. unfold recent. induction l as [|t l IH]; [reflexivity|].
  rewrite !filter_cons.
  destruct (decide (now - t < window)%Z) as [Hin|Hout].
  - rewrite filter_cons. destruct (decide (later - t < window)%Z);
      rewrite IH; reflexivity.
  - rewrite IH. destruct (decide (later - t < window)%Z); [lia|reflexivity].
Qed.

Lemma timesOf_app (identifier : string) (h1 h2 : list (string * Z)) :
  timesOf identifier (h1 ++ h2) = timesOf identifier h1 ++ timesOf identifier h2.
Proof. apply omap_app. Qed.

Lemma timesOf_one (identifier other : string) (now : Z) :
  timesOf identifier [(other, now)]
  = if bool_decide (other = identifier) then [now] else [].
Proof. unfold timesOf. cbn. case_bool_decide; reflexivity. Qed.

Lemma agrees_empty (window now : Z) : agrees window now [] ∅.
Proof. intros identifier later _. rewrite lookup_empty. reflexivity. Qed.

Lemma agrees_later (window now later : Z) (history : list (string * Z))
    (stored : gmap string (list Z)) :
  (now <= later)%Z -> agrees window now history stored ->
  agrees window later history stored.
Proof. intros Hle Hag identifier t Ht. apply Hag. lia. Qed.

(** The step both limiters take on an accepted attempt. *)
Lemma agrees_push (window now : Z) (history : list (string * Z))
    (stored : gmap string (list Z)) (identifier : string) :
  agrees window now history stored ->
  agrees window now (history ++ [(identifier, now)])
    (<[identifier := recent window now (default [] (stored !! identifier)) ++ [now]]>
       stored).
Proof.
  intros Hag other later Hle.
  rewrite timesOf_app, timesOf_one, recent_app.
  destruct (decide (identifier = other)) as [->|Hne].
  - rewrite lookup_insert_eq, bool_decide_eq_true_2 by reflexivity. cbn [from_option id].
    rewrite recent_app, (recent_recent _ _ _ _ Hle), (Hag other later Hle).
    reflexivity.
  - rewrite lookup_insert_ne, bool_decide_eq_false_2 by assumption.
    rewrite (Hag other later Hle). symmetry. apply app_nil_r.
Qed.

(** The step of [cleanup]. *)
Lemma agrees_cleanup (window now : Z) (history : list (string * Z))
    (stored : gmap string (list Z)) :
  agrees window now history stored ->
  agrees window now history
    (omap (fun timestamps =>
             let valid := recent window now timestamps in
             if (length valid =? 0)%nat then None else Some valid) stored).
Proof.
  intros Hag identifier later Hle. rewrite lookup_omap.
  rewrite <- (Hag identifier later Hle).
  destruct (stored !! identifier) as [timestamps|]; [|reflexivity].
  cbn [mbind option_bind].
  destruct (recent window now timestamps) as [|t valid] eqn:Hvalid; cbn [length Nat.eqb from_option id].
  - rewrite <- (recent_recent _ _ _ timestamps Hle), Hvalid. reflexivity.
  - rewrite <- Hvalid. apply (recent_recent _ _ _ _ Hle).
Qed.

(** X15. The attempt limiter of the validation middleware decides as a
    limiter that forgets nothing: as long as the clock does not run
    backwards, an attempt is accepted exactly when at most ten accepted
    attempts of the same identifier lie less than a minute before it (so at
    most eleven are accepted in any minute); refused attempts are not
    counted. *)
Theorem validation_limiter_counts (calls : list (string * Z)) (start : Z) :
  nondecreasing start (map snd calls) ->
  checkAll calls ∅ = counting 60000 (fun n => negb (10 <? n)%nat) calls [].
Proof.
  assert (forall history stored now0,
            agrees 60000 now0 history stored ->
            nondecreasing now0 (map snd calls) ->
            checkAll calls stored
            = counting 60000 (fun n => negb (10 <? n)%nat) calls history) as Hgen.
  { induction calls as [|[identifier now] rest IH]; intros history stored now0 Hag;
      [reflexivity|].
    cbn [map snd nondecreasing]. intros [Hle Hrest].
    apply (agrees_later _ _ _ _ _ Hle) in Hag.
    cbn [checkAll counting]. unfold checkValidationRateLimit.
    pose proof (Hag identifier now (Z.le_refl now)) as Hcount.
    rewrite Hcount.
    destruct (10 <? length (recent 60000 now (timesOf identifier history)))%nat;
      cbn [negb]; f_equal.
    - apply (IH _ _ now Hag Hrest).
    - apply (IH _ _ now); [|exact Hrest].
      rewrite <- Hcount. apply agrees_push, Hag. }
  intros Hclock. apply (Hgen [] ∅ start (agrees_empty _ _) Hclock).
Qed.

(** ten attempts a second apart, an eleventh and a twelfth in the same
    minute, and one a minute later *)
Lemma validation_limiter_counts_witness :
  let times := [1000; 2000; 3000; 4000; 5000; 6000; 7000; 8000; 9000; 10000;
                11000; 12000; 61500]%Z in
  let calls := map (fun t => ("203.0.113.7", t)) times in
  checkAll calls ∅
  = counting 60000 (fun n => negb (10 <? n)%nat) calls [] /\
  checkAll calls ∅
  = [true; true; true; true; true; true; true; true; true; true;
     true; false; true].
Proof.
  cbv zeta. split.
  - apply (validation_limiter_counts _ 0). cbn. lia.
  - vm_compute. reflexivity.
Defined.

(** X16. An [EnhancedRateLimiter] decides as a limiter that forgets nothing:
    as long as the clock does not run backwards, a request is allowed exactly
    when fewer than [maxRequests] allowed requests of the same identifier lie
    less than [windowMs] before it, whenever the random clean-up runs. *)
Theorem enhanced_limiter_counts (options : Options)
    (calls : list (string * Z * option Z)) (start : Z) :
  nondecreasing start (clockReadings calls) ->
  let limiter := construct options in
  allowAll calls limiter
  = counting (windowMs limiter)
      (fun n => negb (maxRequests limiter <=? Z.of_nat n)%Z)
      (map fst calls) [].
Proof.
  intros Hclock limiter.
  assert (forall history l now0,
            windowMs l = windowMs limiter -> maxRequests l = maxRequests limiter ->
            agrees (windowMs limiter) now0 history (requests l) ->
            nondecreasing now0 (clockReadings calls) ->
            allowAll calls l
            = counting (windowMs limiter)
                (fun n => negb (maxRequests limiter <=? Z.of_nat n)%Z)
                (map fst calls) history) as Hgen.
  { clear Hclock.
    induction calls as [|[[identifier now] cleanupAt] rest IH];
      intros history l now0 Hw Hm Hag; [reflexivity|].
    cbn [clockReadings nondecreasing]. intros [Hle Hrest].
    apply (agrees_later _ _ _ _ _ Hle) in Hag.
    cbn [allowAll map fst counting]. unfold isAllowed. rewrite Hw, Hm.
    pose proof (Hag identifier now (Z.le_refl now)) as Hcount.
    rewrite Hcount.
    destruct (maxRequests limiter
              <=? Z.of_nat (length (recent (windowMs limiter) now
                                      (timesOf identifier history))))%Z;
      cbn [negb]; f_equal.
    - destruct cleanupAt as [later|].
      + destruct Hrest as [Hle' Hrest].
        apply (IH _ _ later Hw Hm); [|exact Hrest].
        apply (agrees_later _ _ _ _ _ Hle'), Hag.
      + apply (IH _ _ now Hw Hm Hag Hrest).
    - pose proof (agrees_push _ _ _ _ identifier Hag) as Hpush.
      rewrite Hcount in Hpush.
      destruct cleanupAt as [later|].
      + destruct Hrest as [Hle' Hrest].
        apply (IH _ _ later); [reflexivity|reflexivity| |exact Hrest].
        unfold cleanup. cbn [requests windowMs].
        apply agrees_cleanup, (agrees_later _ _ _ _ _ Hle'), Hpush.
      + apply (IH _ _ now); [reflexivity|reflexivity|exact Hpush|exact Hrest]. }
  apply (Hgen [] limiter start); try reflexivity; [apply agrees_empty|exact Hclock].
Qed.

(** a limiter of two requests a second: the third request of a second is
    refused, with or without a clean-up in between *)
Lemma enhanced_limiter_counts_witness :
  let options := {| opt_windowMs := Some 1000%Z; opt_maxRequests := Some 2%Z |} in
  let calls := [("a", 10, None); ("a", 20, Some 25); ("a", 30, None);
                ("b", 40, Some 2000); ("a", 2010, None)]%Z in
  allowAll calls (construct options)
  = counting 1000 (fun n => negb (2 <=? Z.of_nat n)%Z) (map fst calls) [] /\
  allowAll calls (construct options) = [true; true; false; true; true].
Proof.
  cbv zeta. split.
  - apply (enhanced_limiter_counts
             {| opt_windowMs := Some 1000%Z; opt_maxRequests := Some 2%Z |}
             _ 0).
    cbn. lia.
  - vm_compute. reflexivity.
Defined.

End RateLimitFacts.

(** ** Escaping and path sanitisation *)
Module SecurityFacts.
Import Js JsFacts JwtFacts Security.
Local Open Scope string_scope.

Lemma escapeMap_entity (c : Ascii.ascii) (entity : string) :
  escapeMap c = Some entity ->
  allChars (fun x => negb (isMarkup x)) entity = true.
Proof.
  unfold escapeMap.
  repeat match goal with
         | |- (if ?b then _ else _) = _ -> _ => destruct b
         end; intros [= <-]; reflexivity.
Qed.

Lemma escapeMap_none (c : Ascii.ascii) :
  escapeMap c = None -> isMarkup c = false /\ Ascii.eqb c "&" = false.
Proof.
  unfold escapeMap, isMarkup.
  repeat match goal with
         | |- (if ?b then _ else _) = _ -> _ => destruct b eqn:?
         end; try discriminate.
  intros _. split; reflexivity.
Qed.

Lemma escapeMap_plain (c : Ascii.ascii) :
  isMarkup c = false -> Ascii.eqb c "&" = false -> escapeMap c = None.
Proof.
  unfold escapeMap, isMarkup. intros Hm ->.
  repeat (apply orb_false_iff in Hm as [Hm ?]).
  repeat match goal with
         | H : Ascii.eqb c _ = false |- _ => rewrite H; clear H
         end.
  reflexivity.
Qed.

(** X17. What [escapeHTML] returns for a string holds none of the characters
    [<], [>], the double and the single quote, the slash, the backquote and
    [=]; a string that holds none of them and no [&] is returned unchanged,
    and so is a value that is no string. *)
Theorem escapeHTML_removes_markup (v : Json) :
  match v with
  | JStr s =>
      exists out,
        escapeHTML v = JStr out /\
        allChars (fun c => negb (isMarkup c)) out = true /\
        (allChars (fun c => negb (isMarkup c) && negb (Ascii.eqb c "&")) s = true ->
         out = s)
  | _ => escapeHTML v = v
  end.
Proof.
  destruct v as [| | |s| |]; try reflexivity.
  exists (escapeText s). split; [reflexivity|]. split.
  - induction s as [|c s IH]; [reflexivity|]. cbn [escapeText].
    destruct (escapeMap c) as [entity|] eqn:Hc.
    + rewrite allChars_app, (escapeMap_entity _ _ Hc), IH. reflexivity.
    + destruct (escapeMap_none _ Hc) as [Hm _]. cbn [allChars].
      rewrite Hm, IH. reflexivity.
  - induction s as [|c s IH]; [reflexivity|]. cbn [allChars escapeText].
    intros [[Hm Ha]%andb_true_iff Hs]%andb_true_iff.
    apply negb_true_iff in Hm, Ha.
    rewrite (escapeMap_plain _ Hm Ha), (IH Hs). reflexivity.
Qed.

(** *** [sanitizePath] *)

(** Induction on texts two characters at a time. *)
Lemma string_pair_ind (P : string -> Prop) :
  P EmptyString ->
  (forall c, P (String c EmptyString)) ->
  (forall c d s, P s -> P (String d s) -> P (String c (String d s))) ->
  forall s, P s.
Proof.
  intros H0 H1 H2.
  assert (forall s, P s /\ forall c, P (String c s)) as Hboth.
  { induction s as [|d s [IHs IHc]]; [auto|]. split; [apply IHc|].
    intros c. apply H2; [exact IHs|apply IHc]. }
  intros s. apply Hboth.
Qed.

Lemma noDotDot_cons (c : Ascii.ascii) (s : string) :
  noDotDot (String c s)
  = match s with
    | String d _ => negb (Ascii.eqb c "." && Ascii.eqb d ".") && noDotDot s
    | EmptyString => true
    end.
Proof. reflexivity. Qed.

Lemma noDotDot_plain (c : Ascii.ascii) (s : string) :
  Ascii.eqb c "." = false -> noDotDot (String c s) = noDotDot s.
Proof.
  intros Hc. rewrite noDotDot_cons. destruct s as [|d s]; [reflexivity|].
  rewrite Hc. reflexivity.
Qed.

Lemma removeDotDot_step (c d : Ascii.ascii) (s : string) :
  removeDotDot (String c (String d s))
  = if Ascii.eqb c "." && Ascii.eqb d "." then removeDotDot s
    else String c (removeDotDot (String d s)).
Proof. reflexivity. Qed.

Lemma removeDotDot_plain (c : Ascii.ascii) (s : string) :
  Ascii.eqb c "." = false -> removeDotDot (String c s) = String c (removeDotDot s).
Proof.
  intros Hc. destruct s as [|d s]; [reflexivity|].
  rewrite removeDotDot_step, Hc. reflexivity.
Qed.

(** After the first replacement no two dots are left in a row. *)
Lemma removeDotDot_noDotDot (s : string) : noDotDot (removeDotDot s) = true.
Proof.
  induction s as [|c|c d s IHs IHd] using string_pair_ind; try reflexivity.
  rewrite removeDotDot_step.
  destruct (Ascii.eqb c ".") eqn:Hc; cbn [andb].
  - destruct (Ascii.eqb d ".") eqn:Hd; [exact IHs|].
    rewrite (removeDotDot_plain _ _ Hd) in *.
    rewrite noDotDot_cons, Hc, Hd, IHd. reflexivity.
  - rewrite (noDotDot_plain _ _ Hc). exact IHd.
Qed.

(** Collapsing separators puts no two dots side by side. *)
Lemma collapseFrom_noDotDot (inRun : bool) (s : string) :
  noDotDot s = true -> noDotDot (collapseFrom inRun s) = true.
Proof.
  revert inRun.
  induction s as [|c|c d s IHs IHd] using string_pair_ind; intros inRun.
  - reflexivity.
  - intros _. cbn. destruct (isSeparator c), inRun; reflexivity.
  - rewrite noDotDot_cons. intros [Hcd Hrest]%andb_true_iff.
    apply negb_true_iff in Hcd.
    change (collapseFrom inRun (String c (String d s)))
      with (if isSeparator c then
              if inRun then collapseFrom true (String d s)
              else String "/" (collapseFrom true (String d s))
            else String c (collapseFrom false (String d s))).
    destruct (isSeparator c) eqn:Hsep.
    + destruct inRun; [apply IHd, Hrest|].
      rewrite noDotDot_plain by reflexivity. apply IHd, Hrest.
    + destruct (Ascii.eqb c ".") eqn:Hc;
        [|rewrite (noDotDot_plain _ _ Hc); apply IHd, Hrest].
      cbn [andb] in Hcd.
      (* [d] is no dot: it is copied, or it opens a run that becomes a slash *)
      change (collapseFrom false (String d s))
        with (if isSeparator d then String "/" (collapseFrom true s)
              else String d (collapseFrom false s)).
      pose proof (IHd false Hrest) as Hd.
      change (collapseFrom false (String d s))
        with (if isSeparator d then String "/" (collapseFrom true s)
              else String d (collapseFrom false s)) in Hd.
      destruct (isSeparator d).
      * rewrite noDotDot_cons, Hd, Hc. reflexivity.
      * rewrite noDotDot_cons, Hd, Hcd, andb_false_r. reflexivity.
Qed.

Lemma noDotDot_tail (c : Ascii.ascii) (s : string) :
  noDotDot (String c s) = true -> noDotDot s = true.
Proof.
  rewrite noDotDot_cons. destruct s as [|d s]; [reflexivity|].
  intros [_ H]%andb_true_iff. exact H.
Qed.

Lemma stripLeadingSeparator_noDotDot (s : string) :
  noDotDot s = true -> noDotDot (stripLeadingSeparator s) = true.
Proof.
  destruct s as [|c s]; [reflexivity|]. cbn [stripLeadingSeparator].
  destruct (isSeparator c); [apply noDotDot_tail|auto].
Qed.

(** After collapsing, the only separator left is the slash, and no two
    stand side by side; after a run nothing starts with a separator. *)
Lemma collapseFrom_separators (inRun : bool) (s : string) :
  noChar backslash (collapseFrom inRun s) = true /\
  noDoubleSeparator (collapseFrom inRun s) = true /\
  (inRun = true -> startsFree isSeparator (collapseFrom inRun s) = true).
Proof.
  revert inRun. induction s as [|c s IH]; intros inRun; [auto|].
  cbn [collapseFrom].
  destruct (IH true) as (Hb1 & Hd1 & Hs1), (IH false) as (Hb0 & Hd0 & _).
  specialize (Hs1 eq_refl).
  destruct (isSeparator c) eqn:Hsep.
  - destruct inRun; [auto|].
    split; [exact Hb1|]. split; [|discriminate].
    cbn [noDoubleSeparator]. destruct (collapseFrom true s) as [|d r]; [reflexivity|].
    cbn [startsFree] in Hs1. apply negb_true_iff in Hs1.
    rewrite Hs1, andb_false_r. exact Hd1.
  - split; [|split].
    + unfold noChar in *. cbn [allChars]. rewrite Hb0, andb_true_r.
      apply negb_true_iff. unfold isSeparator in Hsep.
      apply orb_false_iff in Hsep as [_ Hsep]. exact Hsep.
    + cbn [noDoubleSeparator]. destruct (collapseFrom false s) as [|d r];
        [reflexivity|]. rewrite Hsep. exact Hd0.
    + intros _. cbn [startsFree]. rewrite Hsep. reflexivity.
Qed.

Lemma fromLastDot_suffix (s : string) : exists stem, s = stem ++ fromLastDot s.
Proof.
  induction s as [|c s [stem IH]]; [exists EmptyString; reflexivity|].
  cbn [fromLastDot]. destruct (noChar "." s).
  - exists EmptyString. reflexivity.
  - exists (String c stem). rewrite append_cons, <- IH. reflexivity.
Qed.

Lemma includes_elem (l : list string) (x : string) :
  includes l x = true -> x ∈ l.
Proof.
  unfold includes. intros (y & Hin & ->%String.eqb_eq)%existsb_exists.
  apply list_elem_of_In, Hin.
Qed.

(** X18. A path that [sanitizePath] returns holds no two dots in a row (no
    [..] step), no backslash, no two slashes in a row, does not start with a
    slash, and ends, the case of letters apart, with one of the allowed
    extensions. *)
Theorem sanitizePath_result (filepath s : string) :
  sanitizePath filepath = Some s ->
  noDotDot s = true /\
  noChar backslash s = true /\
  noDoubleSeparator s = true /\
  startsFree isSeparator s = true /\
  exists ext, ext ∈ allowedExtensions /\ endsWithIgnoringCase s ext.
Proof.
  unfold sanitizePath.
  destruct (includes allowedExtensions (toLowerCase (fromLastDot (sanitized filepath))))
    eqn:Hext; [|discriminate].
  cbn [negb]. intros [= <-].
  unfold sanitized in *. unfold collapseSeparators in *.
  set (r := removeDotDot filepath) in *.
  destruct (collapseFrom_separators false r) as (Hb & Hd & _).
  pose proof (collapseFrom_noDotDot false r (removeDotDot_noDotDot filepath)) as Hdots.
  set (t := collapseFrom false r) in *.
  split; [apply stripLeadingSeparator_noDotDot, Hdots|].
  assert (noChar backslash (stripLeadingSeparator t) = true /\
          noDoubleSeparator (stripLeadingSeparator t) = true /\
          startsFree isSeparator (stripLeadingSeparator t) = true)
    as (H1 & H2 & H3).
  { destruct t as [|c t]; [auto|]. cbn [stripLeadingSeparator].
    destruct (isSeparator c) eqn:Hsep.
    - unfold noChar in Hb. cbn [allChars] in Hb.
      apply andb_true_iff in Hb as [_ Hb].
      split; [exact Hb|]. cbn [noDoubleSeparator] in Hd.
      destruct t as [|d t]; [auto|].
      apply andb_true_iff in Hd as [Hcd Hd]. rewrite Hsep in Hcd.
      cbn [andb] in Hcd. split; [exact Hd|]. exact Hcd.
    - split; [exact Hb|]. split; [exact Hd|]. cbn [startsFree].
      rewrite Hsep. reflexivity. }
  split; [exact H1|]. split; [exact H2|]. split; [exact H3|].
  exists (toLowerCase (fromLastDot (stripLeadingSeparator t))).
  split; [apply includes_elem, Hext|].
  destruct (fromLastDot_suffix (stripLeadingSeparator t)) as [stem Hstem].
  exists stem, (fromLastDot (stripLeadingSeparator t)). auto.
Qed.

(** a climb out of the upload directory, with an extension in capitals *)
Lemma sanitizePath_result_witness :
  sanitizePath "../../etc/report.PDF" = Some "etc/report.PDF" /\
  noDotDot "etc/report.PDF" = true /\
  noChar backslash "etc/report.PDF" = true /\
  noDoubleSeparator "etc/report.PDF" = true /\
  startsFree isSeparator "etc/report.PDF" = true /\
  exists ext, ext ∈ allowedExtensions /\ endsWithIgnoringCase "etc/report.PDF" ext.
Proof.
  split; [vm_compute; reflexivity|].
  apply (sanitizePath_result "../../etc/report.PDF"). vm_compute. reflexivity.
Defined.

(** *** [secureCompare] *)

Section Encoding.
Local Open Scope Z_scope.
Local Open Scope list_scope.

Ltac bools :=
  repeat match goal with
  | H : _ && _ = true |- _ => apply andb_true_iff in H; destruct H
  | H : _ && _ = false |- _ => apply andb_false_iff in H
  | H : negb _ = true |- _ => apply negb_true_iff in H
  | H : (_ <=? _) = true |- _ => apply Z.leb_le in H
  | H : (_ <=? _) = false |- _ => apply Z.leb_gt in H
  | H : (_ <? _) = true |- _ => apply Z.ltb_lt in H
  | H : (_ <? _) = false |- _ => apply Z.ltb_ge in H
  end.

Lemma wellFormed_head (units : list Z) :
  wellFormed units = true -> units <> [] ->
  exists bytes rest,
    Head units bytes rest /\ wellFormed rest = true /\
    bufferFrom units = bytes ++ bufferFrom rest /\
    (length rest < length units)%nat.
Proof.
  destruct units as [|u rest]; [congruence|]. intros Hwf _.
  cbn [wellFormed] in Hwf. apply andb_true_iff in Hwf as [Hrange Hwf].
  bools. cbn [bufferFrom].
  destruct (u <? 128) eqn:H1.
  - assert (isHighSurrogate u = false) as Hh
      by (unfold isHighSurrogate; bools; apply andb_false_iff; left; apply Z.leb_gt; lia).
    rewrite Hh in Hwf. bools.
    exists [u], rest. split; [constructor; lia|]. split; [assumption|].
    split; [reflexivity|cbn; lia].
  - destruct (u <? 2048) eqn:H2.
    + assert (isHighSurrogate u = false) as Hh
        by (unfold isHighSurrogate; bools; apply andb_false_iff; left; apply Z.leb_gt; lia).
      rewrite Hh in Hwf. bools.
      eexists _, rest. split; [apply HeadTwo; lia|]. split; [assumption|].
      split; [reflexivity|cbn; lia].
    + destruct (isHighSurrogate u) eqn:Hh.
      * destruct rest as [|low rest']; [discriminate|].
        apply andb_true_iff in Hwf as [Hl Hwf]. rewrite Hl.
        unfold isHighSurrogate, isLowSurrogate in *. bools.
        eexists _, rest'. split; [apply HeadPair; lia|]. split; [assumption|].
        split; [reflexivity|cbn; lia].
      * apply andb_true_iff in Hwf as [Hl Hwf]. apply negb_true_iff in Hl.
        rewrite Hl.
        eexists _, rest. split.
        -- apply HeadThree; [bools; lia|].
           unfold isHighSurrogate, isLowSurrogate in *.
           intros [Ha Hb]. bools.
           destruct (Z_le_gt_dec u 56319).
           ++ destruct Hh as [Hh|Hh]; bools; lia.
           ++ destruct Hl as [Hl|Hl]; bools; lia.
        -- split; [assumption|]. split; [reflexivity|cbn; lia].
Qed.

(** Two heads with encodings that start alike are the same head. *)
Lemma head_inj (a b bytesA bytesB restA restB tailA tailB : list Z) :
  Head a bytesA restA -> Head b bytesB restB ->
  bytesA ++ tailA = bytesB ++ tailB ->
  bytesA = bytesB /\ tailA = tailB /\
  exists front, a = front ++ restA /\ b = front ++ restB.
Proof.
  intros Ha Hb Heq.
  destruct Ha as [u ra Hu|u ra Hu|u ra Hu Hs|h l ra Hh Hl];
    destruct Hb as [v rb Hv|v rb Hv|v rb Hv Hs'|h' l' rb Hh' Hl'];
    cbn in Heq; inversion Heq; clear Heq;
    try (exfalso; unfold codePoint in *; Z.div_mod_to_equations; lia).
  - subst. split; [reflexivity|]. split; [reflexivity|]. exists [v]. auto.
  - assert (u = v) as -> by (Z.div_mod_to_equations; lia).
    subst. split; [reflexivity|]. split; [reflexivity|]. exists [v]. auto.
  - assert (u = v) as -> by (Z.div_mod_to_equations; lia).
    subst. split; [reflexivity|]. split; [reflexivity|]. exists [v]. auto.
  - assert (codePoint h l = codePoint h' l') as Hc
      by (unfold codePoint in *; Z.div_mod_to_equations; lia).
    assert (h = h' /\ l = l') as [-> ->] by (unfold codePoint in Hc; lia).
    subst. split; [reflexivity|]. split; [reflexivity|]. exists [h'; l']. auto.
Qed.

Lemma head_nonempty (a bytes rest : list Z) : Head a bytes rest -> bytes <> [].
Proof. intros []; discriminate. Qed.

Lemma bufferFrom_inj (a : list Z) :
  forall b, wellFormed a = true -> wellFormed b = true ->
            bufferFrom a = bufferFrom b -> a = b.
Proof.
  induction a as [a IH] using (induction_ltof1 _ (@length Z)). unfold ltof in IH.
  intros b Ha Hb Heq.
  destruct (decide (a = [])) as [->|Hna]; destruct (decide (b = [])) as [->|Hnb].
  - reflexivity.
  - destruct (wellFormed_head b Hb Hnb) as (bytes & rest & Hhead & _ & Hbuf & _).
    rewrite Hbuf in Heq. apply head_nonempty in Hhead.
    destruct bytes; [congruence|discriminate].
  - destruct (wellFormed_head a Ha Hna) as (bytes & rest & Hhead & _ & Hbuf & _).
    rewrite Hbuf in Heq. apply head_nonempty in Hhead.
    destruct bytes; [congruence|discriminate].
  - destruct (wellFormed_head a Ha Hna) as (bytesA & restA & HheadA & HwfA & HbufA & Hlt).
    destruct (wellFormed_head b Hb Hnb) as (bytesB & restB & HheadB & HwfB & HbufB & _).
    rewrite HbufA, HbufB in Heq.
    destruct (head_inj _ _ _ _ _ _ _ _ HheadA HheadB Heq)
      as (_ & Htail & front & -> & ->).
    f_equal. apply IH; assumption.
Qed.


(** X19. [secureCompare] never throws: the length test it makes first is
    the condition under which [crypto.timingSafeEqual] does not throw. It
    returns true exactly when both arguments are strings with the same
    bytes in UTF-8. For strings in which every surrogate has its partner
    that is when they are the same string; a surrogate without its partner
    is encoded as U+FFFD, so that two different such strings compare as
    equal. *)
Theorem secureCompare_compares_encodings (a b : Value) :
  (exists r,
     secureCompare a b = Some r /\
     (r = true <->
      exists sa sb, a = StringValue sa /\ b = StringValue sb /\
                    bufferFrom sa = bufferFrom sb) /\
     (forall sa sb,
        a = StringValue sa -> b = StringValue sb ->
        wellFormed sa = true -> wellFormed sb = true ->
        (r = true <-> sa = sb))) /\
  secureCompare (StringValue [55296]) (StringValue [56000]) = Some true.
Proof.
  split; [|reflexivity].
  destruct a as [sa|], b as [sb|];
    try (exists false; split; [reflexivity|];
         split; [split; [discriminate|intros (? & ? & ? & ? & _); discriminate]|];
         intros ? ? ? ?; discriminate).
  unfold secureCompare, timingSafeEqualBuffers. cbv zeta.
  destruct (Nat.eqb (length (bufferFrom sa)) (length (bufferFrom sb))) eqn:Hlen;
    cbn [negb].
  - exists (bool_decide (bufferFrom sa = bufferFrom sb)).
    split; [reflexivity|]. split.
    + rewrite bool_decide_eq_true. split.
      * intros Heq. exists sa, sb. auto.
      * intros (xa & xb & [= <-] & [= <-] & Heq). exact Heq.
    + intros xa xb [= <-] [= <-] Hwa Hwb. rewrite bool_decide_eq_true. split.
      * apply bufferFrom_inj; assumption.
      * intros ->. reflexivity.
  - assert (bufferFrom sa <> bufferFrom sb) as Hne.
    { intros Heq. rewrite Heq, Nat.eqb_refl in Hlen. discriminate. }
    exists false. split; [reflexivity|]. split.
    + split; [discriminate|].
      intros (xa & xb & [= <-] & [= <-] & Heq). contradiction.
    + intros xa xb [= <-] [= <-] _ _. split; [discriminate|].
      intros ->. contradiction.
Qed.

End Encoding.

End SecurityFacts.

(** ** CSRF tokens *)
Module CsrfFacts.
Import Js Validation Csrf.
Local Open Scope string_scope.

Section WithHmac.
Variable hmacSha256Hex : string -> string -> string.

Lemma timingSafeEqual_same (a : string) : Security.timingSafeEqual a a = Some true.
Proof.
  unfold Security.timingSafeEqual. rewrite Nat.eqb_refl, String.eqb_refl.
  reflexivity.
Qed.

(** What [generateToken] for one session leaves of the entry of another,
    when its clean-up comes before that entry expires. *)
Lemma generateToken_other (sessionId other random : string) (now cleanupNow : Z)
    (p : CSRFProtection) (entry : Stored) :
  other <> sessionId ->
  (cleanupNow <= expires entry)%Z ->
  tokens p !! sessionId = Some entry ->
  let p' := (generateToken hmacSha256Hex other random now cleanupNow p).2 in
  secret p' = secret p /\ tokens p' !! sessionId = Some entry.
Proof.
  intros Hother Hclean Hentry. cbv zeta. split; [reflexivity|].
  unfold generateToken, cleanupExpired. cbn [snd tokens].
  apply map_lookup_filter_Some. split.
  - rewrite lookup_insert_ne by exact Hother. exact Hentry.
  - cbn [snd]. lia.
Qed.

Lemma generateAll_others (sessionId : string) (entry : Stored)
    (calls : list (string * string * Z * Z)) (p : CSRFProtection) :
  Forall (fun call : string * string * Z * Z =>
            call.1.1.1 <> sessionId /\ (call.2 <= expires entry)%Z) calls ->
  tokens p !! sessionId = Some entry ->
  secret (generateAll hmacSha256Hex calls p) = secret p /\
  tokens (generateAll hmacSha256Hex calls p) !! sessionId = Some entry.
Proof.
  intros Hcalls. revert p.
  induction Hcalls as [|call calls [Hother Hclean] _ IH]; intros p Hentry.
  - split; [reflexivity|exact Hentry].
  - cbn [generateAll fold_left].
    destruct (generateToken_other sessionId call.1.1.1 call.1.1.2 call.1.2 call.2
                p entry Hother Hclean Hentry) as [Hsecret Hentry'].
    destruct (IH _ Hentry') as [Hsecret' Hkept].
    split; [|exact Hkept].
    unfold generateAll in Hsecret'. rewrite Hsecret'. exact Hsecret.
Qed.

(** X20. A CSRF token validates for the session it was generated for until
    one hour after it was issued, as long as no other token is generated
    for that session: tokens generated for other sessions meanwhile, and
    the clean-ups they run within that hour, leave it alone, and a request
    other than GET that carries it passes the middleware. After the hour it
    is refused. A token generated for the same session replaces it: the
    first token is then no longer accepted, unless both have the same
    digest. *)
Theorem csrf_token_lives_until_replaced (sessionId random : string)
    (now cleanupNow : Z) (p : CSRFProtection)
    (calls : list (string * string * Z * Z)) :
  (cleanupNow <= now + 3600000)%Z ->
  Forall (fun call : string * string * Z * Z =>
            call.1.1.1 <> sessionId /\ (call.2 <= now + 3600000)%Z) calls ->
  let issued := (generateToken hmacSha256Hex sessionId random now cleanupNow p).2 in
  let store := generateAll hmacSha256Hex calls issued in
  (forall later : Z,
     (later <= now + 3600000)%Z ->
     validateToken hmacSha256Hex sessionId (JStr random) later store = Some true /\
     (random <> EmptyString ->
      csrfMiddleware hmacSha256Hex "POST" sessionId (Some (JStr random)) later
        store = Next)) /\
  (forall later : Z,
     (now + 3600000 < later)%Z ->
     validateToken hmacSha256Hex sessionId (JStr random) later store = Some false) /\
  (forall (random' : string) (now' cleanupNow' later : Z),
     hmacSha256Hex (secret p) random' <> hmacSha256Hex (secret p) random ->
     validateToken hmacSha256Hex sessionId (JStr random) later
       (generateToken hmacSha256Hex sessionId random' now' cleanupNow' store).2
     <> Some true).
Proof.
  intros Hclean Hcalls issued store.
  set (entry := {| token := hmacSha256Hex (secret p) random;
                   expires := now + 3600000 |}).
  assert (tokens issued !! sessionId = Some entry) as Hissued.
  { subst issued. unfold generateToken, cleanupExpired. cbn [snd tokens].
    apply map_lookup_filter_Some. split; [apply lookup_insert_eq|].
    unfold entry. cbn [snd expires]. lia. }
  destruct (generateAll_others sessionId entry calls issued Hcalls Hissued)
    as [Hsecret Hstored].
  fold store in Hsecret, Hstored.
  assert (secret store = secret p) as Hsecret' by (rewrite Hsecret; reflexivity).
  split; [|split].
  - intros later Hlater.
    assert (validateToken hmacSha256Hex sessionId (JStr random) later store
            = Some true) as Hvalid.
    { unfold validateToken. rewrite Hstored, Hsecret'. cbn [expires token entry].
      replace (now + 3600000 <? later)%Z with false
        by (symmetry; apply Z.ltb_ge; exact Hlater).
      apply timingSafeEqual_same. }
    split; [exact Hvalid|].
    intros Hne. unfold csrfMiddleware. cbn [String.eqb truthy].
    destruct (String.eqb_spec random EmptyString) as [|_]; [contradiction|].
    cbn [negb]. rewrite Hvalid. reflexivity.
  - intros later Hlater. unfold validateToken. rewrite Hstored. cbn [expires entry].
    replace (now + 3600000 <? later)%Z with true
      by (symmetry; apply Z.ltb_lt; exact Hlater).
    reflexivity.
  - intros random' now' cleanupNow' later Hdigest.
    unfold validateToken, generateToken, cleanupExpired. cbn [snd tokens secret].
    destruct (filter _ _ !! sessionId) as [stored|] eqn:Hreplaced; [|discriminate].
    apply map_lookup_filter_Some in Hreplaced as [Hreplaced _].
    rewrite lookup_insert_eq in Hreplaced. injection Hreplaced as <-.
    cbn [expires token]. destruct (_ <? later)%Z; [discriminate|].
    rewrite Hsecret'. unfold Security.timingSafeEqual.
    destruct (_ =? _)%nat; [|discriminate].
    destruct (String.eqb_spec (hmacSha256Hex (secret p) random')
                (hmacSha256Hex (secret p) random)) as [Heq|_]; [contradiction|].
    discriminate.
Qed.

End WithHmac.

(** with the digest of the sample runtime: a token drawn at 12:00 is
    accepted at 12:59 and refused at 13:01, also after a token was drawn
    for another session at 12:30; a second token for the same session
    replaces it *)
Lemma csrf_token_lives_until_replaced_witness :
  let digest := NodeRuntime.keyedDigest in
  let p := construct (Some "csrf-secret") "unused" in
  let issued := (generateToken digest "session-1" "c0ffee" 43200000 43200001 p).2 in
  let store := generateAll digest [("session-2", "decaf", 45000000, 45000001)%Z] issued in
  validateToken digest "session-1" (JStr "c0ffee") 46740000 store = Some true /\
  validateToken digest "session-1" (JStr "c0ffee") 46860000 store = Some false /\
  validateToken digest "session-1" (JStr "c0ffee") 46740000
    (generateToken digest "session-1" "f00d" 45100000 45100001 store).2
  <> Some true.
Proof.
  cbv zeta.
  destruct (csrf_token_lives_until_replaced NodeRuntime.keyedDigest "session-1"
              "c0ffee" 43200000 43200001 (construct (Some "csrf-secret") "unused")
              [("session-2", "decaf", 45000000, 45000001)%Z])
    as (Hlive & Hdead & Hreplaced).
  - lia.
  - constructor; [|constructor]. cbn. split; [discriminate|lia].
  - split; [apply Hlive; lia|]. split; [apply Hdead; lia|].
    apply Hreplaced. vm_compute. discriminate.
Defined.

End CsrfFacts.

(** ** The circuit breaker *)
Module BreakerFacts.
Import Breaker.

Lemma failingCalls_cons (t : Z * Z * Z) (rest : list (Z * Z * Z))
    (b : CircuitBreaker) :
  failingCalls (t :: rest) b
  = let r := call (A := unit) t.1.1 (inr "down"%string) t.1.2 t.2 b in
    let rs := failingCalls rest r.2 in
    (match r.1 with Rejected => rs.1 | _ => S rs.1 end, rs.2).
Proof.
  destruct t as [[now failedAt] openedAt]. cbn [failingCalls fst snd]. cbv zeta.
  destruct (call now _ failedAt openedAt b) as [outcome b']. cbn [fst snd].
  destruct (failingCalls rest b') as [reached b'']. reflexivity.
Qed.

(** While the breaker is open and the time to try again has not come, no
    call reaches the function and nothing changes. *)
Lemma open_rejects (times : list (Z * Z * Z)) (b : CircuitBreaker) :
  state b = OPEN ->
  Forall (fun t : Z * Z * Z => (t.1.1 < nextAttempt b)%Z) times ->
  failingCalls times b = (0, b).
Proof.
  intros Hopen Hearly. induction Hearly as [|t rest Ht _ IH]; [reflexivity|].
  rewrite failingCalls_cons. unfold call. rewrite Hopen.
  replace (t.1.1 <? nextAttempt b)%Z with true
    by (symmetry; apply Z.ltb_lt; exact Ht).
  cbn [fst snd]. rewrite IH. reflexivity.
Qed.

(** X21. A breaker that is closed lets failures through until
    [failureThreshold] of them have come in a row (one, when the threshold
    is smaller), opens with the last of them, and from then on rejects every
    call without calling the function, as long as [resetTimeout] has not
    passed. So of a run of failing calls made within [resetTimeout] of
    [t0], the function sees the first [tolerated] and no more. *)
Theorem breaker_opens_after_threshold (times : list (Z * Z * Z)) (b : CircuitBreaker)
    (t0 : Z) (failed : nat) :
  state b = CLOSED ->
  failures b = Z.of_nat failed ->
  (failed < tolerated b)%nat ->
  within t0 (t0 + resetTimeout b) times ->
  let run := failingCalls times b in
  run.1 = Nat.min (length times) (tolerated b - failed) /\
  (state run.2 = OPEN <-> (tolerated b - failed <= length times)%nat) /\
  (state run.2 = CLOSED <-> (length times < tolerated b - failed)%nat).
Proof.
  revert b failed.
  induction times as [|t rest IH]; intros b failed Hclosed Hfailures Hfew Hwithin.
  - cbn. rewrite Hclosed. repeat split; try discriminate; try lia.
  - apply Forall_cons in Hwithin as [(Hnow & Hfailed & Hopened) Hrest].
    cbv zeta. rewrite failingCalls_cons. unfold call. rewrite Hclosed.
    cbn [fst snd].
    set (b1 := onFailure t.1.2 t.2 b).
    assert (failureThreshold b1 = failureThreshold b /\
            resetTimeout b1 = resetTimeout b /\
            failures b1 = Z.of_nat (S failed)) as (HT & HR & HF).
    { subst b1. unfold onFailure. cbn. rewrite Hfailures. repeat split. lia. }
    assert (tolerated b1 = tolerated b) as Htol by (unfold tolerated; congruence).
    destruct (failureThreshold b <=? failures b + 1)%Z eqn:Hopening.
    + (* this failure opens the breaker *)
      assert (tolerated b - failed = 1)%nat as Hlast.
      { apply Z.leb_le in Hopening. unfold tolerated in *. lia. }
      assert (state b1 = OPEN /\ nextAttempt b1 = t.2 + resetTimeout b)%Z
        as [Hopen Hnext].
      { subst b1. unfold onFailure. rewrite Hopening. split; reflexivity. }
      rewrite (open_rejects rest b1 Hopen).
      * cbn [fst snd]. rewrite Hopen, Hlast. cbn [length].
        repeat split; try discriminate; try lia.
      * rewrite Hnext. eapply Forall_impl; [exact Hrest|].
        cbn beta. intros x (Hx & _ & _). lia.
    + (* the breaker stays closed *)
      assert (state b1 = CLOSED) as Hclosed1.
      { subst b1. unfold onFailure. rewrite Hopening. exact Hclosed. }
      assert (S failed < tolerated b)%nat as Hfew1.
      { apply Z.leb_gt in Hopening. unfold tolerated in *. lia. }
      destruct (IH b1 (S failed) Hclosed1 HF) as (Hn & Ho & Hc).
      * rewrite Htol. exact Hfew1.
      * rewrite HR. exact Hrest.
      * cbv zeta in Hn, Ho, Hc. rewrite Htol in Hn, Ho, Hc.
        cbn [fst snd length]. rewrite Hn, Ho, Hc.
        repeat split; intros; lia.
Qed.

(** a breaker with the default options, and seven failing calls, one every
    second: five reach the function *)
Lemma breaker_opens_after_threshold_witness :
  let b := construct {| opt_failureThreshold := None; opt_resetTimeout := None;
                        opt_monitoringPeriod := None |} 0 in
  let times := map (fun t : Z => (t, t, t)) [1000; 2000; 3000; 4000; 5000; 6000; 7000]%Z in
  (failingCalls times b).1 = 5%nat /\ state (failingCalls times b).2 = OPEN.
Proof.
  cbv zeta.
  destruct (breaker_opens_after_threshold
              (map (fun t : Z => (t, t, t)) [1000; 2000; 3000; 4000; 5000; 6000; 7000]%Z)
              (construct {| opt_failureThreshold := None; opt_resetTimeout := None;
                            opt_monitoringPeriod := None |} 0) 0 0)
    as (Hreached & Hopen & _).
  - reflexivity.
  - reflexivity.
  - vm_compute. lia.
  - unfold within. cbn. repeat constructor; cbn; lia.
  - split; [exact Hreached|]. apply Hopen. vm_compute. lia.
Defined.

(** X22. Once [resetTimeout] has passed, an open breaker lets a trial call
    through. If the trial fails the breaker is open again, for another
    [resetTimeout] from that failure; if it succeeds the breaker is half
    open, and a second success closes it with the failure count at zero. *)
Theorem breaker_recovers {A} (b : CircuitBreaker) (now failedAt openedAt next : Z)
    (r1 r2 : A) (error : string) :
  state b = OPEN ->
  successCount b = 0%Z ->
  (failureThreshold b <= failures b)%Z ->
  (nextAttempt b <= now)%Z ->
  let failed := call (A := A) now (inr error) failedAt openedAt b in
  let first := call now (inl r1) failedAt openedAt b in
  let second := call next (inl r2) failedAt openedAt first.2 in
  (failed.1 = Failed error /\ state failed.2 = OPEN /\
   nextAttempt failed.2 = (openedAt + resetTimeout b)%Z) /\
  (first.1 = Returned r1 /\ state first.2 = HALF_OPEN /\ failures first.2 = 0%Z) /\
  (second.1 = Returned r2 /\ state second.2 = CLOSED /\ failures second.2 = 0%Z /\
   successCount second.2 = 0%Z).
Proof.
  intros Hopen Hcount Hfailures Hdue. cbv zeta. unfold call. rewrite Hopen.
  replace (now <? nextAttempt b)%Z with false
    by (symmetry; apply Z.ltb_ge; exact Hdue).
  cbn [fst snd]. split; [|split].
  - unfold onFailure, withState. cbn.
    replace (failureThreshold b <=? failures b + 1)%Z with true
      by (symmetry; apply Z.leb_le; lia).
    repeat split.
  - unfold onSuccess, withState. cbn. rewrite Hcount. cbn. repeat split.
  - unfold onSuccess, withState. cbn. rewrite Hcount. cbn. repeat split.
Qed.

(** the breaker that five failures opened at 5000 is tried again at 65000 *)
Lemma breaker_recovers_witness :
  let b0 := construct {| opt_failureThreshold := None; opt_resetTimeout := None;
                         opt_monitoringPeriod := None |} 0 in
  let b := (failingCalls (map (fun t : Z => (t, t, t))
                            [1000; 2000; 3000; 4000; 5000]%Z) b0).2 in
  state b = OPEN /\
  state (call 65000 (inl 1%nat) 65000 65000 b).2 = HALF_OPEN /\
  state (call 65001 (inl 2%nat) 65001 65001
           (call 65000 (inl 1%nat) 65000 65000 b).2).2 = CLOSED /\
  nextAttempt (call (A := nat) 65000 (inr "down"%string) 65000 65002 b).2 = 125002%Z.
Proof.
  cbv zeta.
  set (b := (failingCalls _ _).2).
  destruct (breaker_recovers (A := nat) b 65000 65000 65000 65001 1%nat 2%nat "down")
    as (_ & (_ & Hhalf & _) & (_ & Hclosed & _)); try (vm_compute; congruence).
  destruct (breaker_recovers (A := nat) b 65000 65000 65002 65001 1%nat 2%nat "down")
    as ((_ & _ & Hnext) & _); try (vm_compute; congruence).
  split; [reflexivity|]. split; [exact Hhalf|]. split.
  - exact Hclosed.
  - exact Hnext.
Defined.

End BreakerFacts.

(** ** Routes whose middleware reads a parameter the pattern does not bind *)
Module RouterFacts.
Import Js Validation Store Effects Router.
Local Open Scope string_scope.

(** A match binds the names of the pattern and no other. *)
Lemma matchPath_binds (pattern : list Segment) (path : list string)
    (params : gmap string string) (name : string) :
  matchPath pattern path = Some params ->
  is_Some (params !! name) -> name ∈ names pattern.
Proof.
  revert path params.
  induction pattern as [|s pattern IH]; intros path params Hmatch [v Hv].
  - destruct path; [|discriminate]. injection Hmatch as <-.
    rewrite lookup_empty in Hv. discriminate.
  - destruct path as [|segment path]; [destruct s; discriminate|].
    destruct s as [text|bound]; cbn in Hmatch.
    + destruct (String.eqb _ _); [|discriminate].
      unfold names. cbn. eapply IH; eauto.
    + destruct (matchPath pattern path) as [params'|] eqn:Hrest; [|discriminate].
      cbn in Hmatch. injection Hmatch as <-.
      unfold names. cbn. destruct (decide (bound = name)) as [->|Hne].
      * apply list_elem_of_here.
      * apply list_elem_of_further. rewrite lookup_insert_ne in Hv by exact Hne.
        eapply IH; eauto.
Qed.

(** X23. POST /initiate and GET /status/:contentId never reach their
    handlers. [validateContentId] reads [req.params.id], and neither pattern
    binds [id]: whatever the path that matches, the body and the query, the
    answer is 400 'Invalid content ID', and the server is left as it was. *)
Theorem initiate_and_status_always_refuse {Q}
    (handler : gmap string string -> Q -> M Response)
    (path : list string) (body : option string) (query : Q) (w : World) :
  let refused :=
    {| status := 400;
       body := BError "Invalid content ID"
                 (Some "Content ID must be a valid UUID") |} in
  (forall run, postInitiate path body = Some run -> run w = (Ok refused, w)) /\
  (forall run, getStatus handler path query = Some run -> run w = (Ok refused, w)).
Proof.
  cbv zeta. split; intros run Hrun.
  - unfold postInitiate in Hrun.
    destruct (matchPath [Lit "initiate"] path) as [params|] eqn:Hmatch;
      [|discriminate].
    cbn in Hrun. injection Hrun as <-.
    destruct (params !! "id") as [v|] eqn:Hid.
    + assert ("id" ∈ names [Lit "initiate"]) as Hin
        by (eapply matchPath_binds; eauto).
      cbn in Hin. inversion Hin.
    + reflexivity.
  - unfold getStatus in Hrun.
    destruct (matchPath [Lit "status"; Param "contentId"] path) as [params|]
      eqn:Hmatch; [|discriminate].
    cbn in Hrun. injection Hrun as <-.
    destruct (params !! "id") as [v|] eqn:Hid.
    + assert ("id" ∈ names [Lit "status"; Param "contentId"]) as Hin
        by (eapply matchPath_binds; eauto).
      cbn in Hin. apply list_elem_of_singleton in Hin. discriminate.
    + reflexivity.
Qed.

(** a request for the status of the sample listing, and a request to
    initiate its payment *)
Lemma initiate_and_status_always_refuse_witness :
  let w := Samples.world (Samples.listing None) [] in
  let refused :=
    {| status := 400;
       body := BError "Invalid content ID"
                 (Some "Content ID must be a valid UUID") |} in
  (exists run, postInitiate ["initiate"] (Some Samples.contentId)
               = Some run /\ run w = (Ok refused, w)) /\
  (exists run, getStatus (fun _ (_ : option string) =>
                            mret {| status := 200; body := BError "unused" None |})
                 ["status"; Samples.contentId] (Some "sig-A")
               = Some run /\ run w = (Ok refused, w)).
Proof.
  cbv zeta. split; eexists; (split; [reflexivity|]).
  - destruct (initiate_and_status_always_refuse
                (fun _ (_ : option string) => mret {| status := 200; body := BError "unused" None |})
                ["initiate"] (Some Samples.contentId) None
                (Samples.world (Samples.listing None) [])) as [Hpost _].
    apply Hpost. reflexivity.
  - destruct (initiate_and_status_always_refuse
                (fun _ (_ : option string) =>
                   mret {| status := 200; body := BError "unused" None |})
                ["status"; Samples.contentId] None (Some "sig-A")
                (Samples.world (Samples.listing None) [])) as [_ Hget].
    apply Hget. reflexivity.
Defined.

End RouterFacts.

(** ** The cache in memory *)
Module CacheFacts.
Import Js Cache.
Local Open Scope string_scope.

Lemma append_inj (p a b : string) : p ++ a = p ++ b -> a = b.
Proof.
  induction p as [|ch p IH]; cbn; [auto|].
  intros [= Heq]. auto.
Qed.

Lemma prefix_append (p a k : string) :
  String.prefix (p ++ a) (p ++ k) = String.prefix a k.
Proof.
  induction p as [|ch p IH]; [reflexivity|].
  change (String.prefix (String ch (p ++ a)) (String ch (p ++ k))
          = String.prefix a k).
  cbn [String.prefix].
  destruct (Ascii.ascii_dec ch ch) as [_|Hne]; [exact IH|].
  exfalso. apply Hne. reflexivity.
Qed.

Section WithValue.
Context {V : Type}.

(** What [get] answers, read off the entries. *)
Lemma get_answer (key : string) (now : Z) (c : CacheManager V) :
  (get key now c).1
  = match inMemoryCache c !! (prefix c ++ key) with
    | Some cached => if (now <? expires cached)%Z then Some (value cached) else None
    | None => None
    end.
Proof.
  unfold get. destruct (inMemoryCache c !! (prefix c ++ key)) as [cached|];
    [|reflexivity].
  destruct (now <? expires cached)%Z; reflexivity.
Qed.

(** A live entry is what [get] answers, and [get] changes nothing then. *)
Lemma get_hit (key : string) (now : Z) (c : CacheManager V) (entry : Entry V) :
  inMemoryCache c !! (prefix c ++ key) = Some entry ->
  (now < expires entry)%Z ->
  get key now c = (Some (value entry), c).
Proof.
  intros Hentry Hlive. unfold get. rewrite Hentry.
  replace (now <? expires entry)%Z with true
    by (symmetry; apply Z.ltb_lt; exact Hlive).
  reflexivity.
Qed.

(** [get] keeps the prefix, and leaves no entry behind when it answers
    [null]. *)
Lemma get_miss (key : string) (now : Z) (c : CacheManager V) :
  (get key now c).1 = None ->
  prefix (get key now c).2 = prefix c /\
  inMemoryCache (get key now c).2 !! (prefix c ++ key) = None.
Proof.
  unfold get. destruct (inMemoryCache c !! (prefix c ++ key)) as [entry|] eqn:Hentry.
  - destruct (now <? expires entry)%Z; [discriminate|]. intros _.
    split; [reflexivity|]. apply lookup_delete_eq.
  - intros _. split; [reflexivity|exact Hentry].
Qed.

(** The entry [set] leaves, when the clean-up spares it. *)
Lemma set_entry (key : string) (v : V) (ttlSeconds : option Z) (now : Z)
    (cleanupAt : option Z) (c : CacheManager V) :
  match cleanupAt with
  | Some t => (t < now + RateLimits.orNumber ttlSeconds (ttl c) * 1000)%Z
  | None => True
  end ->
  prefix (set key v ttlSeconds now cleanupAt c) = prefix c /\
  inMemoryCache (set key v ttlSeconds now cleanupAt c) !! (prefix c ++ key)
  = Some {| value := v;
            expires := now + RateLimits.orNumber ttlSeconds (ttl c) * 1000 |}.
Proof.
  intros Hclean. unfold set.
  destruct cleanupAt as [t|]; cbn [prefix inMemoryCache withEntries
    cleanupMemoryCache]; (split; [reflexivity|]).
  - apply map_lookup_filter_Some. split; [apply lookup_insert_eq|].
    cbn [snd expires]. lia.
  - apply lookup_insert_eq.
Qed.

(** X24. A value stored with [set] is what [get] answers for its key until
    the time to live is over, counted in seconds from the call, and [null]
    from then on; a time to live of 0 or none stands for the default of the
    cache. The other keys answer as before. The clean-up that [set] may run
    changes nothing of this for a reader that comes after it. *)
Theorem cache_set_then_get (key : string) (v : V) (ttlSeconds : option Z)
    (now : Z) (cleanupAt : option Z) (c : CacheManager V) (later : Z) :
  match cleanupAt with Some t => (t <= later)%Z | None => True end ->
  let c' := set key v ttlSeconds now cleanupAt c in
  let finalTTL := RateLimits.orNumber ttlSeconds (ttl c) in
  (get key later c').1
  = (if (later <? now + finalTTL * 1000)%Z then Some v else None) /\
  (forall other : string, other <> key -> (get other later c').1 = (get other later c).1).
Proof.
  intros Hclean. cbv zeta. rewrite !get_answer. split.
  - unfold set. destruct cleanupAt as [t|]; cbn [prefix inMemoryCache withEntries
      cleanupMemoryCache].
    + destruct (later <? now + _)%Z eqn:Hlive.
      * match goal with
        | |- context [filter ?P ?m !! ?k] =>
            assert (filter P m !! k
                    = Some {| value := v;
                              expires := now + RateLimits.orNumber ttlSeconds (ttl c)
                                               * 1000 |}) as ->
        end.
        { apply map_lookup_filter_Some. split; [apply lookup_insert_eq|].
          cbn [snd expires]. apply Z.ltb_lt in Hlive. lia. }
        cbn [expires value]. rewrite Hlive. reflexivity.
      * destruct (filter _ _ !! _) as [entry|] eqn:Hentry; [|reflexivity].
        apply map_lookup_filter_Some in Hentry as [Hentry _].
        rewrite lookup_insert_eq in Hentry. injection Hentry as <-.
        cbn [expires]. rewrite Hlive. reflexivity.
    + rewrite lookup_insert_eq. cbn [expires value].
      destruct (later <? _)%Z; reflexivity.
  - intros other Hother. rewrite !get_answer.
    assert (prefix c ++ key <> prefix c ++ other) as Hne
      by (intros Heq; apply append_inj in Heq; congruence).
    unfold set. destruct cleanupAt as [t|]; cbn [prefix inMemoryCache withEntries
      cleanupMemoryCache].
    + destruct (inMemoryCache c !! (prefix c ++ other)) as [entry|] eqn:Hentry.
      * destruct (later <? expires entry)%Z eqn:Hlive.
        -- match goal with
           | |- context [filter ?P ?m !! ?k] =>
               assert (filter P m !! k = Some entry) as ->
           end.
           { apply map_lookup_filter_Some.
             split; [rewrite lookup_insert_ne by exact Hne; exact Hentry|].
             cbn [snd]. apply Z.ltb_lt in Hlive. lia. }
           rewrite Hlive. reflexivity.
        -- destruct (filter _ _ !! _) as [entry'|] eqn:Hentry'; [|reflexivity].
           apply map_lookup_filter_Some in Hentry' as [Hentry' _].
           rewrite lookup_insert_ne in Hentry' by exact Hne.
           rewrite Hentry in Hentry'. injection Hentry' as <-.
           rewrite Hlive. reflexivity.
      * destruct (filter _ _ !! _) as [entry'|] eqn:Hentry'; [|reflexivity].
        apply map_lookup_filter_Some in Hentry' as [Hentry' _].
        rewrite lookup_insert_ne in Hentry' by exact Hne. congruence.
    + rewrite lookup_insert_ne by exact Hne. reflexivity.
Qed.

(** X25. [clear(pattern)] is no glob: it takes the first star out of the
    pattern and deletes the keys that start with what is left. Afterwards
    such a key answers [null], and every other key answers as before. *)
Theorem cache_clear_by_prefix (pattern key : string) (now : Z) (c : CacheManager V) :
  (get key now (clear pattern c)).1
  = if startsWith key (removeFirstStar pattern) then None
    else (get key now c).1.
Proof.
  rewrite !get_answer. unfold clear. cbn [prefix inMemoryCache withEntries].
  destruct (startsWith key (removeFirstStar pattern)) eqn:Hstarts.
  - destruct (filter _ _ !! _) as [entry|] eqn:Hentry; [|reflexivity].
    apply map_lookup_filter_Some in Hentry as [_ Hkept]. cbn [fst] in Hkept.
    unfold startsWith in Hkept, Hstarts. rewrite prefix_append in Hkept.
    congruence.
  - destruct (inMemoryCache c !! (prefix c ++ key)) as [entry|] eqn:Hentry.
    + match goal with
      | |- context [filter ?P ?m !! ?k] =>
          assert (filter P m !! k = Some entry) as ->
      end.
      { apply map_lookup_filter_Some. split; [exact Hentry|]. cbn [fst].
        unfold startsWith in *. rewrite prefix_append. exact Hstarts. }
      reflexivity.
    + destruct (filter _ _ !! _) as [entry|] eqn:Hentry'; [|reflexivity].
      apply map_lookup_filter_Some in Hentry' as [Hentry' _]. congruence.
Qed.

End WithValue.

(** a value stored for five seconds, read after four and after five *)
Lemma cache_set_then_get_witness :
  let c := set "k" 7%Z (Some 5%Z) 1000 (Some 1001%Z) (construct Z None None) in
  (get "k" 5999 c).1 = Some 7%Z /\ (get "k" 6000 c).1 = None.
Proof.
  cbv zeta. split.
  - destruct (cache_set_then_get "k" 7%Z (Some 5%Z) 1000 (Some 1001%Z)
                (construct Z None None) 5999) as [Hget _]; [cbn; lia|].
    exact Hget.
  - destruct (cache_set_then_get "k" 7%Z (Some 5%Z) 1000 (Some 1001%Z)
                (construct Z None None) 6000) as [Hget _]; [cbn; lia|].
    exact Hget.
Defined.

End CacheFacts.

(** ** The cached reads and the debounced view counter *)
Module CachedManagerFacts.
Import Js Store Effects EffectsFacts Cache CacheFacts CachedManager.
Local Open Scope string_scope.

(** The statement of [getContent] is refused on every database. *)
Lemma runGetContent_refused (id : string) (w : World) :
  runGetContent id w = (Throw "statement failed", w).
Proof. reflexivity. Qed.

(** Its retry loop throws, and changes nothing in the database. *)
Lemma getContent_attempts (id : string) (attempts : nat) (e0 : string) (w : World) :
  exists e w',
    statementAttempts attempts (runGetContent id) e0 w = (Throw e, w') /\
    committed w' = committed w.
Proof.
  revert e0 w. induction attempts as [|attempts IH]; intros e0 w.
  - exists e0, w. split; reflexivity.
  - cbn [statementAttempts].
    rewrite DatabaseManagerFacts.tryCatch_run, bind_run.
    destruct (driverCall w) as [[[]|e] w0] eqn:Hdriver;
      pose proof (driverCall_view _ _ _ Hdriver) as Hview;
      assert (committed w0 = committed w) as Hsame
        by (unfold dbView in Hview; congruence).
    + rewrite runGetContent_refused.
      destruct (IH "statement failed" w0) as (e' & w' & -> & Hkept).
      exists e', w'. split; [reflexivity|congruence].
    + destruct (IH e w0) as (e' & w' & -> & Hkept).
      exists e', w'. split; [reflexivity|congruence].
Qed.

(** X26. [getContent] never returns a listing. Its prepared statement
    selects the columns [title] and [description], which the table
    [content] of the schema does not have: the database refuses it on each
    of the three attempts, [query] rethrows the last error, and nothing is
    cached. Were the cache to hold an entry under the listing's key, the
    call would throw as well, on [result.rows[0]]. The database is left as
    it was and the cache gains no entry. *)
Theorem getContent_always_throws (id : string) (cleanupAt : option Z)
    (c : CacheManager CachedValue) (w : World) :
  exists e c' w',
    getContent id cleanupAt c w = (Throw e, c', w') /\
    committed w' = committed w /\
    inMemoryCache c' ⊆ inMemoryCache c.
Proof.
  unfold getContent, query.
  change (String.eqb (contentKey id) EmptyString) with false. cbn [negb].
  assert (inMemoryCache (get (contentKey id) (clock w) c).2 ⊆ inMemoryCache c)
    as Hsub.
  { unfold get. destruct (inMemoryCache c !! _) as [entry|]; [|reflexivity].
    destruct (_ <? _)%Z; [reflexivity|].
    cbn [snd inMemoryCache withEntries]. apply delete_subseteq. }
  destruct (get (contentKey id) (clock w) c) as [cached c1].
  cbn [snd] in Hsub.
  destruct (truthyValue cached) eqn:Htruthy.
  - destruct cached as [hit|]; [|discriminate Htruthy].
    exists rowsUndefined, c1, w. auto.
  - destruct (getContent_attempts id 3 EmptyString w) as (e & w' & -> & Hkept).
    exists e, c1, w'. auto.
Qed.

(** *** The view counter *)

Lemma atTime_clock (now : Z) (w : World) : clock (atTime now w) = now.
Proof. reflexivity. Qed.

(** A view that finds a live count below ten, or none, only counts in the
    cache. *)
Lemma view_counts_in_cache (id : string) (now : Z) (cleanupAt : option Z)
    (c : CacheManager CachedValue) (w : World) (n : Z) :
  (get (viewKey id) now c).1 = None /\ n = 0%Z \/
  (exists expiry, pending id c = Some {| value := VNum n; expires := expiry |} /\
                  (now < expiry)%Z) ->
  (n < 10)%Z ->
  match cleanupAt with Some t => (t < now + 60000)%Z | None => True end ->
  exists c',
    incrementViews id cleanupAt c (atTime now w) = Some (Ok (), c', atTime now w) /\
    prefix c' = prefix c /\
    pending id c' = Some {| value := VNum (n + 1); expires := now + 60000 |}.
Proof.
  intros Hstate Hbelow Hclean. unfold incrementViews. rewrite atTime_clock.
  assert (exists c1, get (viewKey id) now c = (None, c1) /\ n = 0%Z /\
                     prefix c1 = prefix c \/
                     get (viewKey id) now c = (Some (VNum n), c1) /\ c1 = c)
    as (c1 & Hget).
  { destruct Hstate as [[Hnone ->]|(expiry & Hentry & Hlive)].
    - exists (get (viewKey id) now c).2. left.
      destruct (get_miss _ _ _ Hnone) as [Hp _].
      destruct (get (viewKey id) now c) as [a b]; cbn in *. subst a. auto.
    - exists c. right. split; [|reflexivity].
      apply (get_hit _ _ _ _ Hentry). exact Hlive. }
  assert (prefix c1 = prefix c) as Hp1 by (destruct Hget as [(_ & _ & ?)|[_ ->]]; auto).
  assert (pendingOf (get (viewKey id) now c).1 = Some n) as Hpending.
  { destruct Hget as [(-> & -> & _)|[-> _]]; reflexivity. }
  replace (get (viewKey id) now c) with ((get (viewKey id) now c).1, c1)
    by (destruct Hget as [(-> & _)|[-> _]]; reflexivity).
  rewrite Hpending. cbn [mbind option_bind].
  replace (n <? 10)%Z with true by (symmetry; apply Z.ltb_lt; exact Hbelow).
  destruct (set_entry (viewKey id) (VNum (n + 1)) (Some 60%Z) now cleanupAt c1)
    as [Hp Hentry].
  { destruct cleanupAt as [t|]; [|exact I]. cbn. lia. }
  eexists. split; [reflexivity|]. split; [congruence|].
  unfold pending. rewrite Hp, Hp1. rewrite Hp1 in Hentry. exact Hentry.
Qed.

(** The statement that counts a view, on a server whose driver works. *)
Lemma updateAttempts_ok (id : string) (w : World) (row : ContentRow) :
  faults w = [] ->
  content (committed w) !! id = Some row ->
  (views row < INT_MAX)%Z ->
  exists rows,
    updateAttempts 3 id EmptyString w
    = (Ok rows, setDb w (viewed id row (committed w)) (session w) []).
Proof.
  intros Hfaults Hrow Hroom. cbn [updateAttempts].
  rewrite DatabaseManagerFacts.tryCatch_run, bind_run,
    (driverCall_ok _ Hfaults).
  unfold runUpdateViews, updateContentViews. rewrite Hrow.
  replace (views row + 1 >? INT_MAX)%Z with false
    by (symmetry; rewrite Z.gtb_ltb; apply Z.ltb_ge; lia).
  rewrite Hfaults. eexists. reflexivity.
Qed.

(** A view that finds a live count of ten or more goes to the database. *)
Lemma view_flushes (id : string) (now : Z) (cleanupAt : option Z)
    (c : CacheManager CachedValue) (w : World) (n expiry : Z) (row : ContentRow) :
  pending id c = Some {| value := VNum n; expires := expiry |} ->
  (now < expiry)%Z -> (10 <= n)%Z ->
  faults w = [] ->
  content (committed w) !! id = Some row ->
  (views row < INT_MAX)%Z ->
  exists c' w',
    incrementViews id cleanupAt c (atTime now w) = Some (Ok (), c', w') /\
    committed w' = viewed id row (committed w) /\ faults w' = [] /\
    prefix c' = prefix c /\ pending id c' = None.
Proof.
  intros Hentry Hlive Hfull Hfaults Hrow Hroom.
  unfold incrementViews. rewrite atTime_clock.
  rewrite (get_hit _ _ _ _ Hentry Hlive). cbn [value pendingOf mbind option_bind].
  replace (n <? 10)%Z with false by (symmetry; apply Z.ltb_ge; exact Hfull).
  destruct (updateAttempts_ok id (atTime now w) row Hfaults Hrow Hroom)
    as [rows ->].
  eexists _, _. split; [reflexivity|]. split; [reflexivity|].
  split; [reflexivity|]. split; [reflexivity|].
  unfold pending, del. cbn [prefix inMemoryCache withEntries].
  destruct (decide (prefix c ++ contentKey id = prefix c ++ viewKey id))
    as [Heq|Hne].
  - apply append_inj in Heq. discriminate Heq.
  - rewrite lookup_delete_ne by exact Hne. apply lookup_delete_eq.
Qed.

(** From a live count of [n], the views that bring it to ten and the one
    after them. *)
Lemma views_until_flush (id : string) (calls : list (Z * option Z)) :
  forall (n : nat) (c : CacheManager CachedValue) (w : World) (expiry : Z)
         (row : ContentRow),
    (1 <= n <= 10)%nat ->
    pending id c = Some {| value := VNum (Z.of_nat n); expires := expiry |} ->
    length calls = (11 - n)%nat ->
    inTime expiry calls ->
    faults w = [] ->
    content (committed w) !! id = Some row ->
    (views row < INT_MAX)%Z ->
    exists c' w',
      viewAll id calls c w = Some (c', w') /\
      committed w' = viewed id row (committed w) /\
      prefix c' = prefix c /\ pending id c' = None.
Proof.
  induction calls as [|[now cleanupAt] rest IH];
    intros n c w expiry row Hn Hentry Hlength Hin Hfaults Hrow Hroom.
  - cbn in Hlength. lia.
  - destruct Hin as (Hlive & Hclean & Hrest). cbn [viewAll].
    destruct (decide (n = 10%nat)) as [->|Hless].
    + destruct rest; [|cbn in Hlength; lia].
      destruct (view_flushes id now cleanupAt c w _ _ row Hentry Hlive)
        as (c' & w' & -> & Hdb & _ & Hp & Hgone); auto; [lia|].
      cbn. exists c', w'. auto.
    + destruct (view_counts_in_cache id now cleanupAt c w (Z.of_nat n))
        as (c' & -> & Hp & Hentry'); [right; eauto|lia|exact Hclean|].
      cbn [mbind option_bind].
      replace (Z.of_nat n + 1)%Z with (Z.of_nat (S n)) in Hentry' by lia.
      destruct (IH (S n) c' (atTime now w) (now + 60000)%Z row)
        as (c'' & w'' & Hrun & Hdb & Hp' & Hgone);
        [lia|exact Hentry'|cbn [length] in Hlength; lia|exact Hrest|exact Hfaults
        |exact Hrow|exact Hroom|].
      exists c'', w''. split; [exact Hrun|]. split; [exact Hdb|].
      split; [congruence|exact Hgone].
Qed.

(** X27. Of eleven views of a listing only one is counted. The first ten
    calls of [incrementViews], each made before the pending count of the
    call before it is a minute old, count in the cache alone; the eleventh
    adds one to [views], not eleven, and drops the pending count. *)
Theorem eleven_views_count_once (id : string) (first : Z) (cleanupFirst : option Z)
    (rest : list (Z * option Z)) (c : CacheManager CachedValue) (w : World)
    (row : ContentRow) :
  (get (viewKey id) first c).1 = None ->
  content (committed w) !! id = Some row ->
  (views row < INT_MAX)%Z ->
  faults w = [] ->
  length rest = 10%nat ->
  match cleanupFirst with Some t => (t < first + 60000)%Z | None => True end ->
  inTime (first + 60000) rest ->
  exists c' w',
    viewAll id ((first, cleanupFirst) :: rest) c w = Some (c', w') /\
    committed w' = viewed id row (committed w) /\
    forall later : Z, (get (viewKey id) later c').1 = None.
Proof.
  intros Hnone Hrow Hroom Hfaults Hlength Hclean Hrest. cbn [viewAll].
  destruct (view_counts_in_cache id first cleanupFirst c w 0)
    as (c1 & -> & Hp & Hentry); [left; auto|lia|exact Hclean|].
  cbn [mbind option_bind].
  destruct (views_until_flush id rest 1 c1 (atTime first w) (first + 60000)%Z row)
    as (c' & w' & Hrun & Hdb & Hp' & Hgone);
    [lia|exact Hentry|rewrite Hlength; reflexivity|exact Hrest|exact Hfaults
    |exact Hrow|exact Hroom|].
  exists c', w'. split; [exact Hrun|]. split; [exact Hdb|].
  intros later. rewrite get_answer. unfold pending in Hgone.
  rewrite Hgone. reflexivity.
Qed.

(** eleven views of the sample listing, one every second *)
Lemma eleven_views_count_once_witness :
  let w := Samples.world (Samples.listing None) [] in
  let calls := map (fun t : Z => (t, @None Z))
                 [0; 1000; 2000; 3000; 4000; 5000; 6000; 7000; 8000; 9000; 10000]%Z in
  exists c' w',
    viewAll Samples.contentId calls (construct CachedValue None None) w
    = Some (c', w') /\
    views <$> content (committed w') !! Samples.contentId = Some 1%Z.
Proof.
  cbv zeta.
  destruct (eleven_views_count_once Samples.contentId 0 None
              (map (fun t : Z => (t, @None Z))
                 [1000; 2000; 3000; 4000; 5000; 6000; 7000; 8000; 9000; 10000]%Z)
              (construct CachedValue None None)
              (Samples.world (Samples.listing None) []) (Samples.listing None))
    as (c' & w' & Hrun & Hdb & _).
  - reflexivity.
  - reflexivity.
  - vm_compute. reflexivity.
  - reflexivity.
  - reflexivity.
  - exact I.
  - cbn. repeat split; lia.
  - exists c', w'. split; [exact Hrun|]. rewrite Hdb.
    unfold viewed. cbn [content]. rewrite lookup_insert_eq. reflexivity.
Defined.

End CachedManagerFacts.
